(** * Verdict: prompt builder, analysis adapter, transcription adapter and
    session store

    A shallow embedding of the server of the Verdict application
    (TypeScript) together with the properties its specification states.

    The embedding:
    - [Js], [JsVal] JavaScript strings and values as the code uses them
    - [Eff]         [async] functions as a state and exception monad
    - [AiNew]       server/src/ai_new.ts: the prompt tables,
                    [getUserPrompt], [analyzeConflict],
                    [createAnalysisStream]
    - [AiMarkdown], [AiPlain]  the prompts of [createAnalysisStream] in
                    the two other revisions of the analysis module the
                    repository holds
    - [Ai]          [createAnalysisStream] of the module [./ai] that
                    index.ts imports, in these two revisions
    - [Transcribe]  [retryWithBackoff] and [transcribeAudio]
    - [Schema], [Storage]  a session, and the in-memory store [MemStorage]
    - [Server]      the request router (index.ts) and what it does to
                    the store
    - [Subscription]  server/src/subscription.ts: [validateSubscription]
                    over the subscriptions table
    - [Router]      the subscription check in front of
                    [POST /api/sessions]
    - [ResponseDisplay]  the client's cut of a response into sections

    The properties follow, module by module: first those the
    specification states, then runs of the store, of the transcription,
    of the two analysis adapters and of the request handler over every
    behaviour of the platform.

    Strings are [string]s of bytes (UTF-8).  What JavaScript leaves to the
    platform (JSON.parse, the clock, the network, child processes) is an
    explicit oracle of the model; what the code of the repository
    computes is a Rocq function. *)

From Stdlib Require Import ZArith String Ascii List Bool Lia.
From Stdlib Require Import Floats DecimalString.
From stdpp Require Import base relations gmap.
Import ListNotations.

Set Warnings "-register-all,-inexact-float".

(* ===================================================================== *)
(** * JavaScript strings *)
(* ===================================================================== *)

Module Js.

Local Open Scope string_scope.

(** The line feed of a template literal that spans lines. *)
Definition nl : string := String "010"%char EmptyString.

(** The double quote character. *)
Definition dq : string := String "034"%char EmptyString.

(** [!s] on a string: only the empty string is falsy. *)
Definition truthy (s : string) : bool :=
  match s with
  | EmptyString => false
  | String _ _ => true
  end.

(** [x ? ... : ...] on a value of type [string | null]. *)
Definition truthy_opt (o : option string) : bool :=
  match o with
  | Some s => truthy s
  | None => false
  end.

(** [hay.includes(needle)]. *)
Fixpoint includes (hay needle : string) : bool :=
  String.prefix needle hay ||
  match hay with
  | EmptyString => false
  | String _ rest => includes rest needle
  end.

(** Concatenation of the chunks of a stream: [acc += delta] for each. *)
Fixpoint concat_chunks (acc : string) (chunks : list string) : string :=
  match chunks with
  | [] => acc
  | delta :: rest => concat_chunks (acc ++ delta) rest
  end.

End Js.

(* ===================================================================== *)
(** * JavaScript values, as far as the code looks into them *)
(* ===================================================================== *)

Module JsVal.

Import Js.
Local Open Scope string_scope.

(** A thrown value: an [Error] with its [message], or [undefined]
    ([retryWithBackoff] throws its unset [lastError] when it is given no
    attempt to make). *)
Inductive Thrown : Type :=
  | Error (message : string)
  | ThrownUndefined.

(** What [JSON.parse] returns, and [undefined] for a property that is not
    there.  A number is carried by its decimal rendering, which is all the
    code does with one ([String(n)], [JSON.stringify(n)]); an object holds
    each key once. *)
Inductive JsValue : Type :=
  | JUndefined
  | JNull
  | JBool (b : bool)
  | JNum (repr : string)
  | JStr (s : string)
  | JArr (elems : list JsValue)
  | JObj (props : list (string * JsValue)).

(** Truthiness of a value ([v ? a : b], [v || w], [!v]). *)
Definition truthyV (v : JsValue) : bool :=
  match v with
  | JUndefined | JNull => false
  | JBool b => b
  | JNum repr => negb (String.eqb repr "0")
  | JStr s => truthy s
  | JArr _ | JObj _ => true
  end.

Fixpoint lookup_prop (props : list (string * JsValue)) (key : string)
  : JsValue :=
  match props with
  | [] => JUndefined
  | (k, v) :: rest => if String.eqb k key then v else lookup_prop rest key
  end.

(** [v.key]: a TypeError on [undefined] and [null] (the message is V8's),
    [undefined] where the property is missing.  The keys the code reads
    ([text], [error], [type], [message], [segments], [words]) are no
    built-in property of a string, number, boolean or array. *)
Definition get (v : JsValue) (key : string) : Thrown + JsValue :=
  match v with
  | JUndefined =>
      inl (Error ("Cannot read properties of undefined (reading '"
                  ++ key ++ "')"))
  | JNull =>
      inl (Error ("Cannot read properties of null (reading '"
                  ++ key ++ "')"))
  | JObj props => inr (lookup_prop props key)
  | _ => inr JUndefined
  end.

(** [v?.key]. *)
Definition get_opt (v : JsValue) (key : string) : JsValue :=
  match v with
  | JObj props => lookup_prop props key
  | _ => JUndefined
  end.

(** [v || w]. *)
Definition or_else (v w : JsValue) : JsValue :=
  if truthyV v then v else w.

(** [String(v)], the conversion of a template literal and of [+] with a
    string. *)
Fixpoint toStr (v : JsValue) : string :=
  match v with
  | JUndefined => "undefined"
  | JNull => "null"
  | JBool true => "true"
  | JBool false => "false"
  | JNum repr => repr
  | JStr s => s
  | JArr elems =>
      (fix join (l : list JsValue) : string :=
         match l with
         | [] => ""
         | x :: rest =>
             match x with
             | JUndefined | JNull => ""
             | _ => toStr x
             end ++
             match rest with
             | [] => ""
             | _ :: _ => "," ++ join rest
             end
         end) elems
  | JObj _ => "[object Object]"
  end.

(** The escape of one character by [JSON.stringify]. *)
Definition hex_digit (n : N) : ascii :=
  match n with
  | 0 => "0" | 1 => "1" | 2 => "2" | 3 => "3" | 4 => "4" | 5 => "5"
  | 6 => "6" | 7 => "7" | 8 => "8" | 9 => "9" | 10 => "a" | 11 => "b"
  | 12 => "c" | 13 => "d" | 14 => "e" | _ => "f"
  end%N%char.

Definition escape_char (c : ascii) : string :=
  let n := N_of_ascii c in
  if (n =? 34)%N then "\" ++ dq
  else if (n =? 92)%N then "\\"
  else if (n =? 8)%N then "\b"
  else if (n =? 12)%N then "\f"
  else if (n =? 10)%N then "\n"
  else if (n =? 13)%N then "\r"
  else if (n =? 9)%N then "\t"
  else if (n <? 32)%N then
    "\u00" ++ String (hex_digit (n / 16)) (String (hex_digit (n mod 16)) "")
  else String c "".

Fixpoint escape (s : string) : string :=
  match s with
  | EmptyString => ""
  | String c rest => escape_char c ++ escape rest
  end.

(** [JSON.stringify(s)] for a string [s]. *)
Definition quote (s : string) : string := dq ++ escape s ++ dq.

(** [JSON.stringify(v)]; [None] is [undefined].  A property whose value
    is [undefined] is left out, an [undefined] array element prints as
    [null]. *)
Fixpoint JSON_stringify (v : JsValue) : option string :=
  match v with
  | JUndefined => None
  | JNull => Some "null"
  | JBool true => Some "true"
  | JBool false => Some "false"
  | JNum repr => Some repr
  | JStr s => Some (quote s)
  | JArr elems =>
      Some ("[" ++
        (fix items (l : list JsValue) : string :=
           match l with
           | [] => ""
           | x :: rest =>
               default "null" (JSON_stringify x) ++
               match rest with
               | [] => ""
               | _ :: _ => "," ++ items rest
               end
           end) elems ++ "]")
  | JObj props =>
      Some ("{" ++
        (fix members (l : list (string * JsValue)) (first : bool) : string :=
           match l with
           | [] => ""
           | (k, x) :: rest =>
               match JSON_stringify x with
               | None => members rest first
               | Some js =>
                   (if first then "" else ",") ++ quote k ++ ":" ++ js
                   ++ members rest false
               end
           end) props true ++ "}")
  end.

(** [JSON.stringify] of an object literal, which is never [undefined]. *)
Definition stringify_object (props : list (string * JsValue)) : string :=
  default "{}" (JSON_stringify (JObj props)).

End JsVal.

(* ===================================================================== *)
(** * Effects: a state and exception monad *)
(* ===================================================================== *)

(** An [async] function is a computation over the world [W] it acts on,
    which returns or throws.  [await] is sequencing. *)
Module Eff.

Import JsVal.

Definition M (W A : Type) : Type := W -> (Thrown + A) * W.

Definition ret {W A} (a : A) : M W A := fun w => (inr a, w).

Definition bind {W A B} (m : M W A) (k : A -> M W B) : M W B :=
  fun w =>
    match m w with
    | (inl e, w') => (inl e, w')
    | (inr a, w') => k a w'
    end.

Definition throw {W A} (e : Thrown) : M W A := fun w => (inl e, w).

(** [try { m } catch (error) { handler error }]. *)
Definition tryCatch {W A} (m : M W A) (handler : Thrown -> M W A) : M W A :=
  fun w =>
    match m w with
    | (inl e, w') => handler e w'
    | (inr a, w') => (inr a, w')
    end.

(** [try { m } finally { cleanup }], for a [cleanup] that runs to its end;
    a [cleanup] that throws replaces the outcome. *)
Definition tryFinally {W A} (m : M W A) (cleanup : M W unit) : M W A :=
  fun w =>
    match m w with
    | (r, w') =>
        match cleanup w' with
        | (inl e, w'') => (inl e, w'')
        | (inr _, w'') => (r, w'')
        end
    end.

(** The outcome of a platform call, as the oracle gives it. *)
Definition lift {W A} (r : Thrown + A) : M W A := fun w => (r, w).

Definition modify {W} (f : W -> W) : M W unit := fun w => (inr tt, f w).

Definition gets {W A} (f : W -> A) : M W A := fun w => (inr (f w), w).

Declare Scope eff_scope.
Delimit Scope eff_scope with eff.

Notation "x <- m ;; k" := (bind m (fun x => k))
  (at level 100, m at next level, right associativity) : eff_scope.
Notation "m ;; k" := (bind m (fun _ => k))
  (at level 100, right associativity) : eff_scope.

(** A call that threw. *)
Definition failed {A} (r : Thrown + A) : bool :=
  match r with inl _ => true | inr _ => false end.

End Eff.

(* ===================================================================== *)
(** * The counseling modes (schema.ts: modeSchema) *)
(* ===================================================================== *)

Inductive CounselingMode : Type :=
  | counselor
  | evaluator
  | dinner
  | entertainment.

(* ===================================================================== *)
(** * server/src/ai_new.ts: the prompt builder *)
(* ===================================================================== *)

Module AiNew.

Import Js.
Local Open Scope string_scope.

(** System prompts for each counseling mode. *)
Definition SYSTEM_PROMPTS (mode : CounselingMode) : string :=
  match mode with
  | evaluator =>
      "You are a debate judge and arbiter that will listen to a relationship argument between two partners, then pick the winner based on who you think is right and wrong. You must always pick a clear winner. Your response should start with the name of the person who is right, and explain why that is the case. Be concise, keeping responses under 150 words."
  | counselor =>
      "You are a relationship counselor that will listen to the perspective of the two speakers and think deeply to mediate and resolve any argument presented. You will help them find common ground and propose a resolution that ends their conflict. Be concise, keeping responses under 300 words."
  | dinner =>
      "You are a decisive meal planning assistant for a picky couple that is hungry and indecisive about what they want to eat. You will analyze their preferences or discussion to recommend a specific genre of food along with a few recommended dishes. Start with a clear selection of what they should order, then justify the choice. Keep responses concise and under 100 words."
  | entertainment =>
      "You are a decisive entertainment recommender. You will analyze the entertainment preferences or discussion points from two partners to recommend a specific show or movie. Start with a clear pick and justify it. Keep responses under 150 words."
  end.

Record IntroText : Type := { live : string; separate : string }.

(** Introductory text for user prompts based on mode and context. *)
Definition INTRO_TEXT (mode : CounselingMode) : IntroText :=
  match mode with
  | evaluator =>
      {| live := "Based on the following argument discussion:";
         separate := "Based on their perspectives on the issue:" |}
  | counselor =>
      {| live := "Based on the following argument discussion:";
         separate := "Based on their perspectives on the issue:" |}
  | dinner =>
      {| live := "Based on the following discussion about what to eat:";
         separate := "Based on their food preferences:" |}
  | entertainment =>
      {| live := "Based on the following discussion about entertainment:";
         separate := "Based on their entertainment preferences:" |}
  end.

(** The [switch (mode)] of [getUserPrompt] that fills [format]. *)
Definition format (mode : CounselingMode) : string :=
  match mode with
  | evaluator =>
      nl ++ "**FORMAT**:" ++ nl ++
      "- **WINNER**: [Name of the winner]" ++ nl ++
      "- **WHY**: 2-3 bullet points explaining why they are right"
  | counselor =>
      nl ++ "**FORMAT**:" ++ nl ++
      "- **KEY INSIGHTS**: 2-3 bullet points summarizing the conflict" ++ nl ++
      "- **RESOLUTION**: Specific advice to resolve the conflict"
  | dinner =>
      nl ++ "**FORMAT**:" ++ nl ++
      "- **VERDICT**: 'You should eat [specific recommendation]'" ++ nl ++
      "- **WHY**: 2-3 bullet points explaining the choice" ++ nl ++
      "- **ALTERNATIVES**: 1-2 backup options"
  | entertainment =>
      nl ++ "**FORMAT**:" ++ nl ++
      "- **VERDICT**: 'Watch [specific show/movie]'" ++ nl ++
      "- **WHY**: 2-3 bullet points justifying the pick" ++ nl ++
      "- **ALTERNATIVES**: 1-2 backup recommendations"
  end.

(** Generates a user prompt based on mode, partner inputs, and context.
    [partner2Text] has type [string | null]. *)
Definition getUserPrompt
    (mode : CounselingMode)
    (partner1Name partner2Name partner1Text : string)
    (partner2Text : option string)
    (isLiveArgument : bool) : string :=
  let intro :=
    if isLiveArgument then live (INTRO_TEXT mode)
    else separate (INTRO_TEXT mode) in
  let partner2Statement :=
    match partner2Text with
    | Some text =>
        if truthy text then "- " ++ partner2Name ++ ": " ++ text
        else "- " ++ partner2Name ++ ": No input provided"
    | None => "- " ++ partner2Name ++ ": No input provided"
    end in
  let analysisText :=
    "- " ++ partner1Name ++ ": " ++ partner1Text ++ nl ++ partner2Statement in
  intro ++ nl ++ analysisText ++ nl ++ format mode.

(** ** The analysis adapter *)

Import JsVal Eff.
Local Open Scope eff_scope.

Inductive Role : Type := system | user.

(** A [CoreMessage]. *)
Record Message : Type := { role : Role; content : string }.

(** The argument of [streamText]; [openai('gpt-4')] is the model's name. *)
Record StreamTextArgs : Type := {
  model : string;
  messages : list Message;
  temperature : float;
  maxTokens : Z
}.

(** [result.textStream]: the deltas it yields, and then either its end or
    the error that iterating it throws. *)
Record TextStream : Type := {
  chunks : list string;
  failure : option Thrown
}.

(** What the platform answers during one call. *)
Record Env : Type := {
  JSON_parse : string -> Thrown + JsValue;
  streamText : StreamTextArgs -> Thrown + TextStream;
  (** [new Date().toISOString()] *)
  now_toISOString : string
}.

(** What a call does to the outside, in the order it does it. *)
Inductive Event : Type :=
  | EvStreamText (args : StreamTextArgs)
  | EvDelta (delta : string)
  | EvOnComplete (response : string)
  | EvConsoleError (label : string) (error : Thrown).

(** The world of a call: its trace, and the state [St] the completion
    callback of the caller acts on. *)
Record World (St : Type) : Type := {
  trace : list Event;
  callerState : St
}.
Arguments trace {St} _.
Arguments callerState {St} _.

Section Adapter.

Context {St : Type}.
Variable env : Env.

Definition emit (e : Event) : M (World St) unit :=
  modify (fun w =>
    {| trace := trace w ++ [e]; callerState := callerState w |}).

(** Runs a computation of the caller on the caller's state. *)
Definition onCaller {A} (m : M St A) : M (World St) A :=
  fun w =>
    match m (callerState w) with
    | (r, st') => (r, {| trace := trace w; callerState := st' |})
    end.

(** [for await (const delta of result.textStream) fullResponse += delta]. *)
Fixpoint accumulate (fullResponse : string) (deltas : list string)
    (failure : option Thrown) : M (World St) string :=
  match deltas with
  | [] =>
      match failure with
      | None => ret fullResponse
      | Some e => throw e
      end
  | delta :: rest =>
      emit (EvDelta delta);;
      accumulate (fullResponse ++ delta)%string rest failure
  end.

Definition callStreamText (args : StreamTextArgs) : M (World St) TextStream :=
  emit (EvStreamText args);;
  lift (streamText env args).

Definition requestFor (mode : CounselingMode)
    (systemPrompt userPrompt : string) : StreamTextArgs :=
  let messages :=
    [ {| role := system; content := systemPrompt |};
      {| role := user; content := userPrompt |} ] in
  let temperature :=
    match mode with counselor => 0.7%float | _ => 0.3%float end in
  {| model := "gpt-4"; messages := messages;
     temperature := temperature; maxTokens := 300 |}.

(** [{ verdict: fullResponse, timestamp: new Date().toISOString() }],
    stringified. *)
Definition envelope (fullResponse timestamp : string) : string :=
  stringify_object
    [ ("verdict", JStr fullResponse); ("timestamp", JStr timestamp) ].

(** [getUserPrompt] as [analyzeConflict] calls it.  [JSON.parse] returns
    [any], so [partner1Data.text] and [partner2Data?.text || null] reach
    the function as whatever values the transcripts hold: the test of
    [partner2Text] is on the value, and the template renders the values. *)
Definition getUserPromptOfValues
    (mode : CounselingMode)
    (partner1Name partner2Name : string)
    (partner1Text partner2Text : JsValue)
    (isLiveArgument : bool) : string :=
  let intro :=
    if isLiveArgument then live (INTRO_TEXT mode)
    else separate (INTRO_TEXT mode) in
  let partner2Statement :=
    if truthyV partner2Text
    then "- " ++ partner2Name ++ ": " ++ toStr partner2Text
    else "- " ++ partner2Name ++ ": No input provided" in
  let analysisText :=
    "- " ++ partner1Name ++ ": " ++ toStr partner1Text ++ nl
    ++ partner2Statement in
  intro ++ nl ++ analysisText ++ nl ++ format mode.

(** Analyzes a conflict between two partners based on the specified
    mode. *)
Definition analyzeConflict
    (partner1Text partner2Text : string)
    (mode : CounselingMode)
    (isLiveArgument : bool)
    (partner1Name partner2Name : string) : M (World St) string :=
  tryCatch
    (partner1Data <- lift (JSON_parse env partner1Text);;
     partner2Data <-
       (if truthy partner2Text then lift (JSON_parse env partner2Text)
        else ret JNull);;
     let systemPrompt := SYSTEM_PROMPTS mode in
     partner1DataText <- lift (get partner1Data "text");;
     let partner2DataText := or_else (get_opt partner2Data "text") JNull in
     let userPrompt :=
       getUserPromptOfValues mode partner1Name partner2Name
         partner1DataText partner2DataText isLiveArgument in
     result <- callStreamText (requestFor mode systemPrompt userPrompt);;
     fullResponse <- accumulate "" (chunks result) (failure result);;
     if negb (truthy fullResponse) then
       throw (Error "Analysis failed - empty response from AI")
     else
       ret (envelope fullResponse (now_toISOString env)))
    (fun error =>
       emit (EvConsoleError "[AI] Analysis error:" error);;
       throw (Error "Analysis failed. Please try again.")).

(** Options for creating an analysis stream. *)
Record AnalysisStreamOptions : Type := {
  partner1Name : string;
  partner2Name : string;
  partner1Transcription : string;
  partner2Transcription : option string;
  mode : CounselingMode;
  isLiveArgument : bool;
  sessionId : Z;
  onComplete : string -> M St unit
}.

(** The [{ aiResponse: string }] it resolves to. *)
Record AnalysisStreamResult : Type := { aiResponse : string }.

(** Creates a streaming analysis response for the specified mode. *)
Definition createAnalysisStream (options : AnalysisStreamOptions)
  : M (World St) AnalysisStreamResult :=
  tryCatch
    (let systemPrompt := SYSTEM_PROMPTS (mode options) in
     let userPrompt :=
       getUserPrompt (mode options)
         (partner1Name options) (partner2Name options)
         (partner1Transcription options) (partner2Transcription options)
         (isLiveArgument options) in
     result <-
       callStreamText (requestFor (mode options) systemPrompt userPrompt);;
     fullResponse <- accumulate "" (chunks result) (failure result);;
     let finalResponse := envelope fullResponse (now_toISOString env) in
     emit (EvOnComplete finalResponse);;
     onCaller (onComplete options finalResponse);;
     ret {| aiResponse := fullResponse |})
    (fun error =>
       emit (EvConsoleError "[AI] Analysis error:" error);;
       throw (Error "Analysis failed. Please try again.")).

End Adapter.

(** The request a call of [createAnalysisStream] sends. *)
Definition streamRequest {St} (options : @AnalysisStreamOptions St)
  : StreamTextArgs :=
  requestFor (mode options) (SYSTEM_PROMPTS (mode options))
    (getUserPrompt (mode options)
       (partner1Name options) (partner2Name options)
       (partner1Transcription options) (partner2Transcription options)
       (isLiveArgument options)).

(** The arguments of the calls of the completion callback in a trace. *)
Definition onCompleteCalls (t : list Event) : list string :=
  flat_map
    (fun e => match e with EvOnComplete response => [response] | _ => [] end)
    t.

(** The world a call starts in, for a caller in state [st]. *)
Definition initial {St} (st : St) : World St :=
  {| trace := []; callerState := st |}.

(** The requests of the calls of [streamText] in a trace. *)
Definition requests (t : list Event) : list StreamTextArgs :=
  flat_map (fun e => match e with EvStreamText args => [args] | _ => [] end) t.

(** The last event of a trace is the log of a caught error. *)
Definition endsInLog (t : list Event) : Prop :=
  exists t0 cause, t = (t0 ++ [EvConsoleError "[AI] Analysis error:" cause])%list.

(** The error both adapters throw for every failure. *)
Definition genericFailure : Thrown := Error "Analysis failed. Please try again.".

(** The transcript [partnerText] holds the text [text]: it parses to an
    object whose [text] is that string. *)
Definition holdsText (env : Env) (partnerText text : string) : Prop :=
  exists data,
    JSON_parse env partnerText = inr data
    /\ get data "text" = inr (JStr text).

(** The transcripts handed to [analyzeConflict] hold the texts handed to
    [createAnalysisStream]. *)
Definition sameTranscripts {St} (env : Env) (partner1Text partner2Text : string)
    (options : @AnalysisStreamOptions St) : Prop :=
  holdsText env partner1Text (partner1Transcription options)
  /\ match partner2Transcription options with
     | Some text => truthy partner2Text = true
                    /\ holdsText env partner2Text text
     | None => partner2Text = ""
     end.

End AiNew.

(* ===================================================================== *)
(** * The revision of the analysis module with the three system prompts
      and the markdown format block: the prompt of [createAnalysisStream] *)
(* ===================================================================== *)

Module AiMarkdown.

Import Js.
Local Open Scope string_scope.

(** [x || fallback] and [x ? x : fallback] on a [string | null]. *)
Definition orText (x : option string) (fallback : string) : string :=
  match x with
  | Some text => if truthy text then text else fallback
  | None => fallback
  end.

Definition mealFormat : string :=
  "**FORMAT**:" ++ nl ++
  "- **VERDICT**: 'You should eat [specific recommendation]'" ++ nl ++
  "- **WHY**: 2-3 bullet points explaining the choice" ++ nl ++
  "- **ALTERNATIVES**: 1-2 backup options".

Definition showFormat : string :=
  "**FORMAT**:" ++ nl ++
  "- **VERDICT**: 'Watch [specific show/movie]'" ++ nl ++
  "- **WHY**: 2-3 bullet points justifying the pick" ++ nl ++
  "- **ALTERNATIVES**: 1-2 backup recommendations".

Definition analysisFormat (mode : CounselingMode) : string :=
  "**FORMAT**:" ++ nl ++
  "- **VERDICT**: One-sentence judgment" ++ nl ++
  "- **KEY POINTS**: 2-3 bullet points supporting the verdict" ++ nl ++
  "- **" ++ match mode with counselor => "ADVICE" | _ => "WINNER" end
  ++ "**: " ++
  match mode with
  | counselor => "2 specific suggestions for better communication"
  | _ => "One clear sentence declaring the winner and why"
  end.

(** The [analysisPrompt] that [createAnalysisStream] builds, branch by
    branch of its [if (mode === ...) ... else if (isLiveArgument) ...]. *)
Definition analysisPrompt
    (mode : CounselingMode)
    (partner1Name partner2Name partner1Transcription : string)
    (partner2Transcription : option string)
    (isLiveArgument : bool) : string :=
  match mode with
  | dinner =>
      if isLiveArgument then
        "Based on the following key points from " ++ partner1Name ++ " and "
        ++ partner2Name ++ "'s dinner discussion:" ++ nl ++
        "- " ++ partner1Name ++ ": " ++ partner1Transcription ++ nl ++
        "- " ++ partner2Name ++ ": "
        ++ orText partner2Transcription "No input provided" ++ nl ++ nl ++
        "Provide a meal recommendation." ++ nl ++ nl ++ mealFormat
      else
        "Based on " ++ partner1Name ++ " and " ++ partner2Name
        ++ "'s separate food preferences:" ++ nl ++
        "- " ++ partner1Name ++ ": " ++ partner1Transcription ++ nl ++
        "- " ++ partner2Name ++ ": "
        ++ orText partner2Transcription "No preferences provided"
        ++ nl ++ nl ++
        "Provide a meal recommendation." ++ nl ++ nl ++ mealFormat
  | entertainment =>
      if isLiveArgument then
        "Based on the following key points from " ++ partner1Name ++ " and "
        ++ partner2Name ++ "'s entertainment discussion:" ++ nl ++
        "- " ++ partner1Name ++ ": " ++ partner1Transcription ++ nl ++
        "- " ++ partner2Name ++ ": "
        ++ orText partner2Transcription "No input provided" ++ nl ++ nl ++
        "Provide an entertainment recommendation." ++ nl ++ nl ++ showFormat
      else
        "Based on " ++ partner1Name ++ " and " ++ partner2Name
        ++ "'s separate entertainment preferences:" ++ nl ++
        "- " ++ partner1Name ++ ": " ++ partner1Transcription ++ nl ++
        "- " ++ partner2Name ++ ": "
        ++ orText partner2Transcription "No preferences provided"
        ++ nl ++ nl ++
        "Provide an entertainment recommendation." ++ nl ++ nl ++ showFormat
  | _ =>
      if isLiveArgument then
        "Analyze the following key points from a live argument between "
        ++ partner1Name ++ " and " ++ partner2Name ++ ":" ++ nl ++
        "- " ++ partner1Name ++ ": " ++ partner1Transcription ++ nl ++
        "- " ++ partner2Name ++ ": "
        ++ orText partner2Transcription "No input provided" ++ nl ++ nl ++
        "Provide an analysis." ++ nl ++ nl ++ analysisFormat mode
      else
        "Analyze the following perspectives from " ++ partner1Name ++ " and "
        ++ partner2Name ++ ":" ++ nl ++
        "- " ++ partner1Name ++ ": " ++ partner1Transcription ++ nl ++
        "- " ++ partner2Name ++ ": "
        ++ orText partner2Transcription "No perspective provided"
        ++ nl ++ nl ++
        "Provide an analysis." ++ nl ++ nl ++ analysisFormat mode
  end.

(** [SYSTEM_PROMPTS.general], [SYSTEM_PROMPTS.dinner] and
    [SYSTEM_PROMPTS.entertainment]. *)
Definition SYSTEM_PROMPTS_general : string :=
  "You are a direct and decisive relationship analyst. You will analyze disagreements between two partners. Start with a clear verdict, then provide actionable communication advice. Keep responses under 150 words.".

Definition SYSTEM_PROMPTS_dinner : string :=
  "You are a decisive meal planning assistant. You will be provided with food preferences or discussion points from two partners. Recommend a specific meal, starting with a clear verdict, and justify it. Keep responses under 150 words.".

Definition SYSTEM_PROMPTS_entertainment : string :=
  "You are a decisive entertainment recommender. You will be provided with entertainment preferences or discussion points from two partners. Recommend a specific show or movie, starting with a clear pick, and justify it. Keep responses under 150 words.".

(** The [systemPrompt] of [createAnalysisStream]: the general one, unless
    the branch of [dinner] or of [entertainment] replaces it. *)
Definition systemPrompt (mode : CounselingMode) : string :=
  match mode with
  | dinner => SYSTEM_PROMPTS_dinner
  | entertainment => SYSTEM_PROMPTS_entertainment
  | _ => SYSTEM_PROMPTS_general
  end.

End AiMarkdown.

(* ===================================================================== *)
(** * The revision of the analysis module with the plain format block:
      the prompt of [createAnalysisStream] *)
(* ===================================================================== *)

Module AiPlain.

Import Js.
Local Open Scope string_scope.

(** [${x ? `\n<label>: ${x}` : ''}]: the second transcript continues the
    first one, and nothing is rendered without it. *)
Definition continued (label : string) (x : option string) : string :=
  match x with
  | Some text => if truthy text then nl ++ label ++ ": " ++ text else ""
  | None => ""
  end.

Definition judgmentFormat (mode : CounselingMode) : string :=
  "FORMAT:" ++ nl ++
  "VERDICT: Start with a clear one-sentence judgment" ++ nl ++
  "KEY POINTS: 2-3 bullet points supporting your verdict" ++ nl ++
  match mode with
  | counselor => "ADVICE: 2 specific suggestions for better communication"
  | _ => "WINNER: One clear sentence declaring the winner and why"
  end.

(** The [analysisPrompt] that [createAnalysisStream] builds. *)
Definition analysisPrompt
    (mode : CounselingMode)
    (partner1Name partner2Name partner1Transcription : string)
    (partner2Transcription : option string)
    (isLiveArgument : bool) : string :=
  match mode with
  | dinner =>
      "Based on " ++ partner1Name ++ " and " ++ partner2Name ++ "'s "
      ++ (if isLiveArgument then "dinner discussion"
          else "separate food preferences") ++ ":" ++ nl ++ nl ++
      partner1Transcription ++ nl ++
      continued "Continued discussion" partner2Transcription ++ nl ++ nl ++
      "FORMAT:" ++ nl ++
      "VERDICT: Start with " ++ dq
      ++ "You should eat [specific recommendation]" ++ dq ++ nl ++
      "WHY: 2-3 bullet points explaining why" ++ nl ++
      "ALTERNATIVES: 1-2 backup options"
  | entertainment =>
      "Based on " ++ partner1Name ++ " and " ++ partner2Name
      ++ "'s discussion:" ++ nl ++ nl ++
      partner1Transcription ++ nl ++
      continued "Continued discussion" partner2Transcription ++ nl ++ nl ++
      "FORMAT:" ++ nl ++
      "VERDICT: Start with " ++ dq ++ "Watch [specific show/movie]" ++ dq
      ++ nl ++
      "WHY: 2-3 bullet points on why it's perfect" ++ nl ++
      "ALTERNATIVES: 1-2 backup recommendations"
  | _ =>
      if isLiveArgument then
        "Analyze this live argument between " ++ partner1Name ++ " and "
        ++ partner2Name ++ ":" ++ nl ++ nl ++
        partner1Transcription ++ nl ++
        continued "Continued argument" partner2Transcription ++ nl ++ nl ++
        judgmentFormat mode
      else
        "Analyze these perspectives from " ++ partner1Name ++ " and "
        ++ partner2Name ++ ":" ++ nl ++ nl ++
        partner1Name ++ "'s view: " ++ partner1Transcription ++ nl ++
        partner2Name ++ "'s view: "
        ++ AiMarkdown.orText partner2Transcription "No perspective provided"
        ++ nl ++ nl ++
        judgmentFormat mode
  end.

(** The [systemPrompt] of [createAnalysisStream]: the one it starts
    with, unless the branch of [dinner] or of [entertainment] replaces
    it. *)
Definition systemPrompt (mode : CounselingMode) : string :=
  match mode with
  | dinner =>
      "You are a decisive meal planning assistant. Always start with a clear recommendation. Be specific and concise, keeping responses under 150 words."
  | entertainment =>
      "You are a decisive entertainment recommender. Always start with a clear show/movie pick. Be specific and concise, keeping responses under 150 words."
  | _ =>
      "You are a direct and decisive relationship analyst. Always start with a clear verdict. Be concise, keeping responses under 150 words."
  end.

End AiPlain.

(* ===================================================================== *)
(** * The module [./ai] that index.ts imports: [createAnalysisStream]

    index.ts takes [createAnalysisStream] from [./ai].  Two revisions of
    that module are there, the one with the markdown format block and
    the one with the plain format block.  They differ in the system
    prompt and in the user prompt, and in nothing else: the request, the
    reading of the stream, the envelope, the completion callback and the
    catch-all are the same code. *)
(* ===================================================================== *)

Module Ai.

Import Js JsVal Eff.
Local Open Scope string_scope.
Local Open Scope eff_scope.

Inductive Revision : Type :=
  | markdown
  | plain.

(** The branch a [mode] takes.  [createAnalysisStream] compares [mode]
    with ["dinner"], ["entertainment"] and ["counselor"] and with nothing
    else, so every other value runs the code of the evaluator. *)
Definition branch (mode : string) : CounselingMode :=
  if String.eqb mode "dinner" then dinner
  else if String.eqb mode "entertainment" then entertainment
  else if String.eqb mode "counselor" then counselor
  else evaluator.

Definition systemPrompt (revision : Revision) (mode : CounselingMode)
  : string :=
  match revision with
  | markdown => AiMarkdown.systemPrompt mode
  | plain => AiPlain.systemPrompt mode
  end.

Definition analysisPrompt (revision : Revision) (mode : CounselingMode)
    (partner1Name partner2Name partner1Transcription : string)
    (partner2Transcription : option string)
    (isLiveArgument : bool) : string :=
  match revision with
  | markdown =>
      AiMarkdown.analysisPrompt mode partner1Name partner2Name
        partner1Transcription partner2Transcription isLiveArgument
  | plain =>
      AiPlain.analysisPrompt mode partner1Name partner2Name
        partner1Transcription partner2Transcription isLiveArgument
  end.

Section Adapter.

Context {St : Type}.
Variable revision : Revision.
Variable env : AiNew.Env.

(** The options as index.ts fills them: [mode] is the [data.mode] of the
    request body, a string that nothing has checked. *)
Record AnalysisStreamOptions : Type := {
  partner1Name : string;
  partner2Name : string;
  partner1Transcription : string;
  partner2Transcription : option string;
  mode : string;
  isLiveArgument : bool;
  sessionId : Z;
  onComplete : string -> M St unit
}.

Definition createAnalysisStream (options : AnalysisStreamOptions)
  : M (AiNew.World St) AiNew.AnalysisStreamResult :=
  tryCatch
    (let systemPrompt := systemPrompt revision (branch (mode options)) in
     let analysisPrompt :=
       analysisPrompt revision (branch (mode options))
         (partner1Name options) (partner2Name options)
         (partner1Transcription options) (partner2Transcription options)
         (isLiveArgument options) in
     result <-
       AiNew.callStreamText env
         (AiNew.requestFor (branch (mode options)) systemPrompt
            analysisPrompt);;
     fullResponse <-
       AiNew.accumulate "" (AiNew.chunks result) (AiNew.failure result);;
     let finalResponse :=
       AiNew.envelope fullResponse (AiNew.now_toISOString env) in
     AiNew.emit (AiNew.EvOnComplete finalResponse);;
     AiNew.onCaller (onComplete options finalResponse);;
     ret {| AiNew.aiResponse := fullResponse |})
    (fun error =>
       AiNew.emit (AiNew.EvConsoleError "[AI] Analysis error:" error);;
       throw (Error "Analysis failed. Please try again.")).

End Adapter.

(** The request a call of [createAnalysisStream] sends. *)
Definition streamRequest {St} (revision : Revision)
    (options : @AnalysisStreamOptions St) : AiNew.StreamTextArgs :=
  AiNew.requestFor (branch (mode options))
    (systemPrompt revision (branch (mode options)))
    (analysisPrompt revision (branch (mode options))
       (partner1Name options) (partner2Name options)
       (partner1Transcription options) (partner2Transcription options)
       (isLiveArgument options)).

End Ai.

(* ===================================================================== *)
(** * The transcription adapter: [retryWithBackoff], [transcribeAudio] *)
(* ===================================================================== *)

(** [console.log] and [console.error] only write diagnostics here and are
    left out, but for the one log line that can throw. *)
Module Transcribe.

Import Js JsVal Eff.
Local Open Scope string_scope.
Local Open Scope eff_scope.

(** The two temporary files of a call. *)
Inductive TmpFile : Type := WebmFile | WavFile.

(** The [Response] of [fetch], as far as the code reads it. *)
Record Response : Type := {
  ok : bool;
  status : Z;
  (** what [response.text()] gives; [response.json()] parses it *)
  body : string
}.

(** What the platform answers during one call of [transcribeAudio]. *)
Record Env : Type := {
  JSON_parse : string -> Thrown + JsValue;
  (** [writeFile(tempFile, audioBuffer)] *)
  writeFile : Thrown + unit;
  (** [stats.size] of the decoded file *)
  statTemp : Thrown + Z;
  (** [exec] of ffmpeg *)
  ffmpeg : Thrown + unit;
  (** [wavStats.size] *)
  statWav : Thrown + Z;
  (** [exec] of ffprobe, then [parseFloat(stdout.trim())] *)
  ffprobe : Thrown + float;
  (** [fs.promises.readFile(wavFile)] in the attempt of that index *)
  readWav : nat -> Thrown + unit;
  (** the answer of the speech-to-text endpoint in that attempt *)
  fetch : nat -> Thrown + Response
}.

Inductive Event : Type :=
  | EvWriteFile (f : TmpFile)
  | EvStat (f : TmpFile)
  | EvExec (tool : string)
  | EvReadFile (f : TmpFile)
  (** POST https://api.openai.com/v1/audio/transcriptions *)
  | EvFetch
  | EvSleep (ms : Z)
  | EvUnlink (f : TmpFile).

(** The locals [tempFile] and [wavFile], the number of calls of the
    upload closure so far, and the trace. *)
Record World : Type := {
  tempFile : option TmpFile;
  wavFile : option TmpFile;
  calls : nat;
  trace : list Event
}.

Definition emit (e : Event) : M World unit :=
  modify (fun w =>
    {| tempFile := tempFile w; wavFile := wavFile w; calls := calls w;
       trace := trace w ++ [e] |}).

(** [const sleep = (ms) => new Promise(resolve => setTimeout(resolve, ms))]. *)
Definition sleep (ms : Z) : M World unit := emit (EvSleep ms).

(** [error.message] of a caught value; reading it off [undefined] is a
    TypeError. *)
Definition messageOf (error : Thrown) : Thrown + string :=
  match error with
  | Error message => inr message
  | ThrownUndefined =>
      inl (Error "Cannot read properties of undefined (reading 'message')")
  end.

Section Retry.

Context {A : Type}.
Variable operation : M World A.
Variable initialDelay : Z.

(** The [for (let i = 0; i < maxRetries; i++)] of [retryWithBackoff],
    with [remaining = maxRetries - i] iterations to go. *)
Fixpoint retryLoop (remaining i : nat) (lastError : Thrown) : M World A :=
  match remaining with
  | O => throw lastError
  | S remaining' =>
      tryCatch operation
        (fun error =>
           message <- lift (messageOf error);;
           if includes message "insufficient_quota" then throw error
           else
             sleep (initialDelay * 2 ^ Z.of_nat i);;
             retryLoop remaining' (S i) error)
  end.

End Retry.

Definition retryWithBackoff {A} (operation : M World A)
    (maxRetries : nat) (initialDelay : Z) : M World A :=
  retryLoop operation initialDelay maxRetries 0 ThrownUndefined.

Definition quotaMessage : string :=
  "OpenAI API quota exceeded. Please check your billing status and ensure you have available credits.".

(** [String(n)] for an integer. *)
Definition showZ (n : Z) : string :=
  DecimalString.NilZero.string_of_int (Z.to_int n).

Section Adapter.

Variable env : Env.

(** The closure handed to [retryWithBackoff]: one upload. *)
Definition upload : M World string :=
  i <- gets calls;;
  modify (fun w =>
    {| tempFile := tempFile w; wavFile := wavFile w; calls := S (calls w);
       trace := trace w |});;
  emit (EvReadFile WavFile);;
  lift (readWav env i);;
  emit EvFetch;;
  response <- lift (fetch env i);;
  (if negb (ok response) then
     let errorText := body response in
     tryCatch
       (errorJson <- lift (JSON_parse env errorText);;
        errorJsonError <- lift (get errorJson "error");;
        match get_opt errorJsonError "type" with
        | JStr "insufficient_quota" => throw (Error quotaMessage)
        | _ =>
            throw (Error ("OpenAI API error: " ++
              toStr (or_else (get_opt errorJsonError "message")
                             (JStr errorText))))
        end)
       (fun e =>
          message <- lift (messageOf e);;
          if includes message "quota" then throw e
          else
            throw (Error ("OpenAI API error: " ++ showZ (status response)
                          ++ " " ++ errorText)))
   else ret tt);;
  result <- lift (JSON_parse env (body response));;
  resultText <- lift (get result "text");;
  if negb (truthyV resultText) then
    throw (Error "No transcription received from API")
  else
    let transcriptionResult :=
      stringify_object
        [ ("text", resultText);
          ("segments", get_opt result "segments");
          ("words", get_opt result "words") ] in
    (* the log line reads [result.text.substring(0, 100)] *)
    match resultText with
    | JStr _ => ret transcriptionResult
    | _ => throw (Error "result.text.substring is not a function")
    end.

(** [if (tempFile) fs.unlink(tempFile, () => {});
     if (wavFile) fs.unlink(wavFile, () => {});] *)
Definition cleanup : M World unit :=
  t <- gets tempFile;;
  match t with Some f => emit (EvUnlink f) | None => ret tt end;;
  w <- gets wavFile;;
  match w with Some f => emit (EvUnlink f) | None => ret tt end.

Definition transcribeAudio (audioBase64 : string) : M World string :=
  tryFinally
    (tryCatch
       ((if negb (truthy audioBase64) then
           throw (Error "No audio data provided")
         else ret tt);;
        modify (fun w =>
          {| tempFile := Some WebmFile; wavFile := Some WavFile;
             calls := calls w; trace := trace w |});;
        emit (EvWriteFile WebmFile);;
        lift (writeFile env);;
        emit (EvStat WebmFile);;
        size <- lift (statTemp env);;
        (if (size =? 0)%Z then throw (Error "Audio file is empty")
         else ret tt);;
        tryCatch
          (emit (EvExec "ffmpeg");;
           lift (ffmpeg env);;
           emit (EvStat WavFile);;
           _ <- lift (statWav env);;
           ret tt)
          (fun error =>
             message <- lift (messageOf error);;
             throw (Error ("Failed to convert audio format: " ++ message)));;
        tryCatch
          (emit (EvExec "ffprobe");;
           duration <- lift (ffprobe env);;
           if (duration <? 0.1)%float then
             throw (Error "Audio recording is too short. Please record for at least 1-2 seconds.")
           else ret tt)
          (fun error =>
             message <- lift (messageOf error);;
             throw (Error ("Failed to verify audio duration: " ++ message)));;
        retryWithBackoff upload 3 1000)
       (fun error => cleanup;; throw error))
    cleanup.

End Adapter.

(** The world a call starts in. *)
Definition initial : World :=
  {| tempFile := None; wavFile := None; calls := 0; trace := [] |}.

Definition fetches (t : list Event) : nat :=
  List.length (List.filter (fun e => match e with EvFetch => true | _ => false end) t).

Definition sleeps (t : list Event) : list Z :=
  flat_map (fun e => match e with EvSleep ms => [ms] | _ => [] end) t.

(** The steps of [transcribeAudio] before the duration check succeed:
    the input is not empty, the decoded file is written and is not
    empty, ffmpeg converts it. *)
Definition reachesProbe (env : Env) (audioBase64 : string) : Prop :=
  truthy audioBase64 = true
  /\ writeFile env = inr tt
  /\ (exists size, statTemp env = inr size /\ size <> 0%Z)
  /\ ffmpeg env = inr tt
  /\ (exists size, statWav env = inr size).

(** The quota-exhaustion signal of the speech-to-text endpoint: an answer
    that is not [ok] and whose body parses to
    [{ error: { type: 'insufficient_quota', ... } }]. *)
Definition quotaSignal (env : Env) (response : Response) : Prop :=
  ok response = false
  /\ exists errorJson errorJsonError,
       JSON_parse env (body response) = inr errorJson
       /\ get errorJson "error" = inr errorJsonError
       /\ get_opt errorJsonError "type" = JStr "insufficient_quota".

(** The events of a call up to the duration check. *)
Definition probeTrace : list Event :=
  [ EvWriteFile WebmFile; EvStat WebmFile; EvExec "ffmpeg"; EvStat WavFile;
    EvExec "ffprobe" ].

Definition probed : World :=
  {| tempFile := Some WebmFile; wavFile := Some WavFile; calls := 0;
     trace := probeTrace |}.

(** A computation that leaves the world as it is. *)
Definition quiet {A} (m : M World A) : Prop := forall w, snd (m w) = w.

(** The sleeps of [retryWithBackoff] in the order it takes them. *)
Definition backoff (initialDelay : Z) (i n : nat) : list Z :=
  map (fun k => initialDelay * 2 ^ Z.of_nat (i + k))%Z (seq 0 n).

(** An event that removes a file, the two removals of the cleanup, and
    a trace that removes nothing. *)
Definition isUnlink (e : Event) : bool :=
  match e with EvUnlink _ => true | _ => false end.

Definition unlinkBoth : list Event := [EvUnlink WebmFile; EvUnlink WavFile].

Definition keepsFiles (t : list Event) : bool :=
  forallb (fun e => negb (isUnlink e)) t.

(** What the upload of index [i] has seen when it returns [s]: the file
    was read, the answer was [ok], and its body parsed to an object whose
    [text] is a string that is not empty. *)
Definition accepted (env : Env) (i : nat) (s : string) : Prop :=
  exists response result text,
    readWav env i = inr tt
    /\ fetch env i = inr response
    /\ ok response = true
    /\ JSON_parse env (body response) = inr result
    /\ get result "text" = inr (JStr text)
    /\ text <> ""
    /\ s = stringify_object
             [ ("text", JStr text);
               ("segments", get_opt result "segments");
               ("words", get_opt result "words") ].

End Transcribe.

(* ===================================================================== *)
(** * The schema of a session (schema.ts) *)
(* ===================================================================== *)

Module Schema.

Import JsVal.

(** [typeof sessions.$inferSelect]: a row of the sessions table. *)
Record Session : Type := {
  id : Z;
  partner1Name : string;
  partner2Name : string;
  partner1Audio : string;
  partner2Audio : string;
  mode : string;
  aiResponse : option string;
  active : option bool;
  transcriptionData : option JsValue;
  isLiveArgument : option bool
}.

(** The picked columns of [insertSessionSchema]. *)
Module Insert.

Record InsertSession : Type := {
  partner1Name : string;
  partner2Name : string;
  partner1Audio : string;
  partner2Audio : string;
  mode : string;
  (** [boolean | null | undefined]; [None] is either of the last two *)
  isLiveArgument : option bool
}.

End Insert.

End Schema.

(* ===================================================================== *)
(** * The in-memory session store: [MemStorage] *)
(* ===================================================================== *)

Module Storage.

Import JsVal Eff Schema.

(** The fields of the class: [sessions: Map<number, Session>] and
    [currentId].  The counter counts in [Z]: it starts at 1 and a process
    stays far below 2^53, where a JavaScript number stops being exact. *)
Record MemStorage : Type := {
  sessions : gmap Z Session;
  currentId : Z
}.

(** [constructor()]. *)
Definition empty : MemStorage := {| sessions := ∅; currentId := 1 |}.

(** The [session] object that [createSession] builds for the id [id]. *)
Definition newSession (insertSession : Insert.InsertSession) (id : Z)
  : Session :=
  {| Schema.id := id;
     partner1Name := Insert.partner1Name insertSession;
     partner2Name := Insert.partner2Name insertSession;
     partner1Audio := Insert.partner1Audio insertSession;
     partner2Audio := Insert.partner2Audio insertSession;
     mode := Insert.mode insertSession;
     active := Some true;
     aiResponse := None;
     transcriptionData := None;
     isLiveArgument := Insert.isLiveArgument insertSession |}.

Definition createSession (insertSession : Insert.InsertSession)
  : M MemStorage Session :=
  fun this =>
    let id := currentId this in
    let session := newSession insertSession id in
    (inr session,
     {| sessions := <[id := session]> (sessions this);
        currentId := (currentId this + 1)%Z |}).

Definition getSession (id : Z) : M MemStorage (option Session) :=
  fun this => (inr (sessions this !! id), this).

Definition updateSessionResponse (id : Z) (aiResponse : string)
  : M MemStorage Session :=
  fun this =>
    match sessions this !! id with
    | None => (inl (Error "Session not found"), this)
    | Some session =>
        let updatedSession :=
          {| Schema.id := Schema.id session;
             partner1Name := partner1Name session;
             partner2Name := partner2Name session;
             partner1Audio := partner1Audio session;
             partner2Audio := partner2Audio session;
             mode := mode session;
             Schema.aiResponse := Some aiResponse;
             active := active session;
             transcriptionData := transcriptionData session;
             isLiveArgument := isLiveArgument session |} in
        (inr updatedSession,
         {| sessions := <[id := updatedSession]> (sessions this);
            currentId := currentId this |})
    end.

End Storage.

(* ===================================================================== *)
(** * The request router (index.ts): what it does to the store *)
(* ===================================================================== *)

Module Server.

Import Js JsVal Eff Schema Storage.
Local Open Scope string_scope.
Local Open Scope eff_scope.

(** The body of a [POST /api/sessions], as far as the handler reads it.
    The handler checks none of it; the fields are taken at the types of
    [InsertSession], at which the handler hands the body to
    [createSession], and there [mode] is any string. *)
Record SessionData : Type := {
  partner1Name : string;
  partner2Name : string;
  partner1Audio : string;
  partner2Audio : string;
  mode : string;
  isLiveArgument : bool
}.

(** [data] where [createSession] takes an [InsertSession]. *)
Definition asInsertSession (data : SessionData) : Insert.InsertSession :=
  {| Insert.partner1Name := partner1Name data;
     Insert.partner2Name := partner2Name data;
     Insert.partner1Audio := partner1Audio data;
     Insert.partner2Audio := partner2Audio data;
     Insert.mode := mode data;
     Insert.isLiveArgument := Some (isLiveArgument data) |}.

(** What the platform answers during one request: the outcome of the two
    transcriptions, and the environment of the analysis; and which
    revision of [./ai] the server runs with. *)
Record Env : Type := {
  transcribePartner1 : Thrown + string;
  transcribePartner2 : Thrown + string;
  ai : AiNew.Env;
  aiModule : Ai.Revision
}.

(** The object handed to [Response.json]. *)
Inductive Body : Type :=
  | BodyAnalysis (aiResponse : string) (sessionId : Z)
  | BodyError (error : string)
  | BodySession (session : Session).

Record HttpResponse : Type := { status : Z; body : Body }.

(** The options object the handler hands to [createAnalysisStream]; its
    completion callback writes the response into the session just
    created. *)
Definition analysisOptions (data : SessionData)
    (partner1Transcription : string) (partner2Transcription : option string)
    (session : Session) : @Ai.AnalysisStreamOptions MemStorage :=
  {| Ai.partner1Name := partner1Name data;
     Ai.partner2Name := partner2Name data;
     Ai.partner1Transcription := partner1Transcription;
     Ai.partner2Transcription := partner2Transcription;
     Ai.mode := mode data;
     Ai.isLiveArgument := isLiveArgument data;
     Ai.sessionId := id session;
     Ai.onComplete := fun response =>
       _ <- updateSessionResponse (id session) response;; ret tt |}.

(** The [try] of [POST /api/sessions] behind the subscription check:
    transcription, [createSession], the analysis by the
    [createAnalysisStream] of [./ai] with its completion callback, the
    answer. *)
Definition postSessions (env : Env) (data : SessionData)
  : M (AiNew.World MemStorage) HttpResponse :=
  tryCatch
    (partner1Transcription <- lift (transcribePartner1 env);;
     partner2Transcription <-
       (if negb (isLiveArgument data) && truthy (partner2Audio data) then
          t <- lift (transcribePartner2 env);; ret (Some t)
        else ret None);;
     session <- AiNew.onCaller (createSession (asInsertSession data));;
     result <-
       Ai.createAnalysisStream (aiModule env) (ai env)
         (analysisOptions data partner1Transcription partner2Transcription
            session);;
     ret {| status := 200;
            body := BodyAnalysis (AiNew.aiResponse result) (id session) |})
    (fun error =>
       let message :=
         match error with
         | Error m => if truthy m then m else "Failed to process audio"
         | ThrownUndefined =>
             (* [error.message] throws, and the outer [catch] answers *)
             "Cannot read properties of undefined (reading 'message')"
         end in
       ret {| status := 500; body := BodyError message |}).


(** ** Requests in flight

    A request suspends at each [await], and the requests of other clients
    run in between.  What the store sees of all of them is a sequence of
    its three operations: a [POST /api/sessions] creates its session and,
    when its analysis completes, updates that session through its
    completion callback; when the analysis fails it updates nothing.
    [pending] holds the sessions whose analysis is still running. *)
Record Pipeline : Type := {
  store : MemStorage;
  pending : gset Z
}.


Inductive step : Pipeline -> Pipeline -> Prop :=
  | step_create (p : Pipeline) (data : SessionData) session store' :
      createSession (asInsertSession data) (store p) = (inr session, store') ->
      step p {| store := store'; pending := {[ id session ]} ∪ pending p |}
  | step_complete (p : Pipeline) (sid : Z) (response : string) session store' :
      sid ∈ pending p ->
      updateSessionResponse sid response (store p) = (inr session, store') ->
      step p {| store := store'; pending := pending p ∖ {[ sid ]} |}
  | step_fail (p : Pipeline) (sid : Z) :
      sid ∈ pending p ->
      step p {| store := store p; pending := pending p ∖ {[ sid ]} |}
  | step_get (p : Pipeline) (sid : Z) found store' :
      getSession sid (store p) = (inr found, store') ->
      step p {| store := store'; pending := pending p |}.


(** What holds of every state the router reaches: an id the store holds
    is below the counter, and a session whose analysis is still running
    has no response yet. *)
Definition consistent (p : Pipeline) : Prop :=
  (forall sid s, sessions (store p) !! sid = Some s ->
                 (sid < currentId (store p))%Z)
  /\ (forall sid, sid ∈ pending p ->
        exists s, sessions (store p) !! sid = Some s
                  /\ aiResponse s = None).





(** A caught error as the handler answers it. *)
Definition processingError (error : Thrown) : HttpResponse :=
  {| status := 500;
     body := BodyError
       match error with
       | Error m => if truthy m then m else "Failed to process audio"
       | ThrownUndefined =>
           "Cannot read properties of undefined (reading 'message')"
       end |}.

(** The request of a [POST /api/sessions] whose recordings were
    transcribed to [partner1Transcription] and [partner2Transcription],
    under a revision of [./ai]: the system prompt and the user prompt of
    that revision for the branch the [mode] of the body takes. *)
Definition analysisRequest (revision : Ai.Revision) (data : SessionData)
    (partner1Transcription : string) (partner2Transcription : option string)
  : AiNew.StreamTextArgs :=
  AiNew.requestFor (Ai.branch (mode data))
    (Ai.systemPrompt revision (Ai.branch (mode data)))
    (Ai.analysisPrompt revision (Ai.branch (mode data))
       (partner1Name data) (partner2Name data)
       partner1Transcription partner2Transcription (isLiveArgument data)).

(** The platform of a request whose two recordings go through
    [transcribeAudio], each call with its own answers of the platform. *)
Definition processingEnv (first second : Transcribe.Env)
    (analysis : AiNew.Env) (revision : Ai.Revision) (data : SessionData)
  : Env :=
  {| transcribePartner1 :=
       fst (Transcribe.transcribeAudio first (partner1Audio data)
              Transcribe.initial);
     transcribePartner2 :=
       fst (Transcribe.transcribeAudio second (partner2Audio data)
              Transcribe.initial);
     ai := analysis;
     aiModule := revision |}.

(** The content of the user message of a request. *)
Definition userPrompt (args : AiNew.StreamTextArgs) : string :=
  match AiNew.messages args with
  | [_; message] => AiNew.content message
  | _ => ""
  end.

End Server.

(* ===================================================================== *)
(** * server/src/subscription.ts: [validateSubscription] *)
(* ===================================================================== *)

Module Subscription.

Import Js JsVal Eff.
Local Open Scope string_scope.
Local Open Scope eff_scope.

(** [typeof subscriptions.$inferSelect]: a row of the subscriptions table.
    A timestamp is carried as its time value, in milliseconds. *)
Record Subscription : Type := {
  id : Z;
  email : string;
  stripeCustomerId : string;
  stripePriceId : string;
  active : option bool;
  createdAt : option Z;
  expiresAt : option Z
}.

(** The table, its rows in the order a [select] returns them. *)
Definition Table : Type := list Subscription.

(** What the platform answers during one call: the time value of
    [new Date()], and whether the two queries are rejected. *)
Record Env : Type := {
  now : Z;
  selectFailure : option Thrown;
  updateFailure : option Thrown
}.

(** [and(eq(subscriptions.email, email), eq(subscriptions.active, true))]. *)
Definition matches (address : string) (row : Subscription) : bool :=
  String.eqb (email row) address
  && match active row with Some true => true | _ => false end.

(** [.set({ active: false })] on a row. *)
Definition deactivated (row : Subscription) : Subscription :=
  {| id := id row; email := email row;
     stripeCustomerId := stripeCustomerId row;
     stripePriceId := stripePriceId row;
     active := Some false;
     createdAt := createdAt row; expiresAt := expiresAt row |}.

(** [db.update(subscriptions).set({ active: false })
       .where(eq(subscriptions.id, key))]. *)
Definition deactivate (key : Z) (db : Table) : Table :=
  map (fun row => if (id row =? key)%Z then deactivated row else row) db.

Definition query (failure : option Thrown) : M Table unit :=
  match failure with
  | Some e => throw e
  | None => ret tt
  end.

Definition validateSubscription (env : Env) (address : string)
  : M Table bool :=
  query (selectFailure env);;
  rows <- gets (List.filter (matches address));;
  match rows with
  | [] => ret false
  | subscription :: _ =>
      match expiresAt subscription with
      | Some expiry =>
          if (expiry <? now env)%Z then
            query (updateFailure env);;
            modify (deactivate (id subscription));;
            ret false
          else ret true
      | None => ret true
      end
  end.

(** A row and what a call for [address] has made of it: the same row,
    or a row of that address that was active and had expired, switched
    off. *)
Definition sameOrOff (env : Env) (address : string)
    (before after : Subscription) : Prop :=
  after = before
  \/ (matches address before = true
      /\ (exists expiry, expiresAt before = Some expiry
                         /\ (expiry < now env)%Z)
      /\ after = deactivated before).

End Subscription.

(* ===================================================================== *)
(** * The request router (index.ts): the subscription check of
      [POST /api/sessions] *)
(* ===================================================================== *)

Module Router.

Import Js JsVal Eff Schema Storage Server.
Local Open Scope string_scope.
Local Open Scope eff_scope.

(** What the platform answers during one [POST /api/sessions]:
    [process.env.NODE_ENV === 'development'], the answers to
    [validateSubscription], and those to the processing. *)
Record Env : Type := {
  isDevelopment : bool;
  subscriptions : Subscription.Env;
  processing : Server.Env
}.








End Router.

(* ===================================================================== *)
(** * The display of an analysis (the client's ResponseDisplay): the
      sections of a response *)
(* ===================================================================== *)

Module ResponseDisplay.

Import Js.
Local Open Scope string_scope.

(** [response.split('\n')]. *)
Fixpoint split_lines (response : string) : list string :=
  match response with
  | EmptyString => [""]
  | String c rest =>
      if Ascii.eqb c "010" then "" :: split_lines rest
      else
        match split_lines rest with
        | line :: lines => String c line :: lines
        | [] => [String c ""]
        end
  end.

(** The test of the [if]: the trimmed line starts with one of the six
    header markers. *)
Definition isHeader (trimmed : string) : bool :=
  String.prefix "VERDICT:" trimmed
  || String.prefix "WHY:" trimmed
  || String.prefix "ALTERNATIVES:" trimmed
  || String.prefix "KEY POINTS:" trimmed
  || String.prefix "ADVICE:" trimmed
  || String.prefix "WINNER:" trimmed.

Section Sections.

(** [String.prototype.trim], which the platform provides. *)
Variable trim : string -> string.

(** The function handed to [reduce]. *)
Definition addLine (acc : list (list string)) (line : string)
  : list (list string) :=
  if isHeader (trim line) then (acc ++ [[trim line]])%list
  else if truthy (trim line) && (0 <? List.length acc)%nat then
    (List.removelast acc ++ [(List.last acc [] ++ [trim line])%list])%list
  else acc.

(** [const sections = response.split('\n').reduce(..., [])]. *)
Definition sections (response : string) : list (list string) :=
  fold_left addLine (split_lines response) [].

End Sections.

(** The lines from the first header on. *)
Fixpoint fromFirstHeader (lines : list string) : list string :=
  match lines with
  | [] => []
  | line :: rest =>
      if isHeader line then line :: rest else fromFirstHeader rest
  end.

(** A section: a header, then lines that are no header and not empty. *)
Definition wellFormed (section : list string) : Prop :=
  match section with
  | [] => False
  | header :: body =>
      isHeader header = true
      /\ Forall (fun line => isHeader line = false /\ truthy line = true) body
  end.

End ResponseDisplay.

(* ===================================================================== *)
(** * The vocabulary of the statements about prompts *)
(* ===================================================================== *)

Module PromptSpec.

Import Js.
Local Open Scope string_scope.

(** The text that stands in for a second transcript that is missing, in
    the three revisions of the analysis module. *)
Definition placeholders : list string :=
  [ "No input provided"; "No preferences provided";
    "No perspective provided" ].

Definition renders_placeholder (prompt : string) : bool :=
  existsb (includes prompt) placeholders.

(** From the specification: the required output section of a user
    prompt has the literal field names VERDICT, then WHY or KEY POINTS,
    then ALTERNATIVES, ADVICE or WINNER, depending on the mode.  VERDICT
    has no alternative, so it is mandated for every mode.  For [dinner]
    the specification names VERDICT, WHY and ALTERNATIVES, and
    [entertainment] is the other recommendation; KEY POINTS goes with
    ADVICE for the counselor, who advises, and with WINNER for the
    evaluator, who picks one. *)
Definition mandated_headers (mode : CounselingMode) : list string :=
  match mode with
  | dinner | entertainment => ["VERDICT"; "WHY"; "ALTERNATIVES"]
  | counselor => ["VERDICT"; "KEY POINTS"; "ADVICE"]
  | evaluator => ["VERDICT"; "KEY POINTS"; "WINNER"]
  end.

(** The placeholder the markdown revision renders in each branch. *)
Definition markdownPlaceholder (mode : CounselingMode) (isLiveArgument : bool)
  : string :=
  if isLiveArgument then "No input provided"
  else
    match mode with
    | dinner | entertainment => "No preferences provided"
    | _ => "No perspective provided"
    end.

End PromptSpec.

(* ===================================================================== *)
(** * Sample calls *)
(* ===================================================================== *)

Module Samples.

Import Js JsVal Eff.
Local Open Scope string_scope.

(** A transcript as [transcribeAudio] returns it, and its parse. *)
Definition transcriptJson : string :=
  "{" ++ dq ++ "text" ++ dq ++ ":" ++ dq ++ "I like pasta and Italian food"
  ++ dq ++ "}".

Definition transcript : JsValue :=
  JObj [ ("text", JStr "I like pasta and Italian food") ].

Definition parseTranscript (s : string) : Thrown + JsValue :=
  if String.eqb s transcriptJson then inr transcript
  else inl (Error "Unexpected token")%string.

(** A platform whose text stream yields [deltas] and ends, at a fixed
    time. *)
Definition aiEnv (deltas : list string) : AiNew.Env :=
  {| AiNew.JSON_parse := parseTranscript;
     AiNew.streamText := fun _ =>
       inr {| AiNew.chunks := deltas; AiNew.failure := None |};
     AiNew.now_toISOString := "2025-03-01T12:00:00.000Z" |}.

(** The call of the test "should handle missing partner2 transcription",
    with a callback that writes into the session store. *)
Definition dinnerOptions (sessionId : Z)
  : @AiNew.AnalysisStreamOptions Storage.MemStorage :=
  {| AiNew.partner1Name := "Alice";
     AiNew.partner2Name := "Bob";
     AiNew.partner1Transcription := "I like pasta and Italian food";
     AiNew.partner2Transcription := None;
     AiNew.mode := dinner;
     AiNew.isLiveArgument := false;
     AiNew.sessionId := sessionId;
     AiNew.onComplete := fun response =>
       bind (Storage.updateSessionResponse sessionId response)
            (fun _ => ret tt) |}.

Definition aliceAndBob : Schema.Insert.InsertSession :=
  {| Schema.Insert.partner1Name := "Alice";
     Schema.Insert.partner2Name := "Bob";
     Schema.Insert.partner1Audio := "UklGRg==";
     Schema.Insert.partner2Audio := "UklGRg==";
     Schema.Insert.mode := "dinner";
     Schema.Insert.isLiveArgument := Some false |}.

(** A store that holds one session, with id 1. *)
Definition oneSession : Storage.MemStorage :=
  snd (Storage.createSession aliceAndBob Storage.empty).

(** The session it holds. *)
Definition firstSession : Schema.Session :=
  {| Schema.id := 1;
     Schema.partner1Name := "Alice";
     Schema.partner2Name := "Bob";
     Schema.partner1Audio := "UklGRg==";
     Schema.partner2Audio := "UklGRg==";
     Schema.mode := "dinner";
     Schema.aiResponse := None;
     Schema.active := Some true;
     Schema.transcriptionData := None;
     Schema.isLiveArgument := Some false |}.

(** The body of the answer 429 of the speech-to-text endpoint to an
    account out of quota, and its parse. *)
Definition quotaBody : string :=
  "{" ++ dq ++ "error" ++ dq ++ ":{" ++ dq ++ "message" ++ dq ++ ":" ++ dq
  ++ "You exceeded your current quota" ++ dq ++ "," ++ dq ++ "type" ++ dq
  ++ ":" ++ dq ++ "insufficient_quota" ++ dq ++ "}}".

Definition parseBody (s : string) : Thrown + JsValue :=
  if String.eqb s quotaBody then
    inr (JObj [ ("error",
                 JObj [ ("message", JStr "You exceeded your current quota");
                        ("type", JStr "insufficient_quota") ]) ])
  else inl (Error "Unexpected token")%string.

(** A recording of [duration] seconds that decodes and converts, sent to
    an endpoint that answers every upload with the quota signal. *)
Definition quotaEnv (duration : float) : Transcribe.Env :=
  {| Transcribe.JSON_parse := parseBody;
     Transcribe.writeFile := inr tt;
     Transcribe.statTemp := inr 4096%Z;
     Transcribe.ffmpeg := inr tt;
     Transcribe.statWav := inr 64044%Z;
     Transcribe.ffprobe := inr duration;
     Transcribe.readWav := fun _ => inr tt;
     Transcribe.fetch := fun _ =>
       inr {| Transcribe.ok := false; Transcribe.status := 429;
              Transcribe.body := quotaBody |} |}.

(** The body of a [POST /api/sessions] of Alice and Bob. *)
Definition dinnerData : Server.SessionData :=
  {| Server.partner1Name := "Alice";
     Server.partner2Name := "Bob";
     Server.partner1Audio := "UklGRg==";
     Server.partner2Audio := "UklGRg==";
     Server.mode := "dinner";
     Server.isLiveArgument := false |}.


Definition completed1 : Server.Pipeline :=
  {| Server.store := snd (Storage.updateSessionResponse 1 "Pizza" oneSession);
     Server.pending := ({[ 1%Z ]} ∪ ∅) ∖ {[ 1%Z ]} |}.

Definition created2 : Server.Pipeline :=
  {| Server.store :=
       snd (Storage.createSession aliceAndBob (Server.store completed1));
     Server.pending := {[ 2%Z ]} ∪ Server.pending completed1 |}.


(** A recording of 2.5 seconds whose first upload fails in the network
    and whose second upload is answered with the transcript. *)
Definition flakyEnv : Transcribe.Env :=
  {| Transcribe.JSON_parse := parseTranscript;
     Transcribe.writeFile := inr tt;
     Transcribe.statTemp := inr 4096%Z;
     Transcribe.ffmpeg := inr tt;
     Transcribe.statWav := inr 64044%Z;
     Transcribe.ffprobe := inr 2.5%float;
     Transcribe.readWav := fun _ => inr tt;
     Transcribe.fetch := fun i =>
       match i with
       | O => inl (Error "fetch failed")
       | S _ =>
           inr {| Transcribe.ok := true; Transcribe.status := 200;
                  Transcribe.body := transcriptJson |}
       end |}.

(** The body of the answer 400 to a file the endpoint cannot read, and
    its parse. *)
Definition invalidBody : string :=
  "{" ++ dq ++ "error" ++ dq ++ ":{" ++ dq ++ "message" ++ dq ++ ":" ++ dq
  ++ "Invalid file format." ++ dq ++ "," ++ dq ++ "type" ++ dq
  ++ ":" ++ dq ++ "invalid_request_error" ++ dq ++ "}}".

Definition invalidJson : JsValue :=
  JObj [ ("error",
          JObj [ ("message", JStr "Invalid file format.");
                 ("type", JStr "invalid_request_error") ]) ].

Definition invalidResponse : Transcribe.Response :=
  {| Transcribe.ok := false; Transcribe.status := 400;
     Transcribe.body := invalidBody |}.

Definition invalidEnv : Transcribe.Env :=
  {| Transcribe.JSON_parse := fun s =>
       if String.eqb s invalidBody then inr invalidJson
       else inl (Error "Unexpected token");
     Transcribe.writeFile := inr tt;
     Transcribe.statTemp := inr 4096%Z;
     Transcribe.ffmpeg := inr tt;
     Transcribe.statWav := inr 64044%Z;
     Transcribe.ffprobe := inr 2.5%float;
     Transcribe.readWav := fun _ => inr tt;
     Transcribe.fetch := fun _ => inr invalidResponse |}.

(** An upload that fails in the network, whatever the world. *)
Definition networkDown : Eff.M Transcribe.World string :=
  fun w =>
    (inl (Error "fetch failed"),
     {| Transcribe.tempFile := Transcribe.tempFile w;
        Transcribe.wavFile := Transcribe.wavFile w;
        Transcribe.calls := S (Transcribe.calls w);
        Transcribe.trace := Transcribe.trace w |}).

(** A subscriptions table: the subscription of Alice ran out in
    December 2023, that of Bob has no end. *)
Definition lapsed : Subscription.Subscription :=
  {| Subscription.id := 1;
     Subscription.email := "alice@example.com";
     Subscription.stripeCustomerId := "cus_alice";
     Subscription.stripePriceId := "price_H5ggYwtDq4fbrJ";
     Subscription.active := Some true;
     Subscription.createdAt := Some 1700000000000%Z;
     Subscription.expiresAt := Some 1702592000000%Z |}.

Definition unlimited : Subscription.Subscription :=
  {| Subscription.id := 2;
     Subscription.email := "bob@example.com";
     Subscription.stripeCustomerId := "cus_bob";
     Subscription.stripePriceId := "price_H5ggYwtDq4fbrJ";
     Subscription.active := Some true;
     Subscription.createdAt := Some 1700000000000%Z;
     Subscription.expiresAt := None |}.

Definition subscribers : Subscription.Table := [lapsed; unlimited].

(** A database that answers, at the time [now]. *)
Definition clock (now : Z) : Subscription.Env :=
  {| Subscription.now := now;
     Subscription.selectFailure := None;
     Subscription.updateFailure := None |}.

End Samples.

(* ===================================================================== *)
(** * Runs of the session store *)
(* ===================================================================== *)

Module StorageRuns.

Import Schema Storage.

(** A call of one of the three methods of [MemStorage]. *)
Inductive Call : Type :=
  | CallCreate (insertSession : Insert.InsertSession)
  | CallGet (id : Z)
  | CallUpdate (id : Z) (aiResponse : string).

(** The store after a call, whether it returns or throws. *)
Definition after (call : Call) (this : MemStorage) : MemStorage :=
  match call with
  | CallCreate insertSession => snd (createSession insertSession this)
  | CallGet id => snd (getSession id this)
  | CallUpdate id aiResponse => snd (updateSessionResponse id aiResponse this)
  end.

(** The store after a sequence of calls on a new [MemStorage]. *)
Definition afterAll (calls : list Call) : MemStorage :=
  fold_left (fun this call => after call this) calls Storage.empty.

(** The ids the store holds are those below the counter, from 1 on, and
    a session sits under its own id. *)
Definition dense (this : MemStorage) : Prop :=
  (1 <= currentId this)%Z
  /\ (forall k, is_Some (sessions this !! k) <-> (1 <= k < currentId this)%Z)
  /\ (forall k s, sessions this !! k = Some s -> Schema.id s = k).

End StorageRuns.

(* ===================================================================== *)
(** * Properties *)
(* ===================================================================== *)

(** ** Strings *)

Module JsFacts.

Import Js.
Local Open Scope string_scope.

Lemma prefix_app (n b : string) : String.prefix n (n ++ b) = true.
Proof.
  induction n as [|c n IH]; simpl.
  - now destruct b.
  - destruct (ascii_dec c c) as [_|Hne]; [exact IH | now elim Hne].
Qed.

Lemma includes_prefix (hay n : string) :
  String.prefix n hay = true -> includes hay n = true.
Proof. intros H. destruct hay; cbn [includes]; rewrite H; reflexivity. Qed.

Lemma includes_here (n b : string) : includes (n ++ b) n = true.
Proof. apply includes_prefix, prefix_app. Qed.

Lemma includes_app_r (a b n : string) :
  includes b n = true -> includes (a ++ b) n = true.
Proof.
  intros H. induction a as [|c a IH]; simpl.
  - exact H.
  - rewrite IH. apply orb_true_r.
Qed.

Lemma prefix_app_l (a b n : string) :
  String.prefix n a = true -> String.prefix n (a ++ b) = true.
Proof.
  revert a. induction n as [|c n IH]; intros a H.
  - now destruct (a ++ b).
  - destruct a as [|d a]; simpl in *; [discriminate|].
    destruct (ascii_dec c d); [now apply IH | discriminate].
Qed.

Lemma includes_app_l (a b n : string) :
  includes a n = true -> includes (a ++ b) n = true.
Proof.
  induction a as [|c a IH]; intros H; cbn [includes] in H.
  - rewrite orb_false_r in H. destruct n; [|discriminate].
    apply includes_prefix. now destruct b.
  - change (String c a ++ b) with (String c (a ++ b)). cbn [includes].
    apply orb_true_iff in H as [H|H].
    + change (String c (a ++ b)) with (String c a ++ b).
      rewrite (prefix_app_l _ b n H). reflexivity.
    + rewrite (IH H). apply orb_true_r.
Qed.

Lemma append_cons (c : ascii) (s t : string) :
  String c s ++ t = String c (s ++ t).
Proof. reflexivity. Qed.

Lemma append_empty_r (s : string) : s ++ "" = s.
Proof.
  induction s as [|c s IH]; [reflexivity | now rewrite append_cons, IH].
Qed.

Lemma append_assoc (a b c : string) : (a ++ b) ++ c = a ++ b ++ c.
Proof.
  induction a as [|x a IH]; [reflexivity | now rewrite !append_cons, IH].
Qed.

Lemma concat_chunks_app (acc : string) (chunks : list string) :
  concat_chunks acc chunks = acc ++ concat_chunks "" chunks.
Proof.
  revert acc. induction chunks as [|d rest IH]; intros acc; simpl.
  - now rewrite append_empty_r.
  - change ("" ++ d) with d. rewrite IH, (IH d). apply append_assoc.
Qed.

Lemma includes_split (s a n b : string) :
  s = a ++ n ++ b -> includes s n = true.
Proof. intros ->. apply includes_app_r, includes_here. Qed.

Lemma truthy_opt_false (o : option string) :
  truthy_opt o = false -> o = None \/ o = Some "".
Proof.
  destruct o as [[|c s]|]; simpl; intros H;
    [now right | discriminate | now left].
Qed.

Lemma append_empty_l (s : string) : "" ++ s = s.
Proof. reflexivity. Qed.

Lemma prefix_refl (n : string) : String.prefix n n = true.
Proof. rewrite <- (append_empty_r n) at 2. apply prefix_app. Qed.

Lemma prefix_cons_app (x n h : string) :
  String.prefix n h = true -> String.prefix (x ++ n) (x ++ h) = true.
Proof.
  intros H. induction x as [|c x IH]; [exact H|].
  rewrite !append_cons. cbn [String.prefix].
  destruct (ascii_dec c c) as [_|Hne]; [exact IH | now elim Hne].
Qed.

End JsFacts.

(** Closes a goal [includes s n = true] where [s] is a chain of appends
    whose literal part holds [n]. *)
Ltac solve_includes :=
  repeat first
    [ vm_compute; reflexivity
    | apply JsFacts.includes_here
    | apply JsFacts.includes_app_r ].

(** Closes a goal [includes s n = true] where [s] and [n] are chains of
    appends and the pieces of [n] are consecutive pieces of [s]. *)
Ltac solve_prefix :=
  repeat first
    [ apply JsFacts.prefix_refl
    | apply JsFacts.prefix_app
    | apply JsFacts.prefix_cons_app ].

Ltac solve_includes_pieces :=
  rewrite ?JsFacts.append_assoc, ?JsFacts.append_empty_l;
  repeat first
    [ apply JsFacts.includes_prefix; solve [solve_prefix]
    | apply JsFacts.includes_app_r ].

(** ** The prompt builder of ai_new.ts *)

Module AiNewFacts.

Import Js JsFacts AiNew PromptSpec.
Local Open Scope string_scope.

(** The end-to-end example of the specification. *)
Example getUserPrompt_dinner_separate :
  getUserPrompt dinner "Alice" "Bob" "I like Italian food"
    (Some "I prefer Thai food") false
  = "Based on their food preferences:" ++ nl ++
    "- Alice: I like Italian food" ++ nl ++
    "- Bob: I prefer Thai food" ++ nl ++ nl ++
    "**FORMAT**:" ++ nl ++
    "- **VERDICT**: 'You should eat [specific recommendation]'" ++ nl ++
    "- **WHY**: 2-3 bullet points explaining the choice" ++ nl ++
    "- **ALTERNATIVES**: 1-2 backup options".
Proof. reflexivity. Qed.

(** C8.  The section headers mandated for a mode, and the user prompt
    of the prompt builder.  For [dinner] and for [entertainment], and for
    both values of [isLiveArgument], the prompt contains the three
    mandated headers VERDICT, WHY and ALTERNATIVES, whatever the names
    and the texts are.  For the other two modes it does not, for either
    value of [isLiveArgument]: the prompt for a counselor on the argument
    of Alice and Bob contains none of VERDICT, KEY POINTS and ADVICE, and
    the prompt for an evaluator contains WINNER but neither VERDICT nor
    KEY POINTS. *)
Theorem getUserPrompt_mandated_headers :
  (forall (isLiveArgument : bool)
          (partner1Name partner2Name partner1Text : string)
          (partner2Text : option string),
      Forall
        (fun header =>
           includes
             (getUserPrompt dinner partner1Name partner2Name partner1Text
                partner2Text isLiveArgument) header = true)
        (mandated_headers dinner))
  /\ (forall (isLiveArgument : bool)
             (partner1Name partner2Name partner1Text : string)
             (partner2Text : option string),
         Forall
           (fun header =>
              includes
                (getUserPrompt entertainment partner1Name partner2Name
                   partner1Text partner2Text isLiveArgument) header = true)
           (mandated_headers entertainment))
  /\ (forall isLiveArgument : bool,
         map
           (includes
              (getUserPrompt counselor "Alice" "Bob" "You never listen"
                 (Some "You never ask") isLiveArgument))
           (mandated_headers counselor)
         = [false; false; false])
  /\ (forall isLiveArgument : bool,
         map
           (includes
              (getUserPrompt evaluator "Alice" "Bob" "You never listen"
                 (Some "You never ask") isLiveArgument))
           (mandated_headers evaluator)
         = [false; false; true]).
Proof.
  split; [|split; [|split]].
  - intros isLive n1 n2 t1 t2. unfold getUserPrompt.
    cbn [mandated_headers]. repeat constructor; solve_includes.
  - intros isLive n1 n2 t1 t2. unfold getUserPrompt.
    cbn [mandated_headers]. repeat constructor; solve_includes.
  - intros []; vm_compute; reflexivity.
  - intros []; vm_compute; reflexivity.
Qed.

(** The format block of the counselor and evaluator modes has its own
    headers: KEY INSIGHTS and RESOLUTION, WINNER and WHY.  It names
    neither VERDICT nor KEY POINTS nor ADVICE, the headers of the other
    revisions of the module and the ones the tests of this one look for
    in the answer of a counselor. *)
Example counselor_and_evaluator_headers :
  map (includes (format counselor))
    ["KEY INSIGHTS"; "RESOLUTION"; "VERDICT"; "KEY POINTS"; "ADVICE"]
  = [true; true; false; false; false]
  /\ map (includes (format evaluator))
       ["WINNER"; "WHY"; "VERDICT"; "KEY POINTS"; "ADVICE"]
     = [true; true; false; false; false].
Proof. split; reflexivity. Qed.

(** The header is there because the prompt ends in the format block,
    whatever the partners said. *)
Lemma getUserPrompt_ends_in_format :
  forall mode isLiveArgument partner1Name partner2Name partner1Text
         partner2Text,
  exists body,
    getUserPrompt mode partner1Name partner2Name partner1Text partner2Text
      isLiveArgument = body ++ format mode.
Proof.
  intros. unfold getUserPrompt. eexists.
  rewrite <- !append_assoc. reflexivity.
Qed.

(** On texts that are strings, and on a second text that is [null],
    [analyzeConflict] gets the prompt of the signature of
    [getUserPrompt]. *)
Lemma getUserPromptOfValues_strings :
  forall mode isLiveArgument partner1Name partner2Name partner1Text
         partner2Text,
    getUserPromptOfValues mode partner1Name partner2Name
      (JsVal.JStr partner1Text)
      match partner2Text with
      | Some text => JsVal.JStr text
      | None => JsVal.JNull
      end isLiveArgument
    = getUserPrompt mode partner1Name partner2Name partner1Text
        partner2Text isLiveArgument.
Proof. intros mode isLive n1 n2 t1 [t2|]; reflexivity. Qed.

(** A second text that is truthy and renders as the empty string, an
    empty array, gets its line with nothing behind the name; no
    placeholder is rendered for it. *)
Example getUserPromptOfValues_empty_array :
  getUserPromptOfValues dinner "Alice" "Bob" (JsVal.JStr "I like Italian food")
    (JsVal.JArr []) false
  = "Based on their food preferences:" ++ nl ++
    "- Alice: I like Italian food" ++ nl ++
    "- Bob: " ++ nl ++ format dinner.
Proof. reflexivity. Qed.

(** Without a second transcript, [getUserPrompt] renders the line of the
    second partner with its placeholder. *)
Lemma getUserPrompt_placeholder :
  forall mode isLiveArgument partner1Name partner2Name partner1Text
         partner2Text,
    truthy_opt partner2Text = false ->
    includes
      (getUserPrompt mode partner1Name partner2Name partner1Text
         partner2Text isLiveArgument)
      (nl ++ "- " ++ partner2Name ++ ": No input provided" ++ nl) = true.
Proof.
  intros mode isLive n1 n2 t1 t2 H.
  apply includes_split with
    (a := (if isLive then live (INTRO_TEXT mode)
           else separate (INTRO_TEXT mode)) ++ nl ++ "- " ++ n1 ++ ": " ++ t1)
    (b := format mode).
  unfold getUserPrompt.
  destruct (truthy_opt_false _ H) as [-> | ->]; cbn [truthy];
    rewrite !append_assoc; reflexivity.
Qed.

End AiNewFacts.

(** ** The prompts of the other revisions *)

Module PromptRevisionsFacts.

Import Js JsFacts PromptSpec.
Local Open Scope string_scope.

(** The markdown revision renders a placeholder in every branch. *)
Lemma markdown_analysisPrompt_placeholder :
  forall mode isLiveArgument partner1Name partner2Name partner1Transcription
         partner2Transcription,
    truthy_opt partner2Transcription = false ->
    includes
      (AiMarkdown.analysisPrompt mode partner1Name partner2Name
         partner1Transcription partner2Transcription isLiveArgument)
      (nl ++ "- " ++ partner2Name ++ ": "
       ++ markdownPlaceholder mode isLiveArgument ++ nl) = true.
Proof.
  intros mode isLive n1 n2 t1 t2 H.
  destruct (truthy_opt_false _ H) as [-> | ->];
    destruct mode, isLive;
    cbn [AiMarkdown.analysisPrompt AiMarkdown.orText truthy markdownPlaceholder];
    solve_includes_pieces.
Qed.

(** The plain revision renders a placeholder for two separate
    perspectives on a conflict. *)
Lemma plain_analysisPrompt_placeholder :
  forall mode partner1Name partner2Name partner1Transcription
         partner2Transcription,
    truthy_opt partner2Transcription = false ->
    mode = counselor \/ mode = evaluator ->
    includes
      (AiPlain.analysisPrompt mode partner1Name partner2Name
         partner1Transcription partner2Transcription false)
      (nl ++ partner2Name ++ "'s view: " ++ "No perspective provided" ++ nl)
    = true.
Proof.
  intros mode n1 n2 t1 t2 H Hmode.
  destruct (truthy_opt_false _ H) as [-> | ->];
    destruct Hmode as [-> | ->];
    cbn [AiPlain.analysisPrompt AiMarkdown.orText truthy];
    solve_includes_pieces.
Qed.

(** In its other branches (the dinner and entertainment modes, and a
    live argument in any mode) it renders nothing for the second
    partner: the first transcript is followed by the format block. *)
Lemma plain_analysisPrompt_omits :
  forall mode isLiveArgument partner1Name partner2Name
         partner1Transcription partner2Transcription,
    truthy_opt partner2Transcription = false ->
    mode = dinner \/ mode = entertainment \/ isLiveArgument = true ->
    includes
      (AiPlain.analysisPrompt mode partner1Name partner2Name
         partner1Transcription partner2Transcription isLiveArgument)
      (nl ++ nl ++ partner1Transcription ++ nl ++ nl ++ nl
       ++ "FORMAT:" ++ nl) = true.
Proof.
  intros mode isLive n1 n2 t1 t2 H Hmode.
  destruct (truthy_opt_false _ H) as [-> | ->];
    destruct Hmode as [-> | [-> | ->]]; try destruct mode;
    cbn [AiPlain.analysisPrompt AiPlain.continued AiPlain.judgmentFormat truthy];
    solve_includes_pieces.
Qed.

(** C3, as the code has it.  Without a text of the second partner (null
    or empty), for every mode and both values of [isLiveArgument]:
    [getUserPrompt] of ai_new.ts renders the line of the second partner
    with "No input provided", and the [createAnalysisStream] of the
    markdown revision renders it with "No input provided", "No
    preferences provided" or "No perspective provided".  The
    [createAnalysisStream] of the plain revision renders "No perspective
    provided" for two separate perspectives in the counselor and
    evaluator modes; for a live argument, where one recording holds both
    partners, it renders nothing for the second partner in any mode: the
    first transcript is followed by the format block. *)
Theorem missing_partner2_rendering :
  forall (mode : CounselingMode) (isLiveArgument : bool)
         (partner1Name partner2Name partner1Text : string)
         (partner2Text : option string),
    truthy_opt partner2Text = false ->
    includes
      (AiNew.getUserPrompt mode partner1Name partner2Name partner1Text
         partner2Text isLiveArgument)
      (nl ++ "- " ++ partner2Name ++ ": No input provided" ++ nl) = true
    /\ includes
         (AiMarkdown.analysisPrompt mode partner1Name partner2Name
            partner1Text partner2Text isLiveArgument)
         (nl ++ "- " ++ partner2Name ++ ": "
          ++ markdownPlaceholder mode isLiveArgument ++ nl) = true
    /\ includes
         (AiPlain.analysisPrompt counselor partner1Name partner2Name
            partner1Text partner2Text false)
         (nl ++ partner2Name ++ "'s view: " ++ "No perspective provided"
          ++ nl) = true
    /\ includes
         (AiPlain.analysisPrompt evaluator partner1Name partner2Name
            partner1Text partner2Text false)
         (nl ++ partner2Name ++ "'s view: " ++ "No perspective provided"
          ++ nl) = true
    /\ includes
         (AiPlain.analysisPrompt mode partner1Name partner2Name
            partner1Text partner2Text true)
         (nl ++ nl ++ partner1Text ++ nl ++ nl ++ nl ++ "FORMAT:" ++ nl)
       = true.
Proof.
  intros mode isLive n1 n2 t1 t2 H. repeat split.
  - now apply AiNewFacts.getUserPrompt_placeholder.
  - now apply markdown_analysisPrompt_placeholder.
  - apply plain_analysisPrompt_placeholder; auto.
  - apply plain_analysisPrompt_placeholder; auto.
  - apply plain_analysisPrompt_omits; auto.
Qed.

Lemma missing_partner2_rendering_witness :
  truthy_opt None = false
  /\ includes
       (AiNew.getUserPrompt dinner "Alice" "Bob"
          "I like pasta and Italian food" None true)
       (nl ++ "- " ++ "Bob" ++ ": No input provided" ++ nl) = true
  /\ includes
       (AiPlain.analysisPrompt dinner "Alice" "Bob"
          "I like pasta and Italian food" None true)
       (nl ++ nl ++ "I like pasta and Italian food" ++ nl ++ nl ++ nl
        ++ "FORMAT:" ++ nl) = true.
Proof.
  split; [reflexivity|].
  destruct (missing_partner2_rendering dinner true "Alice" "Bob"
              "I like pasta and Italian food" None eq_refl)
    as (H1 & _ & _ & _ & H5).
  split; [exact H1 | exact H5].
Defined.

(** C3 as stated fails on the plain revision: for a live argument in
    the dinner mode the prompt of a call without a second transcript
    holds none of the placeholders, and nothing stands between the first
    transcript and the format block. *)
Lemma plain_prompt_elides_partner2 :
  truthy_opt None = false
  /\ AiPlain.analysisPrompt dinner "Alice" "Bob"
       "I like pasta and Italian food" None true
     = "Based on Alice and Bob's dinner discussion:" ++ nl ++ nl ++
       "I like pasta and Italian food" ++ nl ++ nl ++ nl ++
       "FORMAT:" ++ nl ++
       "VERDICT: Start with " ++ dq
       ++ "You should eat [specific recommendation]" ++ dq ++ nl ++
       "WHY: 2-3 bullet points explaining why" ++ nl ++
       "ALTERNATIVES: 1-2 backup options"
  /\ renders_placeholder
       (AiPlain.analysisPrompt dinner "Alice" "Bob"
          "I like pasta and Italian food" None true) = false.
Proof. repeat split; reflexivity. Qed.

End PromptRevisionsFacts.

(** ** The analysis adapter of ai_new.ts *)

Module AdapterFacts.

Import Js JsVal Eff JsFacts AiNew.
Local Open Scope string_scope.

Section WithCaller.

Context {St : Type}.
Variable env : Env.

Lemma accumulate_completes (deltas : list string) :
  forall (fullResponse : string) (w : World St),
    accumulate fullResponse deltas None w
    = (inr (concat_chunks fullResponse deltas),
       {| trace := trace w ++ map EvDelta deltas;
          callerState := callerState w |}).
Proof.
  induction deltas as [|delta rest IH]; intros acc w.
  - cbn. rewrite app_nil_r. now destruct w.
  - cbn [accumulate]. unfold bind, emit, modify at 1.
    rewrite IH. cbn. now rewrite <- app_assoc.
Qed.

Lemma accumulate_throws (deltas : list string) (e : Thrown) :
  forall (fullResponse : string) (w : World St),
    accumulate fullResponse deltas (Some e) w
    = (inl e,
       {| trace := trace w ++ map EvDelta deltas;
          callerState := callerState w |}).
Proof.
  induction deltas as [|delta rest IH]; intros acc w.
  - cbn. rewrite app_nil_r. now destruct w.
  - cbn [accumulate]. unfold bind, emit, modify at 1.
    rewrite IH. cbn. now rewrite <- app_assoc.
Qed.

(** A completed stream, and a callback with outcome [outcome]: the whole
    behaviour of [createAnalysisStream]. *)
Lemma createAnalysisStream_completed
    (options : AnalysisStreamOptions) (w : World St)
    (deltas : list string) (outcome : Thrown + unit) (st' : St) :
  streamText env (streamRequest options)
    = inr {| chunks := deltas; failure := None |} ->
  onComplete options
    (envelope (concat_chunks "" deltas) (now_toISOString env))
    (callerState w) = (outcome, st') ->
  createAnalysisStream env options w
  = (match outcome with
     | inr _ => inr {| aiResponse := concat_chunks "" deltas |}
     | inl _ => inl (Error "Analysis failed. Please try again.")
     end,
     {| trace :=
          trace w ++ EvStreamText (streamRequest options)
          :: map EvDelta deltas
          ++ EvOnComplete
               (envelope (concat_chunks "" deltas) (now_toISOString env))
          :: match outcome with
             | inr _ => []
             | inl e => [EvConsoleError "[AI] Analysis error:" e]
             end;
        callerState := st' |}).
Proof.
  intros Hstream Hcb.
  unfold createAnalysisStream, tryCatch, bind, callStreamText, bind, emit,
    modify, lift, onCaller, ret, throw.
  fold (streamRequest options). cbn [trace callerState].
  rewrite Hstream. cbn [chunks failure].
  rewrite accumulate_completes. cbn [trace callerState].
  rewrite Hcb.
  destruct outcome as [e|[]]; cbn [trace callerState];
    repeat (rewrite <- ?app_assoc; cbn [app]); reflexivity.
Qed.

Lemma onCompleteCalls_app (t1 t2 : list Event) :
  onCompleteCalls (t1 ++ t2) = (onCompleteCalls t1 ++ onCompleteCalls t2)%list.
Proof. apply flat_map_app. Qed.

Lemma onCompleteCalls_deltas (deltas : list string) :
  onCompleteCalls (map EvDelta deltas) = [].
Proof. induction deltas; cbn; auto. Qed.

(** A stream that fails, at its start or while it is read: the callback
    is not called and the caller gets the generic error. *)
Lemma createAnalysisStream_stream_fails
    (options : AnalysisStreamOptions) (w : World St) :
  (exists e, streamText env (streamRequest options) = inl e)
  \/ (exists deltas e,
        streamText env (streamRequest options)
        = inr {| chunks := deltas; failure := Some e |}) ->
  fst (createAnalysisStream env options w)
    = inl (Error "Analysis failed. Please try again.")
  /\ callerState (snd (createAnalysisStream env options w)) = callerState w
  /\ onCompleteCalls (trace (snd (createAnalysisStream env options w)))
     = onCompleteCalls (trace w).
Proof.
  intros [[e He] | (deltas & e & He)];
    unfold createAnalysisStream, tryCatch, bind, callStreamText, bind, emit,
      modify, lift, onCaller, ret, throw;
    fold (streamRequest options); cbn [trace callerState];
    rewrite He.
  - cbn. repeat split.
    rewrite !onCompleteCalls_app. cbn. now rewrite !List.app_nil_r.
  - cbn [chunks failure]. rewrite accumulate_throws. cbn.
    repeat split.
    rewrite !onCompleteCalls_app, onCompleteCalls_deltas. cbn.
    now rewrite !List.app_nil_r.
Qed.

(** A call of [analyzeConflict] that returns has read a stream to its
    end, the text it read is not empty, and it returns the envelope of
    that text. *)
Lemma analyzeConflict_returns
    (partner1Text partner2Text : string) (mode : CounselingMode)
    (isLiveArgument : bool) (partner1Name partner2Name : string)
    (w w' : World St) (r : string) :
  analyzeConflict env partner1Text partner2Text mode isLiveArgument
    partner1Name partner2Name w = (inr r, w') ->
  exists args stream,
    streamText env args = inr stream
    /\ failure stream = None
    /\ truthy (concat_chunks "" (chunks stream)) = true
    /\ r = envelope (concat_chunks "" (chunks stream)) (now_toISOString env).
Proof.
  unfold analyzeConflict, tryCatch, bind, callStreamText, bind, emit,
    modify, lift, ret, throw.
  destruct (JSON_parse env partner1Text) as [e1|d1]; [discriminate|].
  set (second := if truthy partner2Text then _ else _).
  destruct (second w) as [[e2|d2] w2] eqn:E2; [discriminate|].
  destruct (get d1 "text") as [e3|t1]; [discriminate|].
  match goal with
  | |- context [streamText env ?a] =>
      set (args := a); destruct (streamText env args) as [e4|stream] eqn:E4
  end; [discriminate|].
  destruct (failure stream) as [e5|] eqn:E5.
  - rewrite accumulate_throws. discriminate.
  - rewrite accumulate_completes.
    destruct (truthy (concat_chunks "" (chunks stream))) eqn:E6;
      cbn [negb]; [|discriminate].
    intros H. inversion H; subst. now exists args, stream.
Qed.

(** The sibling of [createAnalysisStream] checks for an empty answer:
    over a platform whose streams yield nothing, [analyzeConflict]
    fails. *)
Lemma analyzeConflict_empty_stream_fails
    (partner1Text partner2Text : string) (mode : CounselingMode)
    (isLiveArgument : bool) (partner1Name partner2Name : string)
    (w : World St) :
  (forall args, streamText env args
                = inr {| chunks := []; failure := None |}) ->
  fst (analyzeConflict env partner1Text partner2Text mode isLiveArgument
         partner1Name partner2Name w)
  = inl (Error "Analysis failed. Please try again.").
Proof.
  intros Hempty.
  destruct (analyzeConflict env partner1Text partner2Text mode
              isLiveArgument partner1Name partner2Name w)
    as [[e|r] w'] eqn:E.
  - revert E. unfold analyzeConflict.
    match goal with
    | |- tryCatch ?body _ w = _ -> _ =>
        unfold tryCatch; destruct (body w) as [[e0|r0] w0]
    end; cbn; intros H; inversion H; reflexivity.
  - apply analyzeConflict_returns in E
      as (args & stream & Hs & _ & Htruthy & _).
    rewrite Hempty in Hs. injection Hs as <-. discriminate.
Qed.

End WithCaller.

(** C2, on [createAnalysisStream]: a stream that yields no chunk is no
    failure there.  The call hands the envelope of the empty text to
    the completion callback and returns the empty text, where
    [analyzeConflict] throws (see [analyzeConflict_empty_stream_fails]). *)
Theorem createAnalysisStream_empty_stream_succeeds :
  forall (St : Type) (env : Env) (options : @AnalysisStreamOptions St)
         (w : World St) (st' : St),
    streamText env (streamRequest options)
      = inr {| chunks := []; failure := None |} ->
    onComplete options (envelope "" (now_toISOString env)) (callerState w)
      = (inr tt, st') ->
    createAnalysisStream env options w
    = (inr {| aiResponse := "" |},
       {| trace :=
            trace w ++
            [ EvStreamText (streamRequest options);
              EvOnComplete (envelope "" (now_toISOString env)) ];
          callerState := st' |}).
Proof.
  intros St env options w st' Hstream Hcb.
  now rewrite (createAnalysisStream_completed env options w [] (inr tt) st').
Qed.

Lemma createAnalysisStream_empty_stream_succeeds_witness :
  streamText (Samples.aiEnv []) (streamRequest (Samples.dinnerOptions 1))
    = inr {| chunks := []; failure := None |}
  /\ fst (onComplete (Samples.dinnerOptions 1)
            (envelope "" (now_toISOString (Samples.aiEnv [])))
            Samples.oneSession) = inr tt
  /\ fst (createAnalysisStream (Samples.aiEnv []) (Samples.dinnerOptions 1)
            (initial Samples.oneSession))
     = inr {| aiResponse := "" |}.
Proof.
  split; [reflexivity | split; [reflexivity|]].
  rewrite (createAnalysisStream_empty_stream_succeeds _
             (Samples.aiEnv []) (Samples.dinnerOptions 1)
             (initial Samples.oneSession)
             (snd (onComplete (Samples.dinnerOptions 1)
                     (envelope "" (now_toISOString (Samples.aiEnv [])))
                     Samples.oneSession))
             eq_refl eq_refl).
  reflexivity.
Defined.

(** C4, as the code has it.  When the stream has been read to its end,
    [createAnalysisStream] calls [onComplete] once, after the last
    delta, with the serialized envelope of the whole text.  When the
    callback returns, the call returns the text; when the callback
    throws, the [catch] of the adapter takes the failure, logs it, and
    the caller gets the generic error in its place. *)
Theorem createAnalysisStream_calls_onComplete_once :
  forall (St : Type) (env : Env) (options : @AnalysisStreamOptions St)
         (w : World St) (deltas : list string)
         (outcome : Thrown + unit) (st' : St),
    streamText env (streamRequest options)
      = inr {| chunks := deltas; failure := None |} ->
    onComplete options
      (envelope (concat_chunks "" deltas) (now_toISOString env))
      (callerState w) = (outcome, st') ->
    let finalResponse :=
      envelope (concat_chunks "" deltas) (now_toISOString env) in
    let w' := snd (createAnalysisStream env options w) in
    onCompleteCalls (trace w') = (onCompleteCalls (trace w) ++ [finalResponse])%list
    /\ (exists rest,
          trace w' =
          (trace w ++ EvStreamText (streamRequest options)
           :: map EvDelta deltas ++ EvOnComplete finalResponse :: rest)%list
          /\ onCompleteCalls rest = [])
    /\ callerState w' = st'
    /\ fst (createAnalysisStream env options w)
       = match outcome with
         | inr _ => inr {| aiResponse := concat_chunks "" deltas |}
         | inl _ => inl (Error "Analysis failed. Please try again.")
         end
    /\ match outcome with
       | inr _ => True
       | inl e => In (EvConsoleError "[AI] Analysis error:" e) (trace w')
       end.
Proof.
  intros St env options w deltas outcome st' Hstream Hcb finalResponse w'.
  subst w'.
  rewrite (createAnalysisStream_completed env options w deltas outcome st'
             Hstream Hcb).
  cbn [fst snd trace callerState]. fold finalResponse.
  repeat split.
  - rewrite onCompleteCalls_app.
    change (EvStreamText (streamRequest options) :: ?l)
      with ([EvStreamText (streamRequest options)] ++ l)%list.
    rewrite !onCompleteCalls_app, onCompleteCalls_deltas.
    destruct outcome; reflexivity.
  - eexists. split; [reflexivity|]. destruct outcome; reflexivity.
  - destruct outcome as [e|]; [|exact I].
    apply in_or_app. right. right.
    apply in_or_app. right. right. now left.
Qed.

Lemma createAnalysisStream_calls_onComplete_once_witness :
  streamText (Samples.aiEnv ["Piz"; "za"])
    (streamRequest (Samples.dinnerOptions 1))
    = inr {| chunks := ["Piz"; "za"]; failure := None |}
  /\ fst (onComplete (Samples.dinnerOptions 1)
            (envelope "Pizza" "2025-03-01T12:00:00.000Z")
            Samples.oneSession) = inr tt
  /\ onCompleteCalls
       (trace (snd (createAnalysisStream (Samples.aiEnv ["Piz"; "za"])
                      (Samples.dinnerOptions 1)
                      (initial Samples.oneSession))))
     = [ envelope "Pizza" "2025-03-01T12:00:00.000Z" ].
Proof.
  split; [reflexivity | split; [reflexivity|]].
  exact (proj1 (createAnalysisStream_calls_onComplete_once _
                  (Samples.aiEnv ["Piz"; "za"]) (Samples.dinnerOptions 1)
                  (initial Samples.oneSession) ["Piz"; "za"] (inr tt)
                  (snd (onComplete (Samples.dinnerOptions 1)
                          (envelope "Pizza" "2025-03-01T12:00:00.000Z")
                          Samples.oneSession))
                  eq_refl eq_refl)).
Defined.

(** C4 as stated fails: the callback of a call for a session the store
    does not hold throws "Session not found", and the caller gets
    "Analysis failed. Please try again." *)
Lemma onComplete_failure_is_rewrapped :
  fst (onComplete (Samples.dinnerOptions 7)
         (envelope "Pizza" "2025-03-01T12:00:00.000Z") Storage.empty)
    = inl (Error "Session not found")
  /\ fst (createAnalysisStream (Samples.aiEnv ["Piz"; "za"])
            (Samples.dinnerOptions 7) (initial Storage.empty))
     = inl (Error "Analysis failed. Please try again.")
  /\ onCompleteCalls
       (trace (snd (createAnalysisStream (Samples.aiEnv ["Piz"; "za"])
                      (Samples.dinnerOptions 7) (initial Storage.empty))))
     = [ envelope "Pizza" "2025-03-01T12:00:00.000Z" ]
  /\ Error "Analysis failed. Please try again."
     <> Error "Session not found".
Proof. repeat split; try reflexivity. discriminate. Qed.

(** C5, as the code has it.  A call of [analyzeConflict] that returns,
    returns the serialized envelope [{ verdict, timestamp }] of the text
    it accumulated.  A call of [createAnalysisStream] that returns has
    handed that serialized envelope to [onComplete], and returns the
    accumulated text itself as [aiResponse]. *)
Theorem success_wraps_accumulated_text :
  forall (St : Type) (env : Env) (w : World St),
    (forall partner1Text partner2Text mode isLiveArgument
            partner1Name partner2Name (r : string) (w' : World St),
        analyzeConflict env partner1Text partner2Text mode isLiveArgument
          partner1Name partner2Name w = (inr r, w') ->
        exists args stream,
          streamText env args = inr stream
          /\ failure stream = None
          /\ r = stringify_object
                   [ ("verdict", JStr (concat_chunks "" (chunks stream)));
                     ("timestamp", JStr (now_toISOString env)) ])
    /\ (forall (options : @AnalysisStreamOptions St)
               (r : AnalysisStreamResult) (w' : World St),
          createAnalysisStream env options w = (inr r, w') ->
          exists stream,
            streamText env (streamRequest options) = inr stream
            /\ failure stream = None
            /\ aiResponse r = concat_chunks "" (chunks stream)
            /\ onCompleteCalls (trace w')
               = (onCompleteCalls (trace w) ++
                  [ stringify_object
                      [ ("verdict", JStr (concat_chunks "" (chunks stream)));
                        ("timestamp", JStr (now_toISOString env)) ] ])%list).
Proof.
  intros St env w. split.
  - intros p1 p2 mode isLive n1 n2 r w' H.
    apply analyzeConflict_returns in H as (args & stream & Hs & Hf & _ & ->).
    now exists args, stream.
  - intros options r w' H.
    destruct (streamText env (streamRequest options)) as [e|[deltas fl]] eqn:Hs.
    + destruct (createAnalysisStream_stream_fails env options w) as [Hf _].
      { left. now exists e. }
      rewrite H in Hf. discriminate.
    + destruct fl as [e|].
      * destruct (createAnalysisStream_stream_fails env options w) as [Hf _].
        { right. now exists deltas, e. }
        rewrite H in Hf. discriminate.
      * destruct (onComplete options
                    (envelope (concat_chunks "" deltas) (now_toISOString env))
                    (callerState w)) as [outcome st'] eqn:Hcb.
        rewrite (createAnalysisStream_completed env options w deltas outcome
                   st' Hs Hcb) in H.
        destruct outcome as [e|[]]; inversion H; subst.
        eexists. split; [reflexivity|]. repeat split.
        cbn [trace chunks].
        change (EvStreamText (streamRequest options) :: ?l)
          with ([EvStreamText (streamRequest options)] ++ l)%list.
        rewrite !onCompleteCalls_app, onCompleteCalls_deltas. reflexivity.
Qed.

Lemma success_wraps_accumulated_text_witness :
  JSON_stringify Samples.transcript = Some Samples.transcriptJson
  /\ fst (analyzeConflict (Samples.aiEnv ["Piz"; "za"])
            Samples.transcriptJson "" dinner false "Alice" "Bob"
            (initial Storage.empty))
     = inr (envelope "Pizza" "2025-03-01T12:00:00.000Z")
  /\ exists args stream,
       streamText (Samples.aiEnv ["Piz"; "za"]) args = inr stream
       /\ failure stream = None
       /\ envelope "Pizza" "2025-03-01T12:00:00.000Z"
          = stringify_object
              [ ("verdict", JStr (concat_chunks "" (chunks stream)));
                ("timestamp",
                 JStr (now_toISOString (Samples.aiEnv ["Piz"; "za"]))) ].
Proof.
  split; [reflexivity | split; [reflexivity|]].
  exact (proj1 (success_wraps_accumulated_text _
                  (Samples.aiEnv ["Piz"; "za"]) (initial Storage.empty))
           Samples.transcriptJson "" dinner false "Alice" "Bob"
           (envelope "Pizza" "2025-03-01T12:00:00.000Z")
           (snd (analyzeConflict (Samples.aiEnv ["Piz"; "za"])
                   Samples.transcriptJson "" dinner false "Alice" "Bob"
                   (initial Storage.empty)))
           eq_refl).
Defined.

(** C5 as stated fails on [createAnalysisStream]: what it returns is the
    text, not the serialized envelope, which only the callback sees. *)
Lemma createAnalysisStream_returns_raw_text :
  fst (createAnalysisStream (Samples.aiEnv ["Piz"; "za"])
         (Samples.dinnerOptions 1) (initial Samples.oneSession))
    = inr {| aiResponse := "Pizza" |}
  /\ envelope "Pizza" "2025-03-01T12:00:00.000Z"
     = "{" ++ dq ++ "verdict" ++ dq ++ ":" ++ dq ++ "Pizza" ++ dq ++ ","
       ++ dq ++ "timestamp" ++ dq ++ ":" ++ dq ++ "2025-03-01T12:00:00.000Z"
       ++ dq ++ "}"
  /\ "Pizza" <> envelope "Pizza" "2025-03-01T12:00:00.000Z".
Proof. repeat split; try reflexivity. discriminate. Qed.

End AdapterFacts.

(** ** The adapter of the module [./ai], in both revisions *)

Module AiFacts.

Import Js JsVal Eff JsFacts.
Local Open Scope string_scope.

Section WithCaller.

Context {St : Type}.
Variable revision : Ai.Revision.
Variable env : AiNew.Env.

(** The whole behaviour of [createAnalysisStream]: it sends the request
    of its revision; reads the stream; and, when the stream ended, calls
    the completion callback once on the envelope of what it read.  It
    returns that text when the callback returned, and throws the generic
    error in every other case, after logging the cause. *)
Lemma createAnalysisStream_runs (options : Ai.AnalysisStreamOptions)
    (w : AiNew.World St) :
  exists deltas,
    (exists st',
        Ai.createAnalysisStream revision env options w
        = (inr {| AiNew.aiResponse := concat_chunks "" deltas |},
           {| AiNew.trace :=
                AiNew.trace w
                ++ AiNew.EvStreamText (Ai.streamRequest revision options)
                :: map AiNew.EvDelta deltas
                ++ [AiNew.EvOnComplete
                      (AiNew.envelope (concat_chunks "" deltas)
                         (AiNew.now_toISOString env))];
              AiNew.callerState := st' |})
        /\ Ai.onComplete options
             (AiNew.envelope (concat_chunks "" deltas)
                (AiNew.now_toISOString env))
             (AiNew.callerState w) = (inr tt, st'))
    \/ (exists called cause st',
          Ai.createAnalysisStream revision env options w
          = (inl AiNew.genericFailure,
             {| AiNew.trace :=
                  AiNew.trace w
                  ++ AiNew.EvStreamText (Ai.streamRequest revision options)
                  :: map AiNew.EvDelta deltas
                  ++ map AiNew.EvOnComplete called
                  ++ [AiNew.EvConsoleError "[AI] Analysis error:" cause];
                AiNew.callerState := st' |})
          /\ (called = [] /\ st' = AiNew.callerState w
              \/ called = [AiNew.envelope (concat_chunks "" deltas)
                             (AiNew.now_toISOString env)]
                 /\ Ai.onComplete options
                      (AiNew.envelope (concat_chunks "" deltas)
                         (AiNew.now_toISOString env))
                      (AiNew.callerState w) = (inl cause, st'))).
Proof.
  unfold Ai.createAnalysisStream, tryCatch, bind, AiNew.callStreamText, bind,
    AiNew.emit, modify, lift, AiNew.onCaller, ret, throw.
  fold (Ai.streamRequest revision options).
  cbn [AiNew.trace AiNew.callerState].
  destruct (AiNew.streamText env (Ai.streamRequest revision options))
    as [e|[deltas [e|]]] eqn:Hstream.
  - exists []. right. exists [], e, (AiNew.callerState w).
    split; [|now left].
    cbn [map app AiNew.trace AiNew.callerState].
    now rewrite <- ?List.app_assoc.
  - exists deltas. right. exists [], e, (AiNew.callerState w).
    split; [|now left].
    cbn [AiNew.chunks AiNew.failure].
    rewrite AdapterFacts.accumulate_throws.
    cbn [map app AiNew.trace AiNew.callerState].
    rewrite <- ?List.app_assoc. cbn [app]. reflexivity.
  - exists deltas. cbn [AiNew.chunks AiNew.failure].
    rewrite AdapterFacts.accumulate_completes.
    cbn [AiNew.trace AiNew.callerState].
    destruct (Ai.onComplete options
                (AiNew.envelope (concat_chunks "" deltas)
                   (AiNew.now_toISOString env))
                (AiNew.callerState w)) as [[cause|[]] st'] eqn:Hcb.
    + right. eexists [_], cause, st'. split; [|now right].
      cbn [map app AiNew.trace AiNew.callerState].
      repeat (rewrite <- ?List.app_assoc; cbn [app]). reflexivity.
    + left. exists st'. split; [|reflexivity].
      cbn [map app AiNew.trace AiNew.callerState].
      repeat (rewrite <- ?List.app_assoc; cbn [app]). reflexivity.
Qed.

End WithCaller.

(** Both revisions put the first transcript into the user prompt as it
    is handed to them. *)
Lemma analysisPrompt_includes_first (revision : Ai.Revision)
    (mode : CounselingMode)
    (partner1Name partner2Name partner1Transcription : string)
    (partner2Transcription : option string) (isLiveArgument : bool) :
  includes
    (Ai.analysisPrompt revision mode partner1Name partner2Name
       partner1Transcription partner2Transcription isLiveArgument)
    partner1Transcription = true.
Proof.
  destruct revision, mode, isLiveArgument;
    cbn [Ai.analysisPrompt AiMarkdown.analysisPrompt AiPlain.analysisPrompt];
    solve_includes_pieces.
Qed.

End AiFacts.

(** ** The transcription adapter *)

Module TranscribeFacts.

Import Js JsVal Eff JsFacts Transcribe.
Local Open Scope string_scope.

(** The message of the quota error names the quota, but not the marker
    [retryWithBackoff] looks for. *)
Lemma quotaMessage_names_quota : includes quotaMessage "quota" = true.
Proof. vm_compute. reflexivity. Qed.

Lemma quotaMessage_lacks_marker :
  includes quotaMessage "insufficient_quota" = false.
Proof. vm_compute. reflexivity. Qed.

(** One upload that meets the quota signal throws the quota error. *)
Lemma upload_quota_signal (env : Env) (w : World) (response : Response) :
  readWav env (calls w) = inr tt ->
  fetch env (calls w) = inr response ->
  quotaSignal env response ->
  upload env w
  = (inl (Error quotaMessage),
     {| tempFile := tempFile w; wavFile := wavFile w;
        calls := S (calls w);
        trace := trace w ++ [EvReadFile WavFile; EvFetch] |}).
Proof.
  intros Hread Hfetch (Hok & errorJson & err & Hparse & Hget & Htype).
  unfold upload, bind, gets, modify, emit, modify, lift, tryCatch, throw, ret.
  cbn [calls trace tempFile wavFile].
  rewrite Hread, Hfetch, Hok. cbn [negb].
  rewrite Hparse, Hget, Htype.
  cbn [messageOf]. rewrite quotaMessage_names_quota.
  now rewrite <- List.app_assoc.
Qed.

(** The loop of [retryWithBackoff] over uploads that all meet the quota
    signal: every iteration uploads, sleeps, and goes on. *)
Lemma retryLoop_quota_signal (env : Env) (initialDelay : Z) :
  (forall i, readWav env i = inr tt) ->
  (forall i, exists response,
      fetch env i = inr response /\ quotaSignal env response) ->
  forall (remaining i : nat) (lastError : Thrown) (w : World),
    let w' := snd (retryLoop (upload env) initialDelay remaining i lastError w) in
    fst (retryLoop (upload env) initialDelay remaining i lastError w)
      = inl (match remaining with O => lastError | S _ => Error quotaMessage end)
    /\ calls w' = calls w + remaining
    /\ fetches (trace w') = fetches (trace w) + remaining
    /\ sleeps (trace w')
       = (sleeps (trace w)
          ++ map (fun k => initialDelay * 2 ^ Z.of_nat (i + k))%Z
               (seq 0 remaining))%list
    /\ tempFile w' = tempFile w /\ wavFile w' = wavFile w.
Proof.
  intros Hread Hfetch remaining.
  induction remaining as [|remaining IH]; intros i lastError w.
  - cbn. rewrite !Nat.add_0_r, List.app_nil_r. repeat split.
  - cbn [retryLoop]. unfold tryCatch.
    destruct (Hfetch (calls w)) as (response & Hf & Hq).
    rewrite (upload_quota_signal env w response (Hread _) Hf Hq).
    unfold bind, lift. cbn [messageOf].
    rewrite quotaMessage_lacks_marker.
    unfold sleep, emit, modify. cbn [calls trace tempFile wavFile].
    match goal with
    | |- context [retryLoop _ _ remaining (S i) ?e ?w0] =>
        destruct (IH (S i) e w0) as (H1 & H2 & H3 & H4 & H5 & H6);
        cbn [calls trace tempFile wavFile] in H2, H3, H4, H5, H6
    end.
    cbn zeta. repeat split.
    + rewrite H1. now destruct remaining.
    + rewrite H2. lia.
    + rewrite H3. unfold fetches.
      rewrite !List.filter_app, !List.length_app. cbn. lia.
    + rewrite H4. unfold sleeps. rewrite !flat_map_app. cbn [flat_map app].
      rewrite <- !List.app_assoc. cbn [app seq map].
      rewrite Nat.add_0_r. do 2 f_equal.
      rewrite <- seq_shift, map_map.
      apply map_ext. intros k. now rewrite Nat.add_succ_r.
    + exact H5.
    + exact H6.
Qed.

Lemma fetches_app (t1 t2 : list Event) :
  fetches (t1 ++ t2) = fetches t1 + fetches t2.
Proof. unfold fetches. now rewrite List.filter_app, List.length_app. Qed.

Lemma sleeps_app (t1 t2 : list Event) :
  sleeps (t1 ++ t2) = (sleeps t1 ++ sleeps t2)%list.
Proof. apply flat_map_app. Qed.

(** The cleanup unlinks, and does nothing else. *)
Lemma cleanup_runs (w : World) :
  exists t,
    cleanup w
    = (inr tt,
       {| tempFile := tempFile w; wavFile := wavFile w; calls := calls w;
          trace := trace w ++ t |})
    /\ fetches t = 0 /\ sleeps t = [].
Proof.
  unfold cleanup, bind, gets, emit, modify, ret.
  destruct w as [[f|] [g|] c t]; cbn.
  - exists [EvUnlink f; EvUnlink g]. now rewrite <- List.app_assoc.
  - exists [EvUnlink f]. easy.
  - exists [EvUnlink g]. easy.
  - exists []. now rewrite List.app_nil_r.
Qed.

(** The [try { ... } catch (error) { cleanup; throw error } finally
    { cleanup }] of [transcribeAudio] passes the outcome of its body on,
    and adds neither an upload nor a sleep. *)
Lemma guarded_outcome {A} (body : M World A) (w : World) :
  let guarded :=
    tryFinally
      (tryCatch body (fun error => bind cleanup (fun _ => throw error)))
      cleanup in
  fst (guarded w) = fst (body w)
  /\ calls (snd (guarded w)) = calls (snd (body w))
  /\ fetches (trace (snd (guarded w))) = fetches (trace (snd (body w)))
  /\ sleeps (trace (snd (guarded w))) = sleeps (trace (snd (body w))).
Proof.
  cbn zeta. unfold tryFinally, tryCatch, bind, throw.
  destruct (body w) as [[e|a] w1]; cbn [fst snd].
  - destruct (cleanup_runs w1) as (t1 & -> & Hf1 & Hs1).
    match goal with
    | |- context [cleanup ?w2] =>
        destruct (cleanup_runs w2) as (t2 & -> & Hf2 & Hs2)
    end.
    cbn [fst snd calls trace].
    rewrite !fetches_app, !sleeps_app, Hf1, Hf2, Hs1, Hs2, !List.app_nil_r.
    repeat split; lia.
  - destruct (cleanup_runs w1) as (t1 & -> & Hf1 & Hs1).
    cbn [fst snd calls trace].
    rewrite !fetches_app, !sleeps_app, Hf1, Hs1, !List.app_nil_r.
    repeat split; lia.
Qed.

(** A recording that passes the duration check goes to the uploads. *)
Lemma transcribeAudio_uploads (env : Env) (audioBase64 : string)
    (duration : float) :
  reachesProbe env audioBase64 ->
  ffprobe env = inr duration ->
  (duration <? 0.1)%float = false ->
  transcribeAudio env audioBase64 initial
  = tryFinally
      (tryCatch (retryWithBackoff (upload env) 3 1000)
         (fun error => bind cleanup (fun _ => throw error)))
      cleanup probed.
Proof.
  intros (Haudio & Hwrite & (size & Hstat & Hsize) & Hffmpeg & (wsize & Hwav))
         Hprobe Hlong.
  unfold transcribeAudio, tryFinally, tryCatch at 1.
  unfold bind at 1. rewrite Haudio. cbn [negb].
  unfold ret at 1, bind, modify, emit, modify, lift, tryCatch, throw, ret.
  cbn [calls trace tempFile wavFile initial].
  rewrite Hwrite, Hstat.
  destruct (Z.eqb_spec size 0) as [->|_]; [now elim Hsize|].
  rewrite Hffmpeg, Hwav, Hprobe, Hlong.
  reflexivity.
Qed.

(** Where [retryWithBackoff] does what it is written for: an error whose
    message carries the marker ends the loop at once. *)
Lemma retryLoop_stops_at_marker {A} (operation : M World A)
    (initialDelay : Z) (remaining i : nat) (lastError : Thrown)
    (w w1 : World) (message : string) :
  operation w = (inl (Error message), w1) ->
  includes message "insufficient_quota" = true ->
  retryLoop operation initialDelay (S remaining) i lastError w
  = (inl (Error message), w1).
Proof.
  intros Hop Hmarker. cbn [retryLoop]. unfold tryCatch. rewrite Hop.
  unfold bind, lift. cbn [messageOf]. now rewrite Hmarker.
Qed.

(** An operation that keeps failing without the marker is tried
    [maxRetries] times, and the sleep after each failure doubles. *)
Lemma retryLoop_retries_failures {A} (operation : M World A)
    (initialDelay : Z) :
  (forall w, exists message w1,
      operation w = (inl (Error message), w1)
      /\ includes message "insufficient_quota" = false
      /\ calls w1 = S (calls w)
      /\ sleeps (trace w1) = sleeps (trace w)) ->
  forall (remaining i : nat) (lastError : Thrown) (w : World),
    let w' := snd (retryLoop operation initialDelay remaining i lastError w) in
    (exists e, fst (retryLoop operation initialDelay remaining i lastError w)
               = inl e)
    /\ calls w' = calls w + remaining
    /\ sleeps (trace w')
       = (sleeps (trace w)
          ++ map (fun k => initialDelay * 2 ^ Z.of_nat (i + k))%Z
               (seq 0 remaining))%list.
Proof.
  intros Hop remaining.
  induction remaining as [|remaining IH]; intros i lastError w.
  - cbn. rewrite !Nat.add_0_r, List.app_nil_r. repeat split. now eexists.
  - cbn [retryLoop]. unfold tryCatch.
    destruct (Hop w) as (message & w1 & -> & Hmarker & Hcalls & Hsleeps).
    unfold bind, lift. cbn [messageOf]. rewrite Hmarker.
    unfold sleep, emit, modify.
    match goal with
    | |- context [retryLoop _ _ remaining (S i) ?e ?w0] =>
        destruct (IH (S i) e w0) as (H1 & H2 & H3);
        cbn [calls trace] in H2, H3
    end.
    cbn zeta. repeat split.
    + exact H1.
    + rewrite H2, Hcalls. lia.
    + rewrite H3, sleeps_app, Hsleeps. cbn [sleeps flat_map app].
      rewrite <- !List.app_assoc. cbn [app seq map].
      rewrite Nat.add_0_r. do 2 f_equal.
      rewrite <- seq_shift, map_map.
      apply map_ext. intros k. now rewrite Nat.add_succ_r.
Qed.

(** C1, on the quota signal: the failure is not surfaced at once.  The
    quota error that [transcribeAudio] throws does not carry the marker
    [retryWithBackoff] stops at, so a call whose every upload meets the
    quota signal uploads three times, sleeping 1000, 2000 and 4000 ms,
    before the quota error reaches the caller. *)
Theorem quota_signal_is_retried :
  forall (env : Env) (audioBase64 : string) (duration : float),
    reachesProbe env audioBase64 ->
    ffprobe env = inr duration ->
    (duration <? 0.1)%float = false ->
    (forall i, readWav env i = inr tt) ->
    (forall i, exists response,
        fetch env i = inr response /\ quotaSignal env response) ->
    fst (transcribeAudio env audioBase64 initial) = inl (Error quotaMessage)
    /\ fetches (trace (snd (transcribeAudio env audioBase64 initial))) = 3
    /\ sleeps (trace (snd (transcribeAudio env audioBase64 initial)))
       = [1000; 2000; 4000]%Z.
Proof.
  intros env audio duration Hreach Hprobe Hlong Hread Hfetch.
  rewrite (transcribeAudio_uploads env audio duration Hreach Hprobe Hlong).
  destruct (guarded_outcome (retryWithBackoff (upload env) 3 1000) probed)
    as (-> & _ & -> & ->).
  unfold retryWithBackoff.
  destruct (retryLoop_quota_signal env 1000 Hread Hfetch 3 0
              ThrownUndefined probed) as (-> & _ & -> & -> & _).
  repeat split.
Qed.

Lemma quota_signal_is_retried_witness :
  reachesProbe (Samples.quotaEnv 2.5) "UklGRg=="
  /\ fst (transcribeAudio (Samples.quotaEnv 2.5) "UklGRg==" initial)
     = inl (Error quotaMessage)
  /\ fetches (trace (snd (transcribeAudio (Samples.quotaEnv 2.5)
                            "UklGRg==" initial))) = 3
  /\ sleeps (trace (snd (transcribeAudio (Samples.quotaEnv 2.5)
                           "UklGRg==" initial)))
     = [1000; 2000; 4000]%Z.
Proof.
  assert (Hreach : reachesProbe (Samples.quotaEnv 2.5) "UklGRg==").
  { repeat split; try reflexivity.
    - exists 4096%Z. split; [reflexivity | discriminate].
    - now exists 64044%Z. }
  split; [exact Hreach|].
  apply (quota_signal_is_retried (Samples.quotaEnv 2.5) "UklGRg==" 2.5%float
           Hreach eq_refl eq_refl (fun _ => eq_refl)).
  intros i. eexists. split; [reflexivity|].
  split; [reflexivity|]. do 2 eexists. repeat split.
Defined.

(** Whatever the earlier steps of a call do, a probed duration under
    0.1 seconds keeps it from uploading. *)
Lemma short_recording_never_uploads (env : Env) (audioBase64 : string)
    (duration : float) :
  ffprobe env = inr duration ->
  (duration <? 0.1)%float = true ->
  fetches (trace (snd (transcribeAudio env audioBase64 initial))) = 0.
Proof.
  intros Hprobe Hshort. unfold transcribeAudio.
  match goal with
  | |- context [tryFinally (tryCatch ?body _) _ _] =>
      destruct (guarded_outcome body initial) as (_ & _ & H & _)
  end.
  cbn zeta in H. rewrite H. clear H.
  unfold bind, modify, emit, modify, lift, tryCatch, throw, ret.
  rewrite Hprobe, Hshort.
  destruct (truthy audioBase64); cbn [negb]; [|reflexivity].
  destruct (writeFile env) as [?|[]]; [reflexivity|].
  destruct (statTemp env) as [?|size]; [reflexivity|].
  destruct (size =? 0)%Z; [reflexivity|].
  destruct (ffmpeg env) as [e|[]].
  - destruct (messageOf e); reflexivity.
  - destruct (statWav env) as [e|?]; [destruct (messageOf e)|]; reflexivity.
Qed.

(** C9.  A recording whose probed duration is under 0.1 seconds fails
    with the error of the duration check, and no upload is made. *)
Theorem too_short_fails_before_upload :
  forall (env : Env) (audioBase64 : string) (duration : float),
    reachesProbe env audioBase64 ->
    ffprobe env = inr duration ->
    (duration <? 0.1)%float = true ->
    fst (transcribeAudio env audioBase64 initial)
    = inl (Error "Failed to verify audio duration: Audio recording is too short. Please record for at least 1-2 seconds.")
    /\ fetches (trace (snd (transcribeAudio env audioBase64 initial))) = 0
    /\ calls (snd (transcribeAudio env audioBase64 initial)) = 0.
Proof.
  intros env audio duration
    (Haudio & Hwrite & (size & Hstat & Hsize) & Hffmpeg & (wsize & Hwav))
    Hprobe Hshort.
  unfold transcribeAudio, tryFinally, tryCatch at 1.
  unfold bind at 1. rewrite Haudio. cbn [negb].
  unfold ret at 1, bind, modify, emit, modify, lift, tryCatch, throw, ret.
  cbn [calls trace tempFile wavFile initial].
  rewrite Hwrite, Hstat.
  destruct (Z.eqb_spec size 0) as [->|_]; [now elim Hsize|].
  rewrite Hffmpeg, Hwav, Hprobe, Hshort.
  cbn. repeat split.
Qed.

Lemma too_short_fails_before_upload_witness :
  reachesProbe (Samples.quotaEnv 0.05) "UklGRg=="
  /\ (0.05 <? 0.1)%float = true
  /\ fst (transcribeAudio (Samples.quotaEnv 0.05) "UklGRg==" initial)
     = inl (Error "Failed to verify audio duration: Audio recording is too short. Please record for at least 1-2 seconds.")
  /\ fetches (trace (snd (transcribeAudio (Samples.quotaEnv 0.05)
                            "UklGRg==" initial))) = 0.
Proof.
  assert (Hreach : reachesProbe (Samples.quotaEnv 0.05) "UklGRg==").
  { repeat split; try reflexivity.
    - exists 4096%Z. split; [reflexivity | discriminate].
    - now exists 64044%Z. }
  split; [exact Hreach | split; [reflexivity|]].
  destruct (too_short_fails_before_upload (Samples.quotaEnv 0.05) "UklGRg=="
              0.05%float Hreach eq_refl eq_refl) as (H1 & H2 & _).
  split; [exact H1 | exact H2].
Defined.

End TranscribeFacts.

(** ** The session store *)

Module StorageFacts.

Import JsVal Eff Schema Storage.
Local Open Scope string_scope.

Lemma updateSessionResponse_unknown (this : MemStorage) (id : Z)
    (text : string) :
  sessions this !! id = None ->
  updateSessionResponse id text this = (inl (Error "Session not found"), this).
Proof. intros H. unfold updateSessionResponse. now rewrite H. Qed.

(** What an update of a session the store holds does to the store. *)
Lemma updateSessionResponse_known (this : MemStorage) (id : Z)
    (text : string) (session : Session) :
  sessions this !! id = Some session ->
  exists updated,
    updateSessionResponse id text this
    = (inr updated,
       {| sessions := <[id := updated]> (sessions this);
          currentId := currentId this |})
    /\ aiResponse updated = Some text
    /\ Schema.id updated = Schema.id session
    /\ partner1Name updated = partner1Name session
    /\ partner2Name updated = partner2Name session
    /\ partner1Audio updated = partner1Audio session
    /\ partner2Audio updated = partner2Audio session
    /\ mode updated = mode session
    /\ active updated = active session
    /\ transcriptionData updated = transcriptionData session
    /\ isLiveArgument updated = isLiveArgument session.
Proof.
  intros H. unfold updateSessionResponse. rewrite H.
  eexists. split; [reflexivity|]. cbn. repeat split.
Qed.

(** C7.  [updateSessionResponse(id, text)] on an id the store does not
    hold throws "Session not found" and leaves the store as it was; on
    an id it holds it returns, and [getSession(id)] then gives a session
    whose [aiResponse] is [text]. *)
Theorem updateSessionResponse_then_getSession :
  forall (this : MemStorage) (id : Z) (text : string),
    match sessions this !! id with
    | None =>
        updateSessionResponse id text this
        = (inl (Error "Session not found"), this)
    | Some _ =>
        exists updated this',
          updateSessionResponse id text this = (inr updated, this')
          /\ getSession id this' = (inr (Some updated), this')
          /\ aiResponse updated = Some text
    end.
Proof.
  intros this id text. destruct (sessions this !! id) as [session|] eqn:H.
  - destruct (updateSessionResponse_known this id text session H)
      as (updated & Hupd & Hai & _).
    eexists _, _. split; [exact Hupd|]. split; [|exact Hai].
    unfold getSession. cbn [sessions]. now rewrite lookup_insert_eq.
  - now apply updateSessionResponse_unknown.
Qed.

(** C10.  On an id the store holds, [updateSessionResponse(id, text)]
    changes the [aiResponse] of that session and nothing else: the other
    nine fields of the session, every other session and the id counter
    stay as they were. *)
Theorem updateSessionResponse_frame :
  forall (this : MemStorage) (id : Z) (text : string) (session : Session),
    sessions this !! id = Some session ->
    exists updated this',
      updateSessionResponse id text this = (inr updated, this')
      /\ sessions this' !! id = Some updated
      /\ Schema.id updated = Schema.id session
      /\ partner1Name updated = partner1Name session
      /\ partner2Name updated = partner2Name session
      /\ partner1Audio updated = partner1Audio session
      /\ partner2Audio updated = partner2Audio session
      /\ mode updated = mode session
      /\ active updated = active session
      /\ transcriptionData updated = transcriptionData session
      /\ isLiveArgument updated = isLiveArgument session
      /\ (forall other, other <> id ->
            sessions this' !! other = sessions this !! other)
      /\ currentId this' = currentId this.
Proof.
  intros this id text session H.
  destruct (updateSessionResponse_known this id text session H)
    as (updated & Hupd & _ & H1 & H2 & H3 & H4 & H5 & H6 & H7 & H8 & H9).
  eexists _, _. split; [exact Hupd|]. cbn [sessions currentId].
  split; [apply lookup_insert_eq|].
  repeat (split; [assumption|]).
  split; [|reflexivity].
  intros other Hne. now apply lookup_insert_ne.
Qed.

Lemma updateSessionResponse_frame_witness :
  sessions Samples.oneSession !! 1%Z = Some Samples.firstSession
  /\ exists updated this',
       updateSessionResponse 1 "Pizza" Samples.oneSession
       = (inr updated, this')
       /\ partner1Name updated = "Alice"
       /\ sessions this' !! 1%Z = Some updated
       /\ currentId this' = 2%Z.
Proof.
  split; [reflexivity|].
  destruct (updateSessionResponse_frame Samples.oneSession 1 "Pizza"
              Samples.firstSession eq_refl)
    as (updated & this' & Hupd & Hget & _ & Hname & _ & _ & _ & _ & _ & _ & _
        & _ & Hcur).
  exists updated, this'. repeat split; assumption.
Defined.

End StorageFacts.

(** ** The store under the request router *)

Module ServerFacts.

Import JsVal Eff Schema Storage Server.
Local Open Scope string_scope.

(** The store by itself does not keep a response from being replaced:
    a second update of a session overwrites the first. *)
Example store_allows_overwrite :
  exists s1 st1 s2 st2,
    updateSessionResponse 1 "first" Samples.oneSession = (inr s1, st1)
    /\ updateSessionResponse 1 "second" st1 = (inr s2, st2)
    /\ fst (getSession 1 st1) = inr (Some s1)
    /\ aiResponse s1 = Some "first"
    /\ fst (getSession 1 st2) = inr (Some s2)
    /\ aiResponse s2 = Some "second".
Proof. do 4 eexists. repeat split; reflexivity. Qed.





(** The state in which a call of [createAnalysisStream] leaves a caller
    whose callback is [callback]: as it was, or after one run of the
    callback on the serialized result. *)
Lemma createAnalysisStream_caller_state (revision : Ai.Revision)
    (env : AiNew.Env)
    (options : @Ai.AnalysisStreamOptions MemStorage)
    (w : AiNew.World MemStorage) :
  AiNew.callerState (snd (Ai.createAnalysisStream revision env options w))
    = AiNew.callerState w
  \/ exists response,
       AiNew.callerState
         (snd (Ai.createAnalysisStream revision env options w))
       = snd (Ai.onComplete options response (AiNew.callerState w)).
Proof.
  destruct (AiFacts.createAnalysisStream_runs revision env options w)
    as (deltas & [(st' & -> & Hcb)
                 | (called & cause & st' & -> & [(-> & ->) | (-> & Hcb)])]);
    cbn [snd AiNew.callerState].
  - right. eexists. now rewrite Hcb.
  - now left.
  - right. eexists. now rewrite Hcb.
Qed.

(** The world a [POST /api/sessions] ends in: the one it began in, when
    a transcription fails; else the one in which its call of
    [createAnalysisStream] ends. *)
Lemma postSessions_world (env : Env) (data : SessionData) (st : MemStorage) :
  snd (postSessions env data (AiNew.initial st)) = AiNew.initial st
  \/ exists t1 t2,
       snd (postSessions env data (AiNew.initial st))
       = snd (Ai.createAnalysisStream (aiModule env) (ai env)
                (analysisOptions data t1 t2
                   (newSession (asInsertSession data) (currentId st)))
                (AiNew.initial (snd (createSession (asInsertSession data) st)))).
Proof.
  unfold postSessions, tryCatch, bind, lift, ret, AiNew.onCaller.
  destruct (transcribePartner1 env) as [e1|t1]; [now left|].
  destruct (negb (isLiveArgument data) && Js.truthy (partner2Audio data)).
  - destruct (transcribePartner2 env) as [e2|t2]; [now left|].
    right. exists t1, (Some t2). cbn [fst snd AiNew.initial AiNew.trace
                                      AiNew.callerState createSession].
    now destruct (Ai.createAnalysisStream _ _ _ _) as [[?|?] ?].
  - right. exists t1, None. cbn [fst snd AiNew.initial AiNew.trace
                                 AiNew.callerState createSession].
    now destruct (Ai.createAnalysisStream _ _ _ _) as [[?|?] ?].
Qed.

(** What one [POST /api/sessions] does to the store, from its first
    line to its answer: nothing; or it creates its session; or it
    creates its session and then updates that very session, once. *)
Lemma postSessions_store (env : Env) (data : SessionData)
    (st : MemStorage) :
  let after :=
    AiNew.callerState (snd (postSessions env data (AiNew.initial st))) in
  let created := snd (createSession (asInsertSession data) st) in
  after = st
  \/ after = created
  \/ exists response,
       after = snd (updateSessionResponse (currentId st) response created).
Proof.
  cbn zeta.
  destruct (postSessions_world env data st) as [->|(t1 & t2 & ->)];
    [now left|right].
  match goal with
  | |- context [Ai.createAnalysisStream ?v ?e ?o ?w] =>
      destruct (createAnalysisStream_caller_state v e o w)
        as [->|[response ->]]
  end.
  - now left.
  - right. exists response.
    cbn [analysisOptions Ai.onComplete AiNew.initial AiNew.callerState
         createSession fst snd Schema.id].
    unfold bind at 1.
    now destruct (updateSessionResponse _ _ _) as [[?|?] ?].
Qed.


Lemma step_create_next (p : Pipeline) (data : SessionData) :
  step p
    {| store := snd (createSession (asInsertSession data) (store p));
       pending := {[ currentId (store p) ]} ∪ pending p |}.
Proof.
  exact (step_create p data _ _ eq_refl).
Qed.

Lemma step_complete_pending (p : Pipeline) (sid : Z) (response : string) :
  sid ∈ pending p ->
  is_Some (sessions (store p) !! sid) ->
  step p
    {| store := snd (updateSessionResponse sid response (store p));
       pending := pending p ∖ {[ sid ]} |}.
Proof.
  intros Hin [s Hs].
  destruct (StorageFacts.updateSessionResponse_known (store p) sid response
              s Hs) as (updated & Hupd & _).
  rewrite Hupd. cbn [snd].
  exact (step_complete p sid response _ _ Hin Hupd).
Qed.

Lemma remove_fresh (x : Z) (s : gset Z) :
  x ∉ s -> ({[ x ]} ∪ s) ∖ {[ x ]} = s.
Proof.
  intros Hx. apply set_eq. intros y.
  rewrite elem_of_difference, elem_of_union, !elem_of_singleton. split.
  - intros [[->|H] Hne]; [now elim Hne | exact H].
  - intros H. split; [now right|]. intros ->. now apply Hx.
Qed.

(** A [POST /api/sessions] run from its first line to its answer is a run
    of the router's steps: the steps are what the requests are made of. *)
Lemma postSessions_runs_steps (env : Env) (data : SessionData)
    (p : Pipeline) :
  consistent p ->
  exists p',
    rtc step p p'
    /\ store p'
       = AiNew.callerState
           (snd (postSessions env data (AiNew.initial (store p))))
    /\ pending p' = pending p.
Proof.
  intros [Hbound Hpending].
  assert (Hfresh : currentId (store p) ∉ pending p).
  { intros Hin. destruct (Hpending _ Hin) as (s & Hs & _).
    specialize (Hbound _ _ Hs). lia. }
  pose proof (step_create_next p data) as Hcreate.
  set (p1 := {| store := snd (createSession (asInsertSession data) (store p));
                pending := {[ currentId (store p) ]} ∪ pending p |}) in *.
  assert (Hback : pending p1 ∖ {[ currentId (store p) ]} = pending p).
  { subst p1. cbn [pending]. now apply remove_fresh. }
  destruct (postSessions_store env data (store p))
    as [-> | [-> | [response ->]]].
  - exists p. split; [apply rtc_refl | split; reflexivity].
  - exists {| store := store p1;
              pending := pending p1 ∖ {[ currentId (store p) ]} |}.
    split; [|split; [reflexivity | exact Hback]].
    eapply rtc_l; [exact Hcreate|]. apply rtc_once.
    apply step_fail. subst p1. cbn [pending].
    apply elem_of_union_l, elem_of_singleton. reflexivity.
  - exists {| store := snd (updateSessionResponse (currentId (store p))
                              response (store p1));
              pending := pending p1 ∖ {[ currentId (store p) ]} |}.
    split; [|split; [reflexivity | exact Hback]].
    eapply rtc_l; [exact Hcreate|]. apply rtc_once.
    apply step_complete_pending.
    + subst p1. cbn [pending].
      apply elem_of_union_l, elem_of_singleton. reflexivity.
    + subst p1. cbn [store createSession snd sessions].
      rewrite lookup_insert_eq. now eexists.
Qed.


End ServerFacts.

(** ** The session store over its runs *)

Module StorageRunsFacts.

Import JsVal Eff Schema Storage StorageRuns.
Local Open Scope string_scope.
Local Open Scope Z_scope.

Lemma dense_empty : dense Storage.empty.
Proof.
  split; [cbn; lia|]. split.
  - intros k. cbn. rewrite lookup_empty.
    split; [intros [? ?]; discriminate | intros H; exfalso; lia].
  - intros k s. cbn. rewrite lookup_empty. discriminate.
Qed.

Lemma dense_after (call : Call) (this : MemStorage) :
  dense this -> dense (after call this).
Proof.
  intros (Hpos & Hdom & Hid).
  destruct call as [insertSession|id|id text]; cbn [after]; unfold dense.
  - unfold createSession. cbn [snd sessions currentId].
    split; [lia|]. split.
    + intros k. rewrite lookup_insert_is_Some, Hdom. lia.
    + intros k s. rewrite lookup_insert_Some.
      intros [[<- <-]|[_ H]]; [reflexivity | now apply Hid].
  - cbn. exact (conj Hpos (conj Hdom Hid)).
  - unfold updateSessionResponse.
    destruct (sessions this !! id) as [session|] eqn:Hs; cbn [snd];
      [|exact (conj Hpos (conj Hdom Hid))].
    cbn [sessions currentId]. split; [exact Hpos|]. split.
    + intros k. rewrite lookup_insert_is_Some, <- Hdom.
      split; [intros [<-|[_ H]]; [now exists session | exact H]|].
      intros H. destruct (decide (id = k)); [now left | now right].
    + intros k s. rewrite lookup_insert_Some.
      intros [[<- <-]|[_ H]]; [cbn; now apply Hid | now apply Hid].
Qed.

Lemma dense_afterAll (calls : list Call) : dense (afterAll calls).
Proof.
  unfold afterAll. generalize dense_empty. generalize Storage.empty.
  induction calls as [|call calls IH]; intros this H; cbn [fold_left];
    [exact H|].
  apply IH. now apply dense_after.
Qed.

(** X1.  A session just created is there to be read: [getSession] of the
    id that [createSession] returns gives the session it returned, whose
    [aiResponse] and [transcriptionData] are null, whose [active] is
    true, and whose other fields are those of the input. *)
Theorem createSession_then_getSession :
  forall (this : MemStorage) (insertSession : Insert.InsertSession),
  exists session this',
    createSession insertSession this = (inr session, this')
    /\ getSession (Schema.id session) this' = (inr (Some session), this')
    /\ Schema.id session = currentId this
    /\ aiResponse session = None
    /\ active session = Some true
    /\ transcriptionData session = None
    /\ partner1Name session = Insert.partner1Name insertSession
    /\ partner2Name session = Insert.partner2Name insertSession
    /\ partner1Audio session = Insert.partner1Audio insertSession
    /\ partner2Audio session = Insert.partner2Audio insertSession
    /\ mode session = Insert.mode insertSession
    /\ isLiveArgument session = Insert.isLiveArgument insertSession.
Proof.
  intros this insertSession. eexists _, _. split; [reflexivity|].
  split; [|repeat split].
  unfold getSession. cbn [sessions Schema.id newSession].
  now rewrite lookup_insert_eq.
Qed.

(** X2.  Whatever calls of [createSession], [getSession] and
    [updateSessionResponse] a new store has seen, in whatever order, the
    ids it holds are exactly 1, 2, ... up to the counter minus one:
    no id is skipped, none is reused, no session is ever removed, and
    every session sits under the id it carries. *)
Theorem store_ids_are_dense :
  forall (calls : list Call) (k : Z),
    (is_Some (sessions (afterAll calls) !! k)
     <-> 1 <= k < currentId (afterAll calls))
    /\ (forall s, sessions (afterAll calls) !! k = Some s -> Schema.id s = k)
    /\ Z.of_nat (size (sessions (afterAll calls)))
       = currentId (afterAll calls) - 1.
Proof.
  intros calls k.
  destruct (dense_afterAll calls) as (_ & Hdom & Hid).
  split; [apply Hdom|]. split; [apply Hid|].
  clear k. unfold afterAll.
  assert (Hgen : forall this,
            dense this ->
            Z.of_nat (size (sessions this)) = currentId this - 1 ->
            Z.of_nat (size (sessions (fold_left
                        (fun this call => after call this) calls this)))
            = currentId (fold_left
                        (fun this call => after call this) calls this) - 1).
  { clear Hdom Hid. induction calls as [|call calls IH];
      intros this Hdense Hsize; cbn [fold_left]; [exact Hsize|].
    apply IH; [now apply dense_after|].
    destruct Hdense as (Hpos & Hdom & _).
    destruct call as [insertSession|id|id text]; cbn [after].
    - unfold createSession. cbn [snd sessions currentId].
      rewrite map_size_insert_None; [lia|].
      apply eq_None_not_Some. rewrite Hdom. lia.
    - exact Hsize.
    - unfold updateSessionResponse.
      destruct (sessions this !! id) as [session|] eqn:Hs; cbn [snd];
        [|exact Hsize].
      cbn [sessions currentId].
      rewrite map_size_insert_Some; [exact Hsize | now exists session]. }
  apply Hgen; [apply dense_empty|]. cbn. now rewrite map_size_empty.
Qed.

(** X3.  In a store that has only seen calls of its three methods,
    [createSession] takes an id the store does not hold, and every
    session the store held is still there, unchanged. *)
Theorem createSession_never_overwrites :
  forall (calls : list Call) (insertSession : Insert.InsertSession),
  exists session this',
    createSession insertSession (afterAll calls) = (inr session, this')
    /\ sessions (afterAll calls) !! Schema.id session = None
    /\ sessions this' !! Schema.id session = Some session
    /\ (forall k s, sessions (afterAll calls) !! k = Some s ->
                    sessions this' !! k = Some s)
    /\ currentId this' = Schema.id session + 1.
Proof.
  intros calls insertSession.
  destruct (dense_afterAll calls) as (Hpos & Hdom & _).
  eexists _, _. split; [reflexivity|].
  cbn [sessions currentId Schema.id newSession].
  assert (Hfresh : sessions (afterAll calls) !! currentId (afterAll calls)
                   = None).
  { apply eq_None_not_Some. rewrite Hdom. lia. }
  split; [exact Hfresh|]. split; [apply lookup_insert_eq|].
  split; [|reflexivity].
  intros k s Hs. rewrite lookup_insert_ne; [exact Hs|].
  intros <-. congruence.
Qed.

(** X4.  The last write wins: two updates of the response of one id
    leave the store as the second update alone does, whether the store
    holds the id or not. *)
Theorem updateSessionResponse_last_write_wins :
  forall (this : MemStorage) (id : Z) (first second : string),
    snd (updateSessionResponse id second
           (snd (updateSessionResponse id first this)))
    = snd (updateSessionResponse id second this).
Proof.
  intros this id first second. unfold updateSessionResponse.
  destruct (sessions this !! id) as [session|] eqn:Hs; cbn [snd].
  - cbn [sessions currentId]. rewrite lookup_insert_eq. cbn [snd].
    cbn. now rewrite insert_insert_eq.
  - now rewrite Hs.
Qed.

(** X5.  Updates of the responses of two different ids do not depend on
    their order. *)
Theorem updateSessionResponse_commutes :
  forall (this : MemStorage) (id1 id2 : Z) (text1 text2 : string),
    id1 <> id2 ->
    snd (updateSessionResponse id1 text1
           (snd (updateSessionResponse id2 text2 this)))
    = snd (updateSessionResponse id2 text2
             (snd (updateSessionResponse id1 text1 this))).
Proof.
  intros this id1 id2 text1 text2 Hne. unfold updateSessionResponse.
  destruct (sessions this !! id1) as [s1|] eqn:H1;
    destruct (sessions this !! id2) as [s2|] eqn:H2;
    cbn [snd sessions currentId];
    rewrite ?lookup_insert_ne by congruence;
    rewrite ?H1, ?H2; cbn [snd sessions currentId]; try reflexivity.
  f_equal. now apply insert_insert_ne.
Qed.

Lemma updateSessionResponse_commutes_witness :
  (1 <> 2)%Z
  /\ snd (updateSessionResponse 1 "Pizza"
            (snd (updateSessionResponse 2 "Thai"
                    (Server.store Samples.created2))))
     = snd (updateSessionResponse 2 "Thai"
              (snd (updateSessionResponse 1 "Pizza"
                      (Server.store Samples.created2)))).
Proof.
  split; [discriminate|].
  apply (updateSessionResponse_commutes (Server.store Samples.created2) 1 2
           "Pizza" "Thai").
  discriminate.
Defined.

End StorageRunsFacts.

(** ** The transcription adapter over every platform *)

Module TranscribeRunsFacts.

Import Js JsVal Eff JsFacts Transcribe TranscribeFacts.
Local Open Scope string_scope.

Lemma quiet_ret {A} (a : A) : quiet (ret a).
Proof. now intros w. Qed.

Lemma quiet_throw {A} (e : Thrown) : quiet (@throw World A e).
Proof. now intros w. Qed.

Lemma quiet_lift {A} (r : Thrown + A) : quiet (lift r).
Proof. now intros w. Qed.

Lemma quiet_bind {A B} (m : M World A) (k : A -> M World B) :
  quiet m -> (forall a, quiet (k a)) -> quiet (bind m k).
Proof.
  intros Hm Hk w. unfold bind. specialize (Hm w).
  destruct (m w) as [[e|a] w1]; cbn [snd] in *; subst; [reflexivity|].
  apply Hk.
Qed.

Lemma quiet_tryCatch {A} (m : M World A) (h : Thrown -> M World A) :
  quiet m -> (forall e, quiet (h e)) -> quiet (tryCatch m h).
Proof.
  intros Hm Hh w. unfold tryCatch. specialize (Hm w).
  destruct (m w) as [[e|a] w1]; cbn [snd] in *; subst; [|reflexivity].
  apply Hh.
Qed.

Lemma quiet_if {A} (b : bool) (m1 m2 : M World A) :
  quiet m1 -> quiet m2 -> quiet (if b then m1 else m2).
Proof. now destruct b. Qed.

Ltac quiet_tac :=
  repeat first
    [ apply quiet_ret | apply quiet_throw | apply quiet_lift
    | apply quiet_bind; [|intros ?]
    | apply quiet_tryCatch; [|intros ?]
    | apply quiet_if
    | match goal with
      | |- quiet (match ?z with _ => _ end) => destruct z
      end ].

(** One upload reads the file and, when that went well, posts it; it
    touches neither the two locals nor anything else. *)
Lemma upload_world (env : Env) (w : World) :
  exists t,
    snd (upload env w)
    = {| tempFile := tempFile w; wavFile := wavFile w;
         calls := S (calls w); trace := trace w ++ t |}
    /\ (t = [EvReadFile WavFile] \/ t = [EvReadFile WavFile; EvFetch]).
Proof.
  unfold upload.
  unfold bind at 1, gets at 1. unfold bind at 1, modify at 1.
  unfold bind at 1, emit at 1, modify at 1. cbn [calls trace tempFile wavFile].
  unfold bind at 1, lift at 1.
  destruct (readWav env (calls w)) as [e|[]].
  { exists [EvReadFile WavFile]. cbn [snd]. auto. }
  unfold bind at 1, emit at 1, modify at 1. cbn [calls trace tempFile wavFile].
  exists [EvReadFile WavFile; EvFetch].
  split; [|now right].
  match goal with
  | |- snd (?m ?w1) = _ =>
      assert (Hq : quiet m); [|rewrite (Hq w1)]
  end.
  - quiet_tac.
  - now rewrite <- List.app_assoc.
Qed.

Lemma keepsFiles_app (t1 t2 : list Event) :
  keepsFiles (t1 ++ t2) = keepsFiles t1 && keepsFiles t2.
Proof. apply forallb_app. Qed.

Lemma retryLoop_upload_world (env : Env) (initialDelay : Z) :
  forall (remaining i : nat) (lastError : Thrown) (w : World),
  exists c n t,
    snd (retryLoop (upload env) initialDelay remaining i lastError w)
    = {| tempFile := tempFile w; wavFile := wavFile w;
         calls := calls w + c; trace := trace w ++ t |}
    /\ Nat.min 1 remaining <= c <= remaining
    /\ fetches t <= c
    /\ n <= c
    /\ sleeps t = backoff initialDelay i n
    /\ keepsFiles t = true
    /\ (remaining = 0 \/ exists t', t = EvReadFile WavFile :: t').
Proof.
  induction remaining as [|remaining IH]; intros i lastError w.
  - exists 0, 0, []. cbn. rewrite Nat.add_0_r, List.app_nil_r.
    destruct w; repeat split; lia.
  - cbn [retryLoop]. unfold tryCatch.
    destruct (upload_world env w) as (t & Hw1 & Ht).
    assert (Hf : fetches t <= 1) by (destruct Ht as [-> | ->]; cbn; lia).
    assert (Hs : sleeps t = []) by (destruct Ht as [-> | ->]; reflexivity).
    assert (Hk : keepsFiles t = true)
      by (destruct Ht as [-> | ->]; reflexivity).
    assert (Hhd : forall t1, exists t', (t ++ t1)%list = EvReadFile WavFile :: t')
      by (intros t1; destruct Ht as [-> | ->]; cbn; eauto).
    destruct (upload env w) as [[e|a] w1]; cbn [snd] in Hw1; subst w1.
    + destruct (messageOf e) as [e'|message];
        unfold bind, lift, throw, sleep, emit, modify;
        cbn [snd calls trace tempFile wavFile].
      { exists 1, 0, t. rewrite Nat.add_1_r. repeat split; try lia; try assumption; try reflexivity.
        right. rewrite <- (List.app_nil_r t). apply Hhd. }
      destruct (includes message "insufficient_quota");
        cbn [snd calls trace tempFile wavFile].
      { exists 1, 0, t. rewrite Nat.add_1_r. repeat split; try lia; try assumption; try reflexivity.
        right. rewrite <- (List.app_nil_r t). apply Hhd. }
      match goal with
      | |- context [retryLoop _ _ remaining (S i) ?e0 ?w0] =>
          destruct (IH (S i) e0 w0)
            as (c & n & t' & -> & Hc & Hf' & Hn & Hs' & Hk' & _);
          cbn [calls trace tempFile wavFile]
      end.
      exists (S c), (S n), (t ++ [EvSleep (initialDelay * 2 ^ Z.of_nat i)] ++ t')%list.
      rewrite !fetches_app, !sleeps_app, !keepsFiles_app, Hs, Hs', Hk, Hk'.
      change (fetches [EvSleep _]) with 0.
      change (sleeps [EvSleep ?ms]) with [ms].
      repeat split; try lia.
      * f_equal; [lia|]. now rewrite <- !List.app_assoc.
      * cbn [app]. unfold backoff. cbn [seq map]. rewrite Nat.add_0_r.
        f_equal. rewrite <- seq_shift, map_map.
        apply map_ext. intros k. now rewrite Nat.add_succ_r.
      * right. apply Hhd.
    + cbn [snd]. exists 1, 0, t. rewrite Nat.add_1_r.
      repeat split; try lia; try assumption; try reflexivity.
      right. rewrite <- (List.app_nil_r t). apply Hhd.
Qed.

Lemma transcribeAudio_empty (env : Env) (audioBase64 : string) :
  truthy audioBase64 = false ->
  transcribeAudio env audioBase64 initial
  = (inl (Error "No audio data provided"), initial).
Proof.
  intros H. unfold transcribeAudio, tryFinally, tryCatch at 1.
  unfold bind at 1. rewrite H. reflexivity.
Qed.

Lemma transcribeAudio_cases (env : Env) (audioBase64 : string) :
  truthy audioBase64 = true ->
  (exists e k,
     1 <= k <= 5
     /\ transcribeAudio env audioBase64 initial
        = (inl e,
           {| tempFile := Some WebmFile; wavFile := Some WavFile; calls := 0;
              trace := firstn k probeTrace ++ unlinkBoth ++ unlinkBoth |}))
  \/ transcribeAudio env audioBase64 initial
     = tryFinally
         (tryCatch (retryWithBackoff (upload env) 3 1000)
            (fun error => bind cleanup (fun _ => throw error)))
         cleanup probed.
Proof.
  intros Haudio.
  unfold transcribeAudio, tryFinally, tryCatch at 1.
  unfold bind at 1. rewrite Haudio. cbn [negb].
  unfold ret at 1, bind, modify, emit, modify, lift, tryCatch, throw, ret.
  cbn [calls trace tempFile wavFile initial].
  destruct (writeFile env) as [e|[]].
  { left. exists e, 1. split; [lia|]. reflexivity. }
  destruct (statTemp env) as [e|size].
  { left. exists e, 2. split; [lia|]. reflexivity. }
  destruct (size =? 0)%Z.
  { left. eexists _, 2. split; [lia|]. reflexivity. }
  destruct (ffmpeg env) as [e|[]].
  { left. destruct e as [m|]; eexists _, 3; (split; [lia|]); reflexivity. }
  destruct (statWav env) as [e|wsize].
  { left. destruct e as [m|]; eexists _, 4; (split; [lia|]); reflexivity. }
  destruct (ffprobe env) as [e|duration].
  { left. destruct e as [m|]; eexists _, 5; (split; [lia|]); reflexivity. }
  destruct (duration <? 0.1)%float.
  { left. eexists _, 5. split; [lia|]. reflexivity. }
  right. reflexivity.
Qed.

Lemma transcribeAudio_world (env : Env) (audioBase64 : string) :
  truthy audioBase64 = true ->
  exists c n t,
    snd (transcribeAudio env audioBase64 initial)
    = {| tempFile := Some WebmFile; wavFile := Some WavFile; calls := c;
         trace :=
           EvWriteFile WebmFile :: t ++ unlinkBoth ++
           (if failed (fst (transcribeAudio env audioBase64 initial))
            then unlinkBoth else []) |}
    /\ c <= 3
    /\ fetches t <= c
    /\ n <= c
    /\ sleeps t = backoff 1000 0 n
    /\ keepsFiles t = true.
Proof.
  intros Haudio.
  destruct (transcribeAudio_cases env audioBase64 Haudio)
    as [(e & k & Hk & ->) | ->].
  - exists 0, 0, (tl (firstn k probeTrace)). cbn [fst snd failed].
    assert (Hk' : k = 1 \/ k = 2 \/ k = 3 \/ k = 4 \/ k = 5) by lia.
    destruct Hk' as [-> | [-> | [-> | [-> | ->]]]];
      repeat split; try lia; reflexivity.
  - unfold tryFinally, tryCatch, retryWithBackoff.
    destruct (retryLoop_upload_world env 1000 3 0 ThrownUndefined probed)
      as (c & n & t & Hw & Hc & Hf & Hn & Hs & Hkeep & _).
    destruct (retryLoop (upload env) 1000 3 0 ThrownUndefined probed)
      as [[e|a] w1]; cbn [snd] in Hw; subst w1;
      unfold cleanup, bind, gets, emit, modify, ret, throw;
      cbn [fst snd failed tempFile wavFile calls trace probed];
      exists c, n, (tl probeTrace ++ t)%list;
      rewrite fetches_app, sleeps_app, keepsFiles_app, Hs, Hkeep;
      (repeat split; try (cbn; lia); try reflexivity).
    + f_equal. cbn [probeTrace tl app unlinkBoth].
      now rewrite <- !List.app_assoc.
    + f_equal. cbn [probeTrace tl app unlinkBoth].
      now rewrite <- !List.app_assoc.
Qed.

Lemma quota_type_match {B} (v : JsValue) (a b : B) (P : B -> Prop) :
  P a -> P b ->
  P (match v with JStr "insufficient_quota" => a | _ => b end).
Proof.
  intros Ha Hb. destruct v; auto.
  repeat match goal with
         | |- context [match ?z with _ => _ end] => destruct z; auto
         end.
Qed.

Lemma upload_not_ok (env : Env) (w : World) (response : Response) :
  readWav env (calls w) = inr tt ->
  fetch env (calls w) = inr response ->
  ok response = false ->
  exists message,
    fst (upload env w) = inl (Error message)
    /\ (includes message "quota" = true
        \/ message = "OpenAI API error: " ++ showZ (status response) ++ " "
                     ++ body response
        \/ message = "Cannot read properties of undefined (reading 'message')").
Proof.
  intros Hread Hfetch Hok.
  unfold upload, bind, gets, emit, modify, lift, tryCatch, throw, ret.
  cbn [calls trace tempFile wavFile]. rewrite Hread, Hfetch, Hok. cbn [negb].
  destruct (JSON_parse env (body response)) as [[m|]|errorJson];
    cbn [messageOf fst].
  - destruct (includes m "quota") eqn:Hq; cbn [fst]; eauto.
  - eauto.
  - destruct (get errorJson "error") as [[m|]|errorJsonError];
      cbn [messageOf fst].
    + destruct (includes m "quota") eqn:Hq; cbn [fst]; eauto.
    + eauto.
    + match goal with
      | |- context [?m] =>
          lazymatch m with
          | match get_opt errorJsonError "type" with _ => _ end =>
              pattern m; apply quota_type_match
          end
      end; cbn [messageOf fst snd];
        match goal with
        | |- context [includes ?m "quota"] =>
            destruct (includes m "quota") eqn:Hq; cbn [fst]; eauto
        end.
Qed.

Lemma upload_returns (env : Env) (w w' : World) (s : string) :
  upload env w = (inr s, w') -> accepted env (calls w) s.
Proof.
  intros H.
  destruct (readWav env (calls w)) as [e|[]] eqn:Hread.
  { unfold upload, bind, gets, emit, modify, lift in H.
    cbn [calls trace tempFile wavFile] in H. now rewrite Hread in H. }
  destruct (fetch env (calls w)) as [e|response] eqn:Hfetch.
  { unfold upload, bind, gets, emit, modify, lift in H.
    cbn [calls trace tempFile wavFile] in H.
    now rewrite Hread, Hfetch in H. }
  destruct (ok response) eqn:Hok.
  2:{ destruct (upload_not_ok env w response Hread Hfetch Hok)
        as (m & Hm & _).
      rewrite H in Hm. discriminate Hm. }
  unfold upload, bind, gets, emit, modify, lift, throw, ret in H.
  cbn [calls trace tempFile wavFile] in H.
  rewrite Hread, Hfetch, Hok in H. cbn [negb] in H.
  destruct (JSON_parse env (body response)) as [e|result] eqn:Hparse;
    [discriminate H|].
  destruct (get result "text") as [e|resultText] eqn:Htext;
    [discriminate H|].
  destruct (truthyV resultText) eqn:Htruthy; cbn [negb] in H;
    [|discriminate H].
  destruct resultText as [| | | |text| |]; try discriminate H.
  exists response, result, text.
  repeat split; try assumption.
  - intros ->. discriminate Htruthy.
  - now inversion H.
Qed.

(** A success of the loop is the success of one of its uploads, after as
    many sleeps as uploads failed before it. *)
Lemma retryLoop_returns (env : Env) (initialDelay : Z) :
  forall (remaining i : nat) (lastError : Thrown) (w w' : World) (s : string),
    retryLoop (upload env) initialDelay remaining i lastError w = (inr s, w') ->
    exists k,
      k < remaining
      /\ accepted env (calls w + k) s
      /\ calls w' = calls w + S k
      /\ sleeps (trace w') = (sleeps (trace w) ++ backoff initialDelay i k)%list.
Proof.
  induction remaining as [|remaining IH]; intros i lastError w w' s H.
  - discriminate H.
  - cbn [retryLoop] in H. unfold tryCatch in H.
    destruct (upload_world env w) as (t & Hw1 & Ht).
    assert (Hs : sleeps t = []) by (destruct Ht as [-> | ->]; reflexivity).
    destruct (upload env w) as [[e|a] w1] eqn:Hup; cbn [snd] in Hw1; subst w1.
    + unfold bind, lift, throw, sleep, emit, modify in H.
      destruct (messageOf e) as [e'|message]; [discriminate H|].
      destruct (includes message "insufficient_quota"); [discriminate H|].
      cbn [calls trace tempFile wavFile] in H.
      apply IH in H. destruct H as (k & Hk & Hacc & Hcalls & Hsleeps).
      cbn [calls trace] in Hacc, Hcalls, Hsleeps.
      exists (S k). repeat split; try lia.
      * now replace (calls w + S k) with (S (calls w) + k) by lia.
      * rewrite Hsleeps, !sleeps_app, Hs.
        change (sleeps [EvSleep ?ms]) with [ms].
        rewrite List.app_nil_r, <- List.app_assoc. f_equal.
        unfold backoff. cbn [seq map app]. rewrite Nat.add_0_r. f_equal.
        rewrite <- seq_shift, map_map.
        apply map_ext. intros j. now rewrite Nat.add_succ_r.
    + inversion H; subst. exists 0. rewrite Nat.add_0_r.
      cbn [calls trace]. rewrite sleeps_app, Hs.
      repeat split; try lia.
      exact (upload_returns env w _ s Hup).
Qed.
(** X6.  The temporary files are removed on every path, and last.  A
    call with no audio fails with 'No audio data provided' and touches
    nothing.  Every other call, whatever the platform answers, first
    writes the decoded file, removes nothing while it works, and ends by
    unlinking both files: once when it returns, twice when it throws
    (the catch block and the finally block both unlink). *)
Theorem transcribeAudio_unlinks_last :
  forall (env : Env) (audioBase64 : string),
    let outcome := transcribeAudio env audioBase64 initial in
    if truthy audioBase64 then
      exists t,
        keepsFiles t = true
        /\ tempFile (snd outcome) = Some WebmFile
        /\ wavFile (snd outcome) = Some WavFile
        /\ trace (snd outcome)
           = EvWriteFile WebmFile :: t ++ unlinkBoth ++
             (if failed (fst outcome) then unlinkBoth else [])
    else
      outcome = (inl (Error "No audio data provided"), initial).
Proof.
  intros env audio. cbn zeta.
  destruct (truthy audio) eqn:Haudio.
  - destruct (transcribeAudio_world env audio Haudio)
      as (c & n & t & -> & _ & _ & _ & _ & Hkeep).
    exists t. now repeat split.
  - now apply transcribeAudio_empty.
Qed.

Lemma backoff_firstn (n : nat) :
  n <= 3 -> backoff 1000 0 n = firstn n [1000; 2000; 4000]%Z.
Proof.
  intros Hn.
  assert (H : n = 0 \/ n = 1 \/ n = 2 \/ n = 3) by lia.
  now destruct H as [-> | [-> | [-> | ->]]].
Qed.

(** X7.  Whatever the platform answers, one call makes at most three
    uploads, posts at most once per upload, and sleeps a first part of
    1000, 2000, 4000 ms, no more often than it uploaded. *)
Theorem transcribeAudio_bounded :
  forall (env : Env) (audioBase64 : string),
    let w' := snd (transcribeAudio env audioBase64 initial) in
    calls w' <= 3
    /\ fetches (trace w') <= calls w'
    /\ exists n,
         n <= calls w'
         /\ sleeps (trace w') = firstn n [1000; 2000; 4000]%Z.
Proof.
  intros env audio. cbn zeta.
  destruct (truthy audio) eqn:Haudio.
  - destruct (transcribeAudio_world env audio Haudio)
      as (c & n & t & -> & Hc & Hf & Hn & Hs & _).
    cbn [calls trace].
    change (EvWriteFile WebmFile :: ?l) with ([EvWriteFile WebmFile] ++ l)%list.
    rewrite !fetches_app, !sleeps_app, Hs.
    assert (Hf' : forall b : bool,
               fetches (if b then unlinkBoth else []) = 0
               /\ sleeps (if b then unlinkBoth else []) = [])
      by (now intros []).
    destruct (Hf' (failed (fst (transcribeAudio env audio initial))))
      as (-> & ->).
    cbn [fetches sleeps unlinkBoth flat_map filter length app List.length
         List.filter].
    rewrite List.app_nil_r.
    repeat split; try lia.
    exists n. split; [lia|]. apply backoff_firstn. lia.
  - rewrite (transcribeAudio_empty env audio Haudio). cbn.
    repeat split; try lia. exists 0. now split.
Qed.

(** X8.  A transcript is never made up.  When [transcribeAudio] returns,
    the string it returns is the serialization of the [text], [segments]
    and [words] of an answer that was [ok] and whose [text] is a string
    that is not empty; that answer is the one to the upload of some index
    [k] under three, and the call has uploaded [k + 1] times and slept the
    first [k] delays. *)
Theorem transcript_comes_from_accepted_upload :
  forall (env : Env) (audioBase64 s : string) (w' : World),
    transcribeAudio env audioBase64 initial = (inr s, w') ->
    exists k,
      k < 3
      /\ accepted env k s
      /\ calls w' = S k
      /\ sleeps (trace w') = firstn k [1000; 2000; 4000]%Z.
Proof.
  intros env audio s w' H.
  destruct (truthy audio) eqn:Haudio.
  2:{ rewrite (transcribeAudio_empty env audio Haudio) in H.
      discriminate H. }
  destruct (transcribeAudio_cases env audio Haudio)
    as [(e & k & Hk & He) | Hup].
  { rewrite He in H. discriminate H. }
  rewrite Hup in H. unfold tryFinally, tryCatch, retryWithBackoff in H.
  destruct (retryLoop (upload env) 1000 3 0 ThrownUndefined probed)
    as [[e|a] w1] eqn:Hloop.
  { unfold bind in H. destruct (cleanup w1) as [[e1|[]] w2].
    - destruct (cleanup w2) as [[?|[]] ?]; discriminate H.
    - unfold throw in H. destruct (cleanup w2) as [[?|[]] ?]; discriminate H. }
  apply retryLoop_returns in Hloop.
  destruct Hloop as (k & Hk & Hacc & Hcalls & Hsleeps).
  destruct (cleanup_runs w1) as (t & Hclean & _ & Hs).
  rewrite Hclean in H. inversion H; subst.
  exists k. cbn [calls trace probed] in *.
  rewrite sleeps_app, Hs, List.app_nil_r, Hsleeps.
  repeat split; try assumption; try lia.
  change (sleeps probeTrace) with (@nil Z). cbn [app].
  apply backoff_firstn. lia.
Qed.

Lemma transcript_comes_from_accepted_upload_witness :
  exists w',
    transcribeAudio Samples.flakyEnv "UklGRg==" initial
    = (inr Samples.transcriptJson, w')
    /\ exists k,
         k < 3
         /\ accepted Samples.flakyEnv k Samples.transcriptJson
         /\ calls w' = S k
         /\ sleeps (trace w') = firstn k [1000; 2000; 4000]%Z.
Proof.
  eexists. split; [vm_compute; reflexivity|].
  apply (transcript_comes_from_accepted_upload Samples.flakyEnv "UklGRg==").
  vm_compute. reflexivity.
Defined.

Lemma quota_type_other {B} (v : JsValue) (a b : B) :
  v <> JStr "insufficient_quota" ->
  match v with JStr "insufficient_quota" => a | _ => b end = b.
Proof.
  intros H. destruct v; try reflexivity.
  repeat match goal with
         | |- context [match ?z with _ => _ end] =>
             destruct z; try reflexivity
         end.
  now elim H.
Qed.

(** An upload that is answered with an error of another type than the
    quota's. *)
Lemma upload_api_error (env : Env) (w : World) (response : Response)
    (errorJson errorJsonError : JsValue) :
  readWav env (calls w) = inr tt ->
  fetch env (calls w) = inr response ->
  ok response = false ->
  JSON_parse env (body response) = inr errorJson ->
  get errorJson "error" = inr errorJsonError ->
  get_opt errorJsonError "type" <> JStr "insufficient_quota" ->
  let detail :=
    "OpenAI API error: " ++
    toStr (or_else (get_opt errorJsonError "message")
                   (JStr (body response))) in
  fst (upload env w)
  = inl (Error (if includes detail "quota" then detail
                else "OpenAI API error: " ++ showZ (status response) ++ " "
                     ++ body response)).
Proof.
  intros Hread Hfetch Hok Hparse Hget Htype. cbn zeta.
  unfold upload, bind, gets, emit, modify, lift, tryCatch, throw, ret.
  cbn [calls trace tempFile wavFile].
  rewrite Hread, Hfetch, Hok. cbn [negb]. rewrite Hparse, Hget.
  match goal with
  | |- context [?m] =>
      lazymatch m with
      | match get_opt errorJsonError "type" with _ => _ end =>
          rewrite (quota_type_other (get_opt errorJsonError "type") _ _ Htype
                   : m = _)
      end
  end.
  cbn [messageOf fst snd].
  match goal with
  | |- context [includes ?m "quota"] => now destruct (includes m "quota")
  end.
Qed.

(** A loop over an operation that fails with one error ends in that
    error, whether it stops at the marker or runs out of attempts. *)
Lemma retryLoop_same_failure {A} (operation : M World A)
    (initialDelay : Z) (message : string) :
  (forall w, fst (operation w) = inl (Error message)) ->
  forall (remaining i : nat) (lastError : Thrown) (w : World),
    fst (retryLoop operation initialDelay (S remaining) i lastError w)
    = inl (Error message).
Proof.
  intros Hop remaining.
  induction remaining as [|remaining IH]; intros i lastError w.
  - cbn [retryLoop]. unfold tryCatch.
    pose proof (Hop w) as Hw. destruct (operation w) as [r w1].
    cbn [fst] in Hw. subst r. unfold bind, lift. cbn [messageOf].
    now destruct (includes message "insufficient_quota").
  - change (retryLoop operation initialDelay (S (S remaining)) i lastError)
      with (tryCatch operation
              (fun error =>
                 bind (lift (messageOf error)) (fun message =>
                 if includes message "insufficient_quota" then throw error
                 else
                   bind (sleep (initialDelay * 2 ^ Z.of_nat i)) (fun _ =>
                   retryLoop operation initialDelay (S remaining) (S i)
                     error)))).
    unfold tryCatch.
    pose proof (Hop w) as Hw. destruct (operation w) as [r w1].
    cbn [fst] in Hw. subst r. unfold bind at 1, lift. cbn [messageOf].
    destruct (includes message "insufficient_quota"); [reflexivity|].
    unfold bind, sleep, emit, modify. apply IH.
Qed.

(** X9.  The message of the API's error JSON reaches the caller only
    when it mentions quota.  When every upload is answered with the same
    answer that is not [ok], whose body parses to an error of another
    type than 'insufficient_quota', the call fails; its error is
    'OpenAI API error: ' followed by [error.message] (or the body, where
    there is none) when that text includes 'quota', and otherwise
    'OpenAI API error: ' followed by the status and the raw body: the
    inner catch replaces the error thrown two lines above it. *)
Theorem api_error_detail_is_dropped :
  forall (env : Env) (audioBase64 : string) (duration : float)
         (response : Response) (errorJson errorJsonError : JsValue),
    reachesProbe env audioBase64 ->
    ffprobe env = inr duration ->
    (duration <? 0.1)%float = false ->
    (forall i, readWav env i = inr tt) ->
    (forall i, fetch env i = inr response) ->
    ok response = false ->
    JSON_parse env (body response) = inr errorJson ->
    get errorJson "error" = inr errorJsonError ->
    get_opt errorJsonError "type" <> JStr "insufficient_quota" ->
    let detail :=
      "OpenAI API error: " ++
      toStr (or_else (get_opt errorJsonError "message")
                     (JStr (body response))) in
    fst (transcribeAudio env audioBase64 initial)
    = inl (Error (if includes detail "quota" then detail
                  else "OpenAI API error: " ++ showZ (status response)
                       ++ " " ++ body response)).
Proof.
  intros env audio duration response errorJson errorJsonError
         Hreach Hprobe Hlong Hread Hfetch Hok Hparse Hget Htype.
  cbn zeta.
  rewrite (transcribeAudio_uploads env audio duration Hreach Hprobe Hlong).
  destruct (guarded_outcome (retryWithBackoff (upload env) 3 1000) probed)
    as (-> & _).
  unfold retryWithBackoff.
  apply retryLoop_same_failure. intros w.
  exact (upload_api_error env w response errorJson errorJsonError
           (Hread _) (Hfetch _) Hok Hparse Hget Htype).
Qed.

Lemma api_error_detail_is_dropped_witness :
  reachesProbe Samples.invalidEnv "UklGRg=="
  /\ get_opt (JObj [ ("message", JStr "Invalid file format.");
                     ("type", JStr "invalid_request_error") ]) "type"
     <> JStr "insufficient_quota"
  /\ fst (transcribeAudio Samples.invalidEnv "UklGRg==" initial)
     = inl (Error ("OpenAI API error: 400 " ++ Samples.invalidBody)).
Proof.
  assert (Hreach : reachesProbe Samples.invalidEnv "UklGRg==").
  { repeat split; try reflexivity.
    - exists 4096%Z. split; [reflexivity | discriminate].
    - now exists 64044%Z. }
  assert (Htype :
    get_opt (JObj [ ("message", JStr "Invalid file format.");
                    ("type", JStr "invalid_request_error") ]) "type"
    <> JStr "insufficient_quota") by discriminate.
  split; [exact Hreach | split; [exact Htype|]].
  exact (api_error_detail_is_dropped Samples.invalidEnv "UklGRg==" 2.5%float
           Samples.invalidResponse Samples.invalidJson _ Hreach eq_refl eq_refl
           (fun _ => eq_refl) (fun _ => eq_refl) eq_refl eq_refl eq_refl
           Htype).
Defined.

Lemma nan_not_below (d bound : float) :
  PrimFloat.is_nan d = true -> (d <? bound)%float = false.
Proof.
  unfold PrimFloat.is_nan. rewrite FloatAxioms.eqb_spec, FloatAxioms.ltb_spec.
  destruct (Prim2SF d) as [s|s| |s m e]; cbn.
  - destruct s; intros H; discriminate H.
  - destruct s; intros H; discriminate H.
  - reflexivity.
  - rewrite Z.compare_refl, Pos.compare_refl.
    destruct s; intros H; discriminate H.
Qed.

(** X10.  A duration that is not a number passes the duration check:
    [NaN < 0.1] is false, so when ffprobe prints no number the call goes
    on to read the converted file for the upload. *)
Theorem nan_duration_is_uploaded :
  forall (env : Env) (audioBase64 : string) (duration : float),
    reachesProbe env audioBase64 ->
    ffprobe env = inr duration ->
    PrimFloat.is_nan duration = true ->
    exists t,
      trace (snd (transcribeAudio env audioBase64 initial))
      = (probeTrace ++ EvReadFile WavFile :: t)%list.
Proof.
  intros env audio duration Hreach Hprobe Hnan.
  pose proof (nan_not_below duration 0.1%float Hnan) as Hlong.
  rewrite (transcribeAudio_uploads env audio duration Hreach Hprobe Hlong).
  unfold tryFinally, tryCatch, retryWithBackoff.
  destruct (retryLoop_upload_world env 1000 3 0 ThrownUndefined probed)
    as (c & n & t & Hw & _ & _ & _ & _ & _ & [Hzero | (t' & ->)]);
    [discriminate Hzero|].
  destruct (retryLoop (upload env) 1000 3 0 ThrownUndefined probed)
    as [[e|a] w1]; cbn [snd] in Hw; subst w1;
    unfold cleanup, bind, gets, emit, modify, ret, throw;
    cbn [fst snd tempFile wavFile calls trace probed];
    rewrite <- !List.app_assoc; cbn [app]; eauto.
Qed.

Lemma nan_duration_is_uploaded_witness :
  reachesProbe (Samples.quotaEnv nan) "UklGRg=="
  /\ PrimFloat.is_nan nan = true
  /\ exists t,
       trace (snd (transcribeAudio (Samples.quotaEnv nan) "UklGRg==" initial))
       = (probeTrace ++ EvReadFile WavFile :: t)%list.
Proof.
  assert (Hreach : reachesProbe (Samples.quotaEnv nan) "UklGRg==").
  { repeat split; try reflexivity.
    - exists 4096%Z. split; [reflexivity | discriminate].
    - now exists 64044%Z. }
  split; [exact Hreach | split; [reflexivity|]].
  exact (nan_duration_is_uploaded (Samples.quotaEnv nan) "UklGRg==" nan
           Hreach eq_refl eq_refl).
Defined.

(** X11.  [retryWithBackoff] over an operation that keeps failing without
    the marker: it fails, after exactly [maxRetries] calls of the
    operation, and it has slept after every one of them, the last
    included, each sleep twice the one before.  With [maxRetries = 0] it
    calls nothing and throws [undefined], its unset [lastError]. *)
Theorem retryWithBackoff_exhausts :
  forall {A} (operation : M World A) (maxRetries : nat) (initialDelay : Z)
         (w : World),
    (forall w0, exists message w1,
        operation w0 = (inl (Error message), w1)
        /\ includes message "insufficient_quota" = false
        /\ calls w1 = S (calls w0)
        /\ sleeps (trace w1) = sleeps (trace w0)) ->
    let outcome := retryWithBackoff operation maxRetries initialDelay w in
    failed (fst outcome) = true
    /\ (maxRetries = 0 -> outcome = (inl ThrownUndefined, w))
    /\ calls (snd outcome) = calls w + maxRetries
    /\ sleeps (trace (snd outcome))
       = (sleeps (trace w) ++ backoff initialDelay 0 maxRetries)%list.
Proof.
  intros A operation maxRetries initialDelay w Hop. cbn zeta.
  unfold retryWithBackoff.
  destruct (retryLoop_retries_failures operation initialDelay Hop
              maxRetries 0 ThrownUndefined w) as ((e & He) & Hcalls & Hsleeps).
  repeat split.
  - now rewrite He.
  - now intros ->.
  - exact Hcalls.
  - exact Hsleeps.
Qed.

Lemma retryWithBackoff_exhausts_witness :
  let outcome := retryWithBackoff Samples.networkDown 3 1000 initial in
  failed (fst outcome) = true
  /\ (3 = 0 -> outcome = (inl ThrownUndefined, initial))
  /\ calls (snd outcome) = calls initial + 3
  /\ sleeps (trace (snd outcome))
     = (sleeps (trace initial) ++ backoff 1000 0 3)%list.
Proof.
  apply (retryWithBackoff_exhausts Samples.networkDown 3 1000 initial).
  intros w0. eexists _, _. repeat split.
Defined.

(** A transcript that is returned comes from an upload that was
    accepted. *)
Lemma transcribeAudio_accepted (env : Env)
    (audioBase64 s : string) (w' : World) :
  transcribeAudio env audioBase64 initial = (inr s, w') ->
  exists k, k < 3 /\ accepted env k s.
Proof.
  intros H.
  destruct (truthy audioBase64) eqn:Haudio.
  2:{ rewrite (transcribeAudio_empty env _ Haudio) in H.
      discriminate H. }
  destruct (transcribeAudio_cases env _ Haudio)
    as [(e & k & Hk & He) | Hup].
  { rewrite He in H. discriminate H. }
  rewrite Hup in H.
  unfold tryFinally, tryCatch, retryWithBackoff in H.
  destruct (retryLoop (upload env) 1000 3 0
              ThrownUndefined probed) as [[e|a] w1] eqn:Hloop.
  { unfold bind in H. destruct (cleanup w1) as [[e1|[]] w2].
    - destruct (cleanup w2) as [[?|[]] ?]; discriminate H.
    - unfold throw in H.
      destruct (cleanup w2) as [[?|[]] ?]; discriminate H. }
  apply retryLoop_returns in Hloop.
  destruct Hloop as (k & Hk & Hacc & _).
  destruct (cleanup w1) as [[?|[]] ?]; inversion H; subst.
  exists k. now split.
Qed.

(** The serialization of an accepted answer begins with its text. *)
Lemma accepted_shape (env : Env) (k : nat) (s : string) :
  accepted env k s ->
  exists text tail,
    text <> "" /\ s = "{" ++ quote "text" ++ ":" ++ quote text ++ tail.
Proof.
  intros (response & result & text & _ & _ & _ & _ & _ & Htext & ->).
  exists text. eexists. split; [exact Htext|].
  unfold stringify_object. cbn [JSON_stringify default].
  rewrite !append_assoc. reflexivity.
Qed.

End TranscribeRunsFacts.

(** ** The two analysis adapters over every platform behaviour *)

Module AdapterRunsFacts.

Import Js JsVal Eff JsFacts AiNew AdapterFacts.
Local Open Scope string_scope.

Section WithCaller.

Context {St : Type}.
Variable env : Env.

Lemma requests_app (t1 t2 : list Event) :
  requests (t1 ++ t2) = (requests t1 ++ requests t2)%list.
Proof. apply flat_map_app. Qed.

Lemma requests_deltas (deltas : list string) :
  requests (map EvDelta deltas) = [].
Proof. induction deltas as [|d ds IH]; [reflexivity | exact IH]. Qed.

(** Reading a stream: the deltas read are a first part of its chunks,
    and nothing else happens. *)
Lemma accumulate_world (deltas : list string) (failure : option Thrown) :
  forall (fullResponse : string) (w : World St),
    accumulate fullResponse deltas failure w
    = (match failure with
       | None => inr (concat_chunks fullResponse deltas)
       | Some e => inl e
       end,
       {| trace := trace w ++ map EvDelta deltas;
          callerState := callerState w |}).
Proof.
  intros fullResponse w. destruct failure as [e|].
  - apply accumulate_throws.
  - apply accumulate_completes.
Qed.


(** The whole behaviour of [analyzeConflict]: what it answers, and the
    world it leaves. *)
Lemma analyzeConflict_world
    (partner1Text partner2Text : string) (mode : CounselingMode)
    (isLiveArgument : bool) (partner1Name partner2Name : string)
    (w : World St) :
  exists sent deltas,
    length sent <= 1
    /\ ((exists r,
           length sent = 1
           /\ (forall e, JSON_parse env partner1Text <> inl e)
           /\ analyzeConflict env partner1Text partner2Text mode
                isLiveArgument partner1Name partner2Name w
              = (inr r,
                 {| trace :=
                      trace w ++ map EvStreamText sent ++ map EvDelta deltas;
                    callerState := callerState w |}))
        \/ (exists cause,
              analyzeConflict env partner1Text partner2Text mode
                isLiveArgument partner1Name partner2Name w
              = (inl genericFailure,
                 {| trace :=
                      trace w ++ map EvStreamText sent ++ map EvDelta deltas
                      ++ [EvConsoleError "[AI] Analysis error:" cause];
                    callerState := callerState w |})
              /\ (forall e, JSON_parse env partner1Text = inl e ->
                            sent = [] /\ deltas = [] /\ cause = e))).
Proof.
  unfold analyzeConflict, tryCatch, bind, callStreamText, bind, emit,
    modify, lift, ret, throw.
  destruct (JSON_parse env partner1Text) as [e1|d1].
  { exists [], []. split; [cbn; lia|]. right. exists e1. split; [reflexivity|].
    intros e H. now inversion H. }
  assert (Hparsed : forall (sent : list StreamTextArgs) (deltas : list string)
                           (cause e : Thrown),
             @inr Thrown JsValue d1 = inl e ->
             sent = [] /\ deltas = [] /\ cause = e) by discriminate.
  destruct (truthy partner2Text).
  - destruct (JSON_parse env partner2Text) as [e2|d2].
    { exists [], []. split; [cbn; lia|]. right. exists e2. split; [reflexivity|].
      apply Hparsed. }
    destruct (get d1 "text") as [e3|t1].
    { exists [], []. split; [cbn; lia|]. right. exists e3. split; [reflexivity|].
      apply Hparsed. }
    cbn [trace callerState].
    match goal with
    | |- context [streamText env ?a] =>
        set (args := a); destruct (streamText env args) as [e4|[deltas fl]]
    end.
    { exists [args], []. split; [cbn; lia|]. right. exists e4.
      split; [|apply Hparsed]. cbn [map app trace callerState]. now rewrite <- ?List.app_assoc. }
    rewrite accumulate_world. cbn [chunks failure trace callerState].
    destruct fl as [e5|].
    { exists [args], deltas. split; [cbn; lia|]. right. exists e5.
      split; [|apply Hparsed]. cbn [map app trace callerState]. now rewrite <- ?List.app_assoc. }
    destruct (truthy (concat_chunks "" deltas)); cbn [negb].
    + exists [args], deltas. split; [cbn; lia|]. left. eexists. split; [reflexivity|].
      split; [discriminate|].
      cbn [map app trace callerState]. now rewrite <- ?List.app_assoc.
    + exists [args], deltas. split; [cbn; lia|]. right. eexists.
      split; [|apply Hparsed]. cbn [map app trace callerState]. now rewrite <- ?List.app_assoc.
  - destruct (get d1 "text") as [e3|t1].
    { exists [], []. split; [cbn; lia|]. right. exists e3. split; [reflexivity|].
      apply Hparsed. }
    cbn [trace callerState].
    match goal with
    | |- context [streamText env ?a] =>
        set (args := a); destruct (streamText env args) as [e4|[deltas fl]]
    end.
    { exists [args], []. split; [cbn; lia|]. right. exists e4.
      split; [|apply Hparsed]. cbn [map app trace callerState]. now rewrite <- ?List.app_assoc. }
    rewrite accumulate_world. cbn [chunks failure trace callerState].
    destruct fl as [e5|].
    { exists [args], deltas. split; [cbn; lia|]. right. exists e5.
      split; [|apply Hparsed]. cbn [map app trace callerState]. now rewrite <- ?List.app_assoc. }
    destruct (truthy (concat_chunks "" deltas)); cbn [negb].
    + exists [args], deltas. split; [cbn; lia|]. left. eexists. split; [reflexivity|].
      split; [discriminate|].
      cbn [map app trace callerState]. now rewrite <- ?List.app_assoc.
    + exists [args], deltas. split; [cbn; lia|]. right. eexists.
      split; [|apply Hparsed]. cbn [map app trace callerState]. now rewrite <- ?List.app_assoc.
Qed.


(** The whole behaviour of [createAnalysisStream]. *)
Lemma createAnalysisStream_world (options : AnalysisStreamOptions)
    (w : World St) :
  exists deltas,
    (exists st',
        createAnalysisStream env options w
        = (inr {| aiResponse := concat_chunks "" deltas |},
           {| trace :=
                trace w ++ EvStreamText (streamRequest options)
                :: map EvDelta deltas
                ++ [EvOnComplete
                      (envelope (concat_chunks "" deltas)
                         (now_toISOString env))];
              callerState := st' |})
        /\ onComplete options
             (envelope (concat_chunks "" deltas) (now_toISOString env))
             (callerState w) = (inr tt, st'))
    \/ (exists called cause st',
          createAnalysisStream env options w
          = (inl genericFailure,
             {| trace :=
                  trace w ++ EvStreamText (streamRequest options)
                  :: map EvDelta deltas ++ map EvOnComplete called
                  ++ [EvConsoleError "[AI] Analysis error:" cause];
                callerState := st' |})
          /\ (called = [] /\ st' = callerState w
              \/ called = [envelope (concat_chunks "" deltas)
                             (now_toISOString env)]
                 /\ onComplete options
                      (envelope (concat_chunks "" deltas)
                         (now_toISOString env))
                      (callerState w) = (inl cause, st'))).
Proof.
  destruct (streamText env (streamRequest options))
    as [e|[deltas [e|]]] eqn:Hstream.
  - exists []. right. exists [], e, (callerState w).
    split; [|now left].
    unfold createAnalysisStream, tryCatch, bind, callStreamText, bind, emit,
      modify, lift, throw.
    fold (streamRequest options). cbn [trace callerState]. rewrite Hstream.
    cbn [map app trace callerState]. now rewrite <- ?List.app_assoc.
  - exists deltas. right. exists [], e, (callerState w).
    split; [|now left].
    unfold createAnalysisStream, tryCatch, bind, callStreamText, bind, emit,
      modify, lift, throw.
    fold (streamRequest options). cbn [trace callerState]. rewrite Hstream.
    rewrite accumulate_world.
    cbn [map app trace callerState chunks failure].
    rewrite <- ?List.app_assoc. cbn [app]. reflexivity.
  - exists deltas.
    destruct (onComplete options
                (envelope (concat_chunks "" deltas) (now_toISOString env))
                (callerState w)) as [[cause|[]] st'] eqn:Hcb.
    + right. eexists [_], cause, st'. split; [|now right].
      rewrite (createAnalysisStream_completed env options w deltas _ st'
                 Hstream Hcb).
      cbn [map app]. reflexivity.
    + left. exists st'. split; [|reflexivity].
      rewrite (createAnalysisStream_completed env options w deltas _ st'
                 Hstream Hcb).
      reflexivity.
Qed.


Lemma onCompleteCalls_requests (rs : list StreamTextArgs) :
  onCompleteCalls (map EvStreamText rs) = [].
Proof. induction rs as [|r rs IH]; [reflexivity | exact IH]. Qed.

Lemma requests_onComplete (called : list string) :
  requests (map EvOnComplete called) = [].
Proof. induction called as [|r rs IH]; [reflexivity | exact IH]. Qed.

Lemma requests_sent (rs : list StreamTextArgs) :
  requests (map EvStreamText rs) = rs.
Proof. induction rs as [|r rs IH]; [reflexivity | cbn; now f_equal]. Qed.

Lemma onCompleteCalls_called (called : list string) :
  onCompleteCalls (map EvOnComplete called) = called.
Proof. induction called as [|r rs IH]; [reflexivity | cbn; now f_equal]. Qed.

(** X12.  [analyzeConflict], whatever the platform answers: it has no
    completion callback and leaves the caller's state alone; it sends at
    most one request, and exactly one when it returns; when it throws,
    the error is 'Analysis failed. Please try again.' and the last thing
    it did was to log the cause; and a first transcript that does not
    parse is such a failure, with no request sent. *)
Theorem analyzeConflict_effects :
  forall (partner1Text partner2Text : string) (mode : CounselingMode)
         (isLiveArgument : bool) (partner1Name partner2Name : string)
         (w : World St),
    let outcome :=
      analyzeConflict env partner1Text partner2Text mode isLiveArgument
        partner1Name partner2Name w in
    callerState (snd outcome) = callerState w
    /\ onCompleteCalls (trace (snd outcome)) = onCompleteCalls (trace w)
    /\ (exists sent,
          requests (trace (snd outcome)) = (requests (trace w) ++ sent)%list
          /\ length sent <= 1
          /\ (if failed (fst outcome) then
                fst outcome = inl genericFailure
                /\ endsInLog (trace (snd outcome))
              else length sent = 1))
    /\ match JSON_parse env partner1Text with
       | inl cause =>
           outcome
           = (inl genericFailure,
              {| trace :=
                   trace w ++ [EvConsoleError "[AI] Analysis error:" cause];
                 callerState := callerState w |})
       | inr _ => True
       end.
Proof.
  intros p1 p2 mode live n1 n2 w. cbn zeta.
  destruct (analyzeConflict_world p1 p2 mode live n1 n2 w)
    as (sent & deltas & Hsent
        & [(r & Hone & Hparse & ->) | (cause & -> & Hparse)]);
    cbn [fst snd trace callerState failed];
    rewrite ?onCompleteCalls_app, ?requests_app, ?onCompleteCalls_requests,
      ?onCompleteCalls_deltas, ?requests_sent, ?requests_deltas,
      ?List.app_nil_r.
  - repeat split.
    + now exists sent.
    + destruct (JSON_parse env p1) as [e|d]; [now elim (Hparse e)|exact I].
  - change (onCompleteCalls [EvConsoleError _ cause]) with (@nil string).
    change (requests [EvConsoleError _ cause]) with (@nil StreamTextArgs).
    rewrite ?List.app_nil_r. repeat split.
    + exists sent. repeat split; [assumption|].
      exists (trace w ++ map EvStreamText sent ++ map EvDelta deltas)%list,
        cause.
      now rewrite <- !List.app_assoc.
    + destruct (JSON_parse env p1) as [e|d]; [|exact I].
      destruct (Hparse e eq_refl) as (-> & -> & ->). reflexivity.
Qed.

(** X13.  [createAnalysisStream], whatever the platform and the callback
    do: it sends exactly one request, the one built from its options.
    When it returns, the callback has been called once, with the envelope
    of the text returned, and has returned.  When it throws, the error is
    'Analysis failed. Please try again.', the cause was logged last, and
    either the callback was not called and the caller's state is as
    before, or it was called once and threw. *)
Theorem createAnalysisStream_effects :
  forall (options : AnalysisStreamOptions) (w : World St),
    let outcome := createAnalysisStream env options w in
    requests (trace (snd outcome))
    = (requests (trace w) ++ [streamRequest options])%list
    /\ match fst outcome with
       | inr r =>
           onCompleteCalls (trace (snd outcome))
           = (onCompleteCalls (trace w)
              ++ [envelope (aiResponse r) (now_toISOString env)])%list
           /\ onComplete options
                (envelope (aiResponse r) (now_toISOString env))
                (callerState w)
              = (inr tt, callerState (snd outcome))
       | inl e =>
           e = genericFailure
           /\ endsInLog (trace (snd outcome))
           /\ (onCompleteCalls (trace (snd outcome))
               = onCompleteCalls (trace w)
               /\ callerState (snd outcome) = callerState w
               \/ exists response cause,
                    onCompleteCalls (trace (snd outcome))
                    = (onCompleteCalls (trace w) ++ [response])%list
                    /\ onComplete options response (callerState w)
                       = (inl cause, callerState (snd outcome)))
       end.
Proof.
  intros options w. cbn zeta.
  destruct (createAnalysisStream_world options w)
    as (deltas & [(st' & -> & Hcb)
                 | (called & cause & st' & -> & Hcalled)]);
    cbn [fst snd trace callerState aiResponse];
    change (EvStreamText (streamRequest options) :: ?l)
      with ([EvStreamText (streamRequest options)] ++ l)%list;
    rewrite ?onCompleteCalls_app, ?requests_app, ?onCompleteCalls_called,
      ?onCompleteCalls_deltas, ?requests_onComplete, ?requests_deltas.
  - change (requests [EvOnComplete _]) with (@nil StreamTextArgs).
    change (requests [EvStreamText ?a]) with [a].
    change (onCompleteCalls [EvStreamText _]) with (@nil string).
    change (onCompleteCalls [EvOnComplete ?r]) with [r].
    rewrite ?List.app_nil_r. cbn [app]. repeat split. exact Hcb.
  - change (requests [EvConsoleError _ cause]) with (@nil StreamTextArgs).
    change (requests [EvStreamText ?a]) with [a].
    change (onCompleteCalls [EvStreamText _]) with (@nil string).
    change (onCompleteCalls [EvConsoleError _ cause]) with (@nil string).
    rewrite ?List.app_nil_r. cbn [app]. repeat split.
    + exists (trace w ++ EvStreamText (streamRequest options)
                :: map EvDelta deltas ++ map EvOnComplete called)%list, cause.
      repeat (rewrite <- ?List.app_assoc; cbn [app]). reflexivity.
    + destruct Hcalled as [(-> & ->) | (-> & Hcb)].
      * left. now rewrite List.app_nil_r.
      * right. now eexists _, cause.
Qed.


Lemma get_text_opt (data : JsValue) (text : string) :
  get data "text" = inr (JStr text) -> get_opt data "text" = JStr text.
Proof. destruct data; cbn; intros H; now inversion H. Qed.

Lemma getUserPrompt_empty_text (mode : CounselingMode)
    (partner1Name partner2Name partner1Text : string) (isLiveArgument : bool) :
  getUserPrompt mode partner1Name partner2Name partner1Text (Some "")
    isLiveArgument
  = getUserPrompt mode partner1Name partner2Name partner1Text None
      isLiveArgument.
Proof. reflexivity. Qed.

(** X14.  The two adapters agree but for the empty answer.  On
    transcripts that hold the texts handed to [createAnalysisStream], and
    with a completion callback that returns, [analyzeConflict] fails
    where [createAnalysisStream] fails, and where that returns a text,
    [analyzeConflict] returns the envelope of that text: the one
    exception is the empty text, which [createAnalysisStream] returns
    and [analyzeConflict] refuses. *)
Theorem analyzeConflict_agrees_with_createAnalysisStream :
  forall (options : AnalysisStreamOptions)
         (partner1Text partner2Text : string) (w : World St),
    sameTranscripts env partner1Text partner2Text options ->
    (forall response,
        fst (onComplete options response (callerState w)) = inr tt) ->
    fst (analyzeConflict env partner1Text partner2Text (mode options)
           (isLiveArgument options) (partner1Name options)
           (partner2Name options) w)
    = match fst (createAnalysisStream env options w) with
      | inr r =>
          if truthy (aiResponse r) then
            inr (envelope (aiResponse r) (now_toISOString env))
          else inl genericFailure
      | inl e => inl e
      end.
Proof.
  intros options p1 p2 w ((d1 & Hp1 & Ht1) & Hsecond) Hcb.
  assert (Hrequest :
    forall partner2Data,
      (if truthy p2 then JSON_parse env p2 else inr JNull) = inr partner2Data ->
      requestFor (mode options) (SYSTEM_PROMPTS (mode options))
        (getUserPromptOfValues (mode options) (partner1Name options)
           (partner2Name options) (JStr (partner1Transcription options))
           (or_else (get_opt partner2Data "text") JNull)
           (isLiveArgument options))
      = streamRequest options).
  { intros d2 Hd2. unfold streamRequest.
    apply (f_equal (requestFor (mode options) (SYSTEM_PROMPTS (mode options)))).
    destruct (partner2Transcription options) as [t2|].
    - destruct Hsecond as (Htruthy & d2' & Hp2 & Ht2).
      rewrite Htruthy, Hp2 in Hd2. inversion Hd2; subst d2'.
      rewrite (get_text_opt d2 t2 Ht2).
      destruct t2; reflexivity.
    - subst p2. cbn in Hd2. inversion Hd2; subst. reflexivity. }
  assert (Hsecond' : exists d2,
             (if truthy p2 then JSON_parse env p2 else inr JNull) = inr d2).
  { destruct (partner2Transcription options) as [t2|].
    - destruct Hsecond as (Htruthy & d2' & Hp2 & Ht2).
      rewrite Htruthy. eauto.
    - subst p2. cbn. eauto. }
  destruct Hsecond' as (d2 & Hd2). specialize (Hrequest d2 Hd2).
  unfold analyzeConflict, tryCatch, bind at 1, lift at 1.
  rewrite Hp1. unfold bind at 1.
  replace ((if truthy p2 then lift (JSON_parse env p2) else ret JNull) w)
    with (@inr Thrown JsValue d2, w)
    by (unfold lift, ret; destruct (truthy p2); now rewrite <- Hd2).
  cbn zeta. unfold bind at 1, lift at 1. rewrite Ht1. rewrite Hrequest.
  unfold bind, callStreamText, bind, emit, modify, lift, throw, ret.
  cbn [trace callerState].
  destruct (streamText env (streamRequest options))
    as [e|[deltas [e|]]] eqn:Hstream.
  - destruct (createAnalysisStream_stream_fails env options w) as [-> _];
      [left; eauto|]. reflexivity.
  - destruct (createAnalysisStream_stream_fails env options w) as [-> _];
      [right; eauto|].
    rewrite accumulate_world. reflexivity.
  - destruct (onComplete options
                (envelope (concat_chunks "" deltas) (now_toISOString env))
                (callerState w)) as [outcome st'] eqn:Hdone.
    rewrite (createAnalysisStream_completed env options w deltas outcome st'
               Hstream Hdone).
    specialize (Hcb (envelope (concat_chunks "" deltas) (now_toISOString env))).
    rewrite Hdone in Hcb. cbn [fst] in Hcb. subst outcome.
    rewrite accumulate_world. cbn [fst aiResponse chunks failure].
    now destruct (truthy (concat_chunks "" deltas)).
Qed.

End WithCaller.

Lemma analyzeConflict_agrees_with_createAnalysisStream_witness :
  sameTranscripts (Samples.aiEnv ["Piz"; "za"]) Samples.transcriptJson ""
    (Samples.dinnerOptions 1)
  /\ fst (analyzeConflict (Samples.aiEnv ["Piz"; "za"])
            Samples.transcriptJson "" dinner false "Alice" "Bob"
            (initial Samples.oneSession))
     = inr (envelope "Pizza" "2025-03-01T12:00:00.000Z").
Proof.
  assert (Hsame : sameTranscripts (Samples.aiEnv ["Piz"; "za"])
                    Samples.transcriptJson "" (Samples.dinnerOptions 1)).
  { split; [|reflexivity]. exists Samples.transcript. now split. }
  split; [exact Hsame|].
  exact (analyzeConflict_agrees_with_createAnalysisStream
           (Samples.aiEnv ["Piz"; "za"]) (Samples.dinnerOptions 1)
           Samples.transcriptJson "" (initial Samples.oneSession)
           Hsame (fun _ => eq_refl)).
Defined.

End AdapterRunsFacts.

(** ** [POST /api/sessions] and [GET /api/sessions/:id] *)

Module ServerRunsFacts.

Import Js JsVal Eff Schema Storage Server.
Local Open Scope string_scope.






Lemma createAnalysisStream_sends (revision : Ai.Revision)
    (env : AiNew.Env)
    (options : @Ai.AnalysisStreamOptions MemStorage)
    (w : AiNew.World MemStorage) :
  AiNew.requests
    (AiNew.trace (snd (Ai.createAnalysisStream revision env options w)))
  = (AiNew.requests (AiNew.trace w)
     ++ [Ai.streamRequest revision options])%list.
Proof.
  destruct (AiFacts.createAnalysisStream_runs revision env options w)
    as (deltas & [(st' & -> & Hcb)
                 | (called & cause & st' & -> & Hcalled)]);
    cbn [fst snd AiNew.trace];
    change (AiNew.EvStreamText (Ai.streamRequest revision options) :: ?l)
      with ([AiNew.EvStreamText (Ai.streamRequest revision options)] ++ l)%list;
    rewrite ?AdapterRunsFacts.requests_app,
      ?AdapterRunsFacts.requests_onComplete,
      ?AdapterRunsFacts.requests_deltas;
    cbn; now rewrite ?List.app_nil_r.
Qed.

(** The part of the handler behind the transcriptions sends one
    request. *)
Lemma processing_sends (env : Env) (data : SessionData) (st : MemStorage)
    (t1 : string) (t2 : option string) :
  AiNew.requests (AiNew.trace (snd
    (let (s, w') :=
       bind (AiNew.onCaller (createSession (asInsertSession data)))
         (fun session =>
            bind (Ai.createAnalysisStream (aiModule env) (ai env)
                    (analysisOptions data t1 t2 session))
              (fun result =>
                 ret {| status := 200;
                        body := BodyAnalysis (AiNew.aiResponse result)
                                  (Schema.id session) |}))
         (AiNew.initial st) in
     match s with
     | inl e => ret (processingError e) w'
     | inr a => (inr a, w')
     end)))
  = [analysisRequest (aiModule env) data t1 t2].
Proof.
  unfold bind, AiNew.onCaller, ret.
  cbn [createSession fst snd AiNew.initial AiNew.callerState AiNew.trace].
  match goal with
  | |- context [Ai.createAnalysisStream ?v ?e ?o ?w] =>
      pose proof (createAnalysisStream_sends v e o w) as H;
      destruct (Ai.createAnalysisStream v e o w) as [[e0|r] w']
  end; cbn [snd AiNew.trace] in *; exact H.
Qed.


(** X17.  The prompt carries the transcript as it was serialized.  When
    the two recordings go through [transcribeAudio] and the request is
    answered with 200, the one request sent to the model was built from
    the string the first transcription returned, and its user prompt
    contains that string whole, in either revision of [./ai]: the
    serialization of an accepted answer, which begins [{"text":"..."],
    the JSON object and not the text it holds. *)
Theorem prompt_carries_serialized_transcript :
  forall (first second : Transcribe.Env) (analysis : AiNew.Env)
         (revision : Ai.Revision)
         (data : SessionData) (st : MemStorage)
         (response : HttpResponse) (w' : AiNew.World MemStorage),
    postSessions (processingEnv first second analysis revision data) data
      (AiNew.initial st) = (inr response, w') ->
    status response = 200%Z ->
    exists k transcription partner2Transcription text tail,
      k < 3
      /\ Transcribe.accepted first k transcription
      /\ text <> ""
      /\ transcription
         = "{" ++ quote "text" ++ ":" ++ quote text ++ tail
      /\ AiNew.requests (AiNew.trace w')
         = [analysisRequest revision data transcription
              partner2Transcription]
      /\ includes
           (userPrompt
              (analysisRequest revision data transcription
                 partner2Transcription))
           transcription = true.
Proof.
  intros first second analysis revision data st response w' H Hstatus.
  assert (Hfinish : forall s1 wT t2,
    Transcribe.transcribeAudio first (partner1Audio data) Transcribe.initial
      = (inr s1, wT) ->
    AiNew.requests (AiNew.trace w') = [analysisRequest revision data s1 t2] ->
    exists k transcription partner2Transcription text tail,
      k < 3
      /\ Transcribe.accepted first k transcription
      /\ text <> ""
      /\ transcription
         = "{" ++ quote "text" ++ ":" ++ quote text ++ tail
      /\ AiNew.requests (AiNew.trace w')
         = [analysisRequest revision data transcription
              partner2Transcription]
      /\ includes
           (userPrompt
              (analysisRequest revision data transcription
                 partner2Transcription))
           transcription = true).
  { intros s1 wT t2 Hs1 Hsent.
    destruct (TranscribeRunsFacts.transcribeAudio_accepted first _ s1 wT Hs1)
      as (k & Hk & Hacc).
    destruct (TranscribeRunsFacts.accepted_shape first k s1 Hacc)
      as (text & tail & Htext & Hshape).
    exists k, s1, t2, text, tail. repeat split; try assumption.
    cbn [userPrompt analysisRequest AiNew.requestFor AiNew.messages
         AiNew.content].
    apply AiFacts.analysisPrompt_includes_first. }
  revert H. unfold postSessions, tryCatch. unfold bind at 1, lift at 1.
  cbn [processingEnv transcribePartner1 transcribePartner2 ai aiModule].
  destruct (Transcribe.transcribeAudio first (partner1Audio data)
              Transcribe.initial) as [[e1|s1] wT] eqn:Hs1; cbn [fst].
  { intros H. inversion H; subst. discriminate Hstatus. }
  unfold bind at 1.
  destruct (negb (isLiveArgument data) && truthy (partner2Audio data)).
  - unfold bind at 1, lift at 1.
    destruct (fst (Transcribe.transcribeAudio second (partner2Audio data)
                     Transcribe.initial)) as [e2|s2].
    { intros H. inversion H; subst. discriminate Hstatus. }
    unfold ret at 1. intros H.
    apply (Hfinish s1 wT (Some s2) eq_refl).
    match type of H with
    | ?lhs = _ => assert (Hw : snd lhs = w') by (now rewrite H)
    end.
    rewrite <- Hw.
    exact (processing_sends
             (processingEnv first second analysis revision data)
             data st s1 (Some s2)).
  - unfold ret at 1. intros H.
    apply (Hfinish s1 wT None eq_refl).
    match type of H with
    | ?lhs = _ => assert (Hw : snd lhs = w') by (now rewrite H)
    end.
    rewrite <- Hw.
    exact (processing_sends
             (processingEnv first second analysis revision data)
             data st s1 None).
Qed.

Lemma prompt_carries_serialized_transcript_witness :
  exists response w',
    postSessions
      (processingEnv Samples.flakyEnv Samples.flakyEnv
         (Samples.aiEnv ["Piz"; "za"]) Ai.plain Samples.dinnerData)
      Samples.dinnerData (AiNew.initial Storage.empty) = (inr response, w')
    /\ status response = 200%Z
    /\ includes
         (userPrompt
            (analysisRequest Ai.plain Samples.dinnerData
               Samples.transcriptJson (Some Samples.transcriptJson)))
         ("{" ++ dq ++ "text" ++ dq ++ ":") = true
    /\ exists k transcription partner2Transcription text tail,
         k < 3
         /\ Transcribe.accepted Samples.flakyEnv k transcription
         /\ text <> ""
         /\ transcription
            = "{" ++ quote "text" ++ ":" ++ quote text ++ tail
         /\ AiNew.requests (AiNew.trace w')
            = [analysisRequest Ai.plain Samples.dinnerData transcription
                 partner2Transcription]
         /\ includes
              (userPrompt
                 (analysisRequest Ai.plain Samples.dinnerData transcription
                    partner2Transcription))
              transcription = true.
Proof.
  eexists _, _. split; [vm_compute; reflexivity|].
  split; [reflexivity|]. split; [vm_compute; reflexivity|].
  eapply (prompt_carries_serialized_transcript Samples.flakyEnv
            Samples.flakyEnv (Samples.aiEnv ["Piz"; "za"]) Ai.plain
            Samples.dinnerData Storage.empty).
  - vm_compute. reflexivity.
  - reflexivity.
Defined.

End ServerRunsFacts.

(** ** The subscription check *)

Module SubscriptionFacts.

Import Js JsVal Eff Subscription.
Local Open Scope string_scope.

Lemma sameOrOff_refl (env : Env) (address : string) (db : Table) :
  Forall2 (sameOrOff env address) db db.
Proof. induction db; constructor; [now left | assumption]. Qed.

Lemma filter_head_In {A} (f : A -> bool) (l : list A) (x : A) (rest : list A) :
  List.filter f l = x :: rest -> In x l /\ f x = true.
Proof.
  intros H. apply filter_In. rewrite H. now left.
Qed.

(** Switching off by a key that one row holds changes that row only. *)
Lemma deactivate_one (env : Env) (address : string) (db : Table)
    (subscription : Subscription) (expiry : Z) :
  List.NoDup (map id db) ->
  In subscription db ->
  matches address subscription = true ->
  expiresAt subscription = Some expiry ->
  (expiry < now env)%Z ->
  Forall2 (sameOrOff env address) db (deactivate (id subscription) db).
Proof.
  intros Hkeys Hin Hmatch Hexp Hlt.
  induction db as [|row db IH]; [constructor|].
  cbn [deactivate map]. cbn [map] in Hkeys. inversion Hkeys as [|? ? Hfresh Hrest]; subst.
  constructor.
  - destruct (Z.eqb_spec (id row) (id subscription)) as [Heq|Hne]; [|now left].
    destruct Hin as [->|Hin].
    + right. repeat split; eauto.
    + elim Hfresh. rewrite Heq. now apply in_map.
  - destruct Hin as [->|Hin].
    + clear IH. 
      assert (Hnone : forall r, In r db -> (id r =? id subscription)%Z = false).
      { intros r Hr. apply Z.eqb_neq. intros Heq. apply Hfresh.
        rewrite <- Heq. now apply in_map. }
      clear Hkeys Hfresh Hrest.
      induction db as [|r db IHdb]; [constructor|].
      cbn [map]. rewrite (Hnone r) by now left.
      constructor; [now left|]. apply IHdb. intros r' Hr'. apply Hnone. now right.
    + now apply IH.
Qed.


(** X18.  [validateSubscription] never switches a subscription on, and
    switches off nothing but what it found expired.  In a table whose
    ids are unique (the primary key), every row is after the call as it
    was before, but for a row of that address that was active and whose
    [expiresAt] lies before now, which is switched off.  A call that
    returns true, and a call that throws, leave the table as it was. *)
Theorem validateSubscription_only_switches_off :
  forall (env : Env) (address : string) (db : Table),
    List.NoDup (map id db) ->
    let outcome := validateSubscription env address db in
    Forall2 (sameOrOff env address) db (snd outcome)
    /\ (fst outcome = inr true -> snd outcome = db)
    /\ (failed (fst outcome) = true -> snd outcome = db).
Proof.
  intros env address db Hkeys. cbn zeta.
  unfold validateSubscription, bind, query, gets, modify, ret, throw.
  destruct (selectFailure env) as [e|].
  { cbn. repeat split. apply sameOrOff_refl. }
  destruct (List.filter (matches address) db) as [|subscription rest] eqn:Hrows.
  { cbn. repeat split; try discriminate. apply sameOrOff_refl. }
  destruct (filter_head_In _ _ _ _ Hrows) as (Hin & Hmatch).
  destruct (expiresAt subscription) as [expiry|] eqn:Hexp.
  2:{ cbn. repeat split. apply sameOrOff_refl. }
  destruct (Z.ltb_spec expiry (now env)) as [Hlt|Hge].
  2:{ cbn. repeat split. apply sameOrOff_refl. }
  destruct (updateFailure env) as [e|].
  { cbn. repeat split. apply sameOrOff_refl. }
  cbn. repeat split; try discriminate.
  now apply deactivate_one with (expiry := expiry).
Qed.


Lemma NoDup_map_In {A B} (f : A -> B) (l : list A) (x y : A) :
  List.NoDup (map f l) -> In x l -> In y l -> f x = f y -> x = y.
Proof.
  induction l as [|a l IH]; intros Hnd Hx Hy Hf; [contradiction|].
  cbn [map] in Hnd. inversion Hnd as [|? ? Hfresh Hrest]; subst.
  destruct Hx as [->|Hx], Hy as [->|Hy]; try reflexivity.
  - elim Hfresh. rewrite Hf. now apply in_map.
  - elim Hfresh. rewrite <- Hf. now apply in_map.
  - now apply IH.
Qed.

Lemma matches_email (address : string) (row : Subscription) :
  matches address row = true -> email row = address.
Proof.
  unfold matches. intros H. apply andb_true_iff in H as [H _].
  now apply String.eqb_eq.
Qed.

Lemma filter_nil {A} (f : A -> bool) (l : list A) :
  (forall x, In x l -> f x = false) -> List.filter f l = [].
Proof.
  induction l as [|a l IH]; intros H; [reflexivity|].
  cbn. rewrite (H a) by now left. apply IH. intros x Hx. apply H. now right.
Qed.

(** X19.  Once refused, refused again.  In a table whose addresses are
    unique (the column is declared so), after a call that returned
    false no row of that address is active: every later call for it, at
    whatever time, returns false and changes nothing, until something
    else writes the table. *)
Theorem refused_stays_refused :
  forall (env later : Env) (address : string) (db : Table),
    List.NoDup (map email db) ->
    fst (validateSubscription env address db) = inr false ->
    selectFailure later = None ->
    validateSubscription later address
      (snd (validateSubscription env address db))
    = (inr false, snd (validateSubscription env address db)).
Proof.
  intros env later address db Hemails Hrefused Hselect.
  assert (Hnone :
    List.filter (matches address) (snd (validateSubscription env address db))
    = []).
  { revert Hrefused.
    unfold validateSubscription, bind, query, gets, modify, ret, throw.
    destruct (selectFailure env) as [e|]; [discriminate|].
    destruct (List.filter (matches address) db) as [|subscription rest]
      eqn:Hrows; [intros _; exact Hrows|].
    destruct (filter_head_In _ _ _ _ Hrows) as (Hin & Hmatch).
    destruct (expiresAt subscription) as [expiry|]; [|discriminate].
    destruct (expiry <? now env)%Z; [|discriminate].
    destruct (updateFailure env) as [e|]; [discriminate|].
    intros _. cbn [snd]. unfold deactivate.
    apply filter_nil. intros row' Hrow'.
    apply in_map_iff in Hrow' as (row & <- & Hrow).
    destruct (Z.eqb_spec (id row) (id subscription)) as [Heq|Hne].
    - unfold matches. cbn. apply andb_false_r.
    - destruct (matches address row) eqn:Hm; [|reflexivity].
      elim Hne. f_equal.
      apply (NoDup_map_In email db row subscription Hemails Hrow Hin).
      now rewrite (matches_email _ _ Hm), (matches_email _ _ Hmatch). }
  unfold validateSubscription at 1.
  unfold bind, query, gets, ret. rewrite Hselect, Hnone. reflexivity.
Qed.

Lemma validateSubscription_only_switches_off_witness :
  List.NoDup (map id Samples.subscribers)
  /\ snd (validateSubscription (Samples.clock 1735689600000)
            "alice@example.com" Samples.subscribers)
     = [deactivated Samples.lapsed; Samples.unlimited]
  /\ Forall2 (sameOrOff (Samples.clock 1735689600000) "alice@example.com")
       Samples.subscribers
       (snd (validateSubscription (Samples.clock 1735689600000)
               "alice@example.com" Samples.subscribers)).
Proof.
  assert (Hkeys : List.NoDup (map id Samples.subscribers)).
  { repeat constructor; cbn; intuition discriminate. }
  split; [exact Hkeys | split; [reflexivity|]].
  apply (validateSubscription_only_switches_off
           (Samples.clock 1735689600000) "alice@example.com"
           Samples.subscribers Hkeys).
Defined.

Lemma refused_stays_refused_witness :
  List.NoDup (map email Samples.subscribers)
  /\ fst (validateSubscription (Samples.clock 1735689600000)
            "alice@example.com" Samples.subscribers) = inr false
  /\ validateSubscription (Samples.clock 1700000000001) "alice@example.com"
       (snd (validateSubscription (Samples.clock 1735689600000)
               "alice@example.com" Samples.subscribers))
     = (inr false,
        snd (validateSubscription (Samples.clock 1735689600000)
               "alice@example.com" Samples.subscribers)).
Proof.
  assert (Hemails : List.NoDup (map email Samples.subscribers)).
  { repeat constructor; cbn; intuition discriminate. }
  split; [exact Hemails | split; [reflexivity|]].
  exact (refused_stays_refused (Samples.clock 1735689600000)
           (Samples.clock 1700000000001) "alice@example.com"
           Samples.subscribers Hemails eq_refl eq_refl).
Defined.

End SubscriptionFacts.

Module RouterFacts.

Import Js JsVal Eff Schema Storage Server Router.
Local Open Scope string_scope.


End RouterFacts.

(** ** The sections of a displayed response *)

Module ResponseDisplayFacts.

Import Js ResponseDisplay.
Local Open Scope string_scope.

Lemma isHeader_truthy (line : string) :
  isHeader line = true -> truthy line = true.
Proof. now destruct line. Qed.

Section Sections.

Variable trim : string -> string.

(** One step of the [reduce]. *)
Lemma addLine_spec (acc : list (list string)) (line : string) :
  Forall wellFormed acc ->
  let acc' := addLine trim acc line in
  Forall wellFormed acc'
  /\ List.length acc' = List.length acc + (if isHeader (trim line) then 1 else 0)
  /\ concat acc'
     = (concat acc ++
        if isHeader (trim line) then [trim line]
        else if truthy (trim line) && (0 <? List.length acc)%nat then [trim line]
        else [])%list.
Proof.
  intros Hacc. cbn zeta. unfold addLine.
  destruct (isHeader (trim line)) eqn:Hheader.
  - repeat split.
    + apply Forall_app. split; [exact Hacc|].
      constructor; [|constructor]. now split.
    + rewrite List.length_app. reflexivity.
    + rewrite concat_app. cbn. reflexivity.
  - destruct (truthy (trim line)) eqn:Htruthy; cbn [andb];
      [|rewrite List.app_nil_r, Nat.add_0_r; now repeat split].
    destruct acc as [|first acc0] using rev_ind;
      [cbn; now repeat split|].
    clear IHacc0.
    replace (0 <? List.length (acc0 ++ [first])%list)%nat with true
      by (rewrite List.length_app, Nat.add_comm; reflexivity).
    rewrite removelast_last, last_last.
    apply Forall_app in Hacc as [Hacc0 Hfirst].
    inversion Hfirst as [|? ? Hwf _]; subst.
    repeat split.
    + apply Forall_app. split; [exact Hacc0|]. constructor; [|constructor].
      destruct first as [|header body]; [contradiction|].
      destruct Hwf as [Hh Hbody]. split; [exact Hh|].
      apply Forall_app. split; [exact Hbody|]. now repeat constructor.
    + rewrite !List.length_app. cbn. lia.
    + rewrite !concat_app. cbn. rewrite !List.app_nil_r.
      now rewrite List.app_assoc.
Qed.

Lemma reduce_spec (lines : list string) :
  forall acc : list (list string),
    Forall wellFormed acc ->
    let out := fold_left (addLine trim) lines acc in
    Forall wellFormed out
    /\ List.length out
       = List.length acc
         + List.length (List.filter isHeader (map trim lines))
    /\ concat out
       = (concat acc ++
          List.filter truthy
            (if (0 <? List.length acc)%nat then map trim lines
             else fromFirstHeader (map trim lines)))%list.
Proof.
  induction lines as [|line lines IH]; intros acc Hacc; cbn zeta.
  - cbn [fold_left map List.filter fromFirstHeader List.length].
    rewrite Nat.add_0_r. repeat split; [assumption|].
    destruct (0 <? List.length acc)%nat; cbn; now rewrite List.app_nil_r.
  - cbn [fold_left map].
    destruct (addLine_spec acc line Hacc) as (Hwf & Hlen & Hcat).
    destruct (IH (addLine trim acc line) Hwf) as (Hwf' & Hlen' & Hcat').
    split; [exact Hwf'|]. split.
    + rewrite Hlen', Hlen. cbn [List.filter].
      destruct (isHeader (trim line)); cbn [List.length]; lia.
    + rewrite Hcat', Hcat, Hlen.
      destruct (isHeader (trim line)) eqn:Hheader.
      * replace (0 <? List.length acc + 1)%nat with true
          by (rewrite Nat.add_comm; reflexivity).
        rewrite <- List.app_assoc. cbn [app].
        destruct (0 <? List.length acc)%nat;
          cbn [List.filter fromFirstHeader];
          rewrite ?Hheader; cbn [List.filter];
          now rewrite (isHeader_truthy _ Hheader).
      * rewrite Nat.add_0_r.
        destruct (0 <? List.length acc)%nat;
          cbn [andb List.filter fromFirstHeader]; rewrite ?Hheader.
        -- destruct (truthy (trim line)); now rewrite <- List.app_assoc.
        -- rewrite andb_false_r. now rewrite List.app_nil_r.
Qed.

End Sections.

(** X21.  How the client cuts a response into sections, for any [trim].
    Every section begins with a line that starts with one of the six
    markers, followed by lines that are no header and not empty; there
    are as many sections as header lines; and the sections, read in
    order, are the trimmed lines of the response from its first header
    line on, the empty ones left out.  So what precedes the first
    header is dropped, and a response without a header line gives no
    section at all. *)
Theorem sections_start_at_first_header :
  forall (trim : string -> string) (response : string),
    let lines := map trim (split_lines response) in
    Forall wellFormed (sections trim response)
    /\ List.length (sections trim response)
       = List.length (List.filter isHeader lines)
    /\ concat (sections trim response)
       = List.filter truthy (fromFirstHeader lines).
Proof.
  intros trim response. cbn zeta. unfold sections.
  destruct (reduce_spec trim (split_lines response) [] (List.Forall_nil _))
    as (Hwf & Hlen & Hcat).
  cbn [List.length concat app] in Hlen, Hcat. repeat split; assumption.
Qed.


End ResponseDisplayFacts.
